(** * Tetris solver: a shallow embedding of [tetris_solver.py]

    The development follows the Python module top to bottom: the module
    constants, the NumPy array operations the code relies on, the piece
    library ([get_rotations], [BASE_TETROMINOS], [TETROMINOS]), the
    methods of the [TetrisSolver] class written in a state-and-exception
    monad over the object's four attributes, and the loop of [run_game].

    Modelling conventions.
    - A two-dimensional integer array is a list of rows, each a list of [Z].
      NumPy arrays are rectangular by construction; the predicates
      [rect] and [wf_board] carry that fact where a statement needs it.
    - Indices are Python integers ([Z]).  Indexing follows NumPy: an index
      [i] into an axis of size [n] is valid for [-n <= i < n], a negative
      index counts from the end, anything else raises [IndexError].
    - The three counters carry their run-time type: a Python [int], of
      unbounded size, or a NumPy [int64] scalar, which they become once
      [np.sum] has fed them.  Their arithmetic is that of NumPy 2 on a
      64-bit platform: exact between two Python integers; as soon as one
      operand is an [int64] the other one is converted to [int64] (a
      Python integer out of range raises [OverflowError]) and the result
      wraps around modulo [2^64].
    - Row and column indices are Python integers; cell values, row
      counts and the values of the evaluator are NumPy integers bounded
      by the size of the board.  All of them are plain [Z].
    - The state carries the array currently bound to [self.board].
      [self.board.copy()] reads it, [self.board[i, j] = v] updates it, and
      [self.board = a] rebinds it.
    - [random.choice] in [run_game] is an input of the model: the
      sequence of the families it returns.
    - [print] calls, the [print_*] methods and [time.sleep] produce
      console output and pauses only and are left out. *)

From Stdlib Require Import ZArith Lia Bool String.
From stdpp Require Import base tactics option list numbers strings.

Local Open Scope Z_scope.

(** ** Module constants *)

Definition BOARD_WIDTH : Z := 10.
Definition BOARD_HEIGHT : Z := 20.

(** The dictionary [LINE_CLEAR_POINTS], in source order. *)
Definition LINE_CLEAR_POINTS : list (Z * Z) :=
  [ (1, 100); (2, 300); (3, 500); (4, 800) ].

(** Dictionary subscript [d[k]]: the value of the first entry with key [k],
    [None] standing for Python's [KeyError]. *)
Fixpoint dict_get {V : Type} (d : list (Z * V)) (k : Z) : option V :=
  match d with
  | [] => None
  | (k', v) :: d' => if Z.eqb k k' then Some v else dict_get d' k
  end.

(** ** NumPy arrays *)

Module Np.

Abbreviation ndarray := (list (list Z)).

Definition nrows (a : ndarray) : nat := length a.

Definition ncols (a : ndarray) : nat :=
  match a with
  | [] => O
  | r :: _ => length r
  end.

(** [a.shape] for a two-dimensional array. *)
Definition shape (a : ndarray) : Z * Z :=
  (Z.of_nat (nrows a), Z.of_nat (ncols a)).

(** Every row has the length of the first one. *)
Definition rect (a : ndarray) : bool :=
  forallb (fun r => Nat.eqb (length r) (ncols a)) a.

(** Index normalisation along an axis of size [n]. *)
Definition norm_index (n : nat) (i : Z) : option nat :=
  if (0 <=? i) && (i <? Z.of_nat n) then Some (Z.to_nat i)
  else if (- Z.of_nat n <=? i) && (i <? 0) then Some (Z.to_nat (i + Z.of_nat n))
  else None.

(** [l[i]] on a one-dimensional array or a Python list. *)
Definition getitem1 {A : Type} (l : list A) (i : Z) : option A :=
  k ← norm_index (length l) i; l !! k.

(** [a[i, j]]. *)
Definition getitem (a : ndarray) (i j : Z) : option Z :=
  r ← norm_index (nrows a) i;
  row ← a !! r;
  c ← norm_index (ncols a) j;
  row !! c.

(** [a[i, j] = v]: the array after the assignment. *)
Definition setitem (a : ndarray) (i j : Z) (v : Z) : option ndarray :=
  r ← norm_index (nrows a) i;
  row ← a !! r;
  c ← norm_index (ncols a) j;
  Some (<[r := <[c := v]> row]> a).

(** [a[i] = row]: assignment of a whole row. *)
Definition setrow (a : ndarray) (i : Z) (row : list Z) : option ndarray :=
  r ← norm_index (nrows a) i;
  Some (<[r := row]> a).

(** [a[:, j]]: the column [j] as a one-dimensional array. *)
Definition getcol (a : ndarray) (j : Z) : option (list Z) :=
  c ← norm_index (ncols a) j;
  mapM (fun row : list Z => row !! c) a.

(** [np.zeros_like(a)]. *)
Definition zeros_like (a : ndarray) : ndarray :=
  map (map (fun _ => 0)) a.

(** [np.zeros((h, w), dtype=int)]. *)
Definition zeros (h w : Z) : ndarray :=
  replicate (Z.to_nat h) (replicate (Z.to_nat w) 0).

(** [np.all(a == 1, axis=1)]: one boolean per row. *)
Definition all_eq1_axis1 (a : ndarray) : list bool :=
  map (forallb (fun v => v =? 1)) a.

(** [np.sum] of a boolean vector. *)
Definition sum_bool (l : list bool) : Z :=
  fold_left (fun acc (b : bool) => if b then acc + 1 else acc) l 0.

(** [np.where(v == 1)[0]]: the indices of the entries equal to 1,
    in increasing order. *)
Fixpoint where_eq1_from (k : Z) (v : list Z) : list Z :=
  match v with
  | [] => []
  | c :: v' =>
      if c =? 1 then k :: where_eq1_from (k + 1) v'
      else where_eq1_from (k + 1) v'
  end.

Definition where_eq1 (v : list Z) : list Z := where_eq1_from 0 v.

(** [np.flip(a, 0)] and [np.flip(a, 1)]. *)
Definition flip0 (a : ndarray) : ndarray := rev a.
Definition flip1 (a : ndarray) : ndarray := map (@rev Z) a.

(** [np.transpose] of a two-dimensional array with at least one row. *)
Fixpoint transpose (a : ndarray) : ndarray :=
  match a with
  | [] => []
  | r :: a' =>
      match a' with
      | [] => map (fun v => [v]) r
      | _ :: _ => zip_with cons r (transpose a')
      end
  end.

(** [np.rot90(a, k)], by the four cases of NumPy's implementation
    (counter-clockwise quarter turns). *)
Definition rot90 (a : ndarray) (k : Z) : ndarray :=
  match k mod 4 with
  | 0 => a
  | 1 => transpose (flip1 a)
  | 2 => flip1 (flip0 a)
  | _ => flip1 (transpose a)
  end.

(** [np.array_equal(a, b)]: same shape and equal entries. *)
Fixpoint row_equal (r1 r2 : list Z) : bool :=
  match r1, r2 with
  | [], [] => true
  | v1 :: t1, v2 :: t2 => (v1 =? v2) && row_equal t1 t2
  | _, _ => false
  end.

Fixpoint array_equal (a b : ndarray) : bool :=
  match a, b with
  | [], [] => true
  | r1 :: a', r2 :: b' => row_equal r1 r2 && array_equal a' b'
  | _, _ => false
  end.

End Np.

Import Np.

(** Python's [range(lo, hi)]. *)
Definition range (lo hi : Z) : list Z := seqZ lo (hi - lo).

(** Python's [range(hi - 1, -1, -1)]. *)
Definition range_down (hi : Z) : list Z := rev (range 0 hi).

(** Python's [enumerate]. *)
Definition enumerate {A : Type} (l : list A) : list (Z * A) :=
  zip (range 0 (Z.of_nat (length l))) l.

(** ** Piece library *)

(** [any(np.array_equal(rotated, r) for r in rotations)]. *)
Definition any_equal (rotated : ndarray) (rotations : list ndarray) : bool :=
  existsb (array_equal rotated) rotations.

Definition get_rotations (piece : ndarray) : list ndarray :=
  fold_left
    (fun rotations i =>
       let rotated := rot90 piece i in
       if negb (any_equal rotated rotations)
       then rotations ++ [rotated]
       else rotations)
    (range 0 4) [].

Definition BASE_TETROMINOS : list (string * ndarray) :=
  [ ("I"%string, [[1; 1; 1; 1]]);
    ("O"%string, [[1; 1];
                  [1; 1]]);
    ("T"%string, [[0; 1; 0];
                  [1; 1; 1]]);
    ("L"%string, [[0; 0; 1];
                  [1; 1; 1]]);
    ("J"%string, [[1; 0; 0];
                  [1; 1; 1]]);
    ("S"%string, [[0; 1; 1];
                  [1; 1; 0]]);
    ("Z"%string, [[1; 1; 0];
                  [0; 1; 1]]) ].

(** The dictionary comprehension
    [{ k: get_rotations(shape) for k, shape in BASE_TETROMINOS.items() }]. *)
Definition TETROMINOS : list (string * list ndarray) :=
  map (fun '(k, shape) => (k, get_rotations shape)) BASE_TETROMINOS.

(** Subscript on a string-keyed dictionary. *)
Fixpoint lookup_key {V : Type} (d : list (string * V)) (k : string) : option V :=
  match d with
  | [] => None
  | (k', v) :: d' => if String.eqb k k' then Some v else lookup_key d' k
  end.

(** ** Python integers and NumPy scalars *)

(** An integer value at run time: a Python [int] or a NumPy [int64]
    scalar. *)
Inductive number : Type :=
| PyInt (z : Z)
| Int64 (z : Z).

Definition value (a : number) : Z :=
  match a with
  | PyInt z => z
  | Int64 z => z
  end.

(** Whether [a] is a Python [int]. *)
Definition is_py (a : number) : bool :=
  match a with
  | PyInt _ => true
  | Int64 _ => false
  end.

Definition INT64_MIN : Z := - 2 ^ 63.
Definition INT64_MAX : Z := 2 ^ 63 - 1.

Definition in_int64 (z : Z) : bool := (INT64_MIN <=? z) && (z <=? INT64_MAX).

(** The 64-bit two's-complement integer congruent to [z] modulo [2^64]:
    what an [int64] operation stores when its exact result is [z]. *)
Definition wrap64 (z : Z) : Z := (z - INT64_MIN) mod 2 ^ 64 + INT64_MIN.

(** The [int64] operand that an operation with a NumPy scalar makes of
    [a]; [None] stands for the [OverflowError] raised for a Python
    integer that does not fit. *)
Definition as_int64 (a : number) : option Z :=
  match a with
  | Int64 z => Some z
  | PyInt z => if in_int64 z then Some z else None
  end.

(** A binary arithmetic operation whose exact result is [f x y]. *)
Definition binop (f : Z -> Z -> Z) (a b : number) : option number :=
  match a, b with
  | PyInt x, PyInt y => Some (PyInt (f x y))
  | _, _ =>
      match as_int64 a, as_int64 b with
      | Some x, Some y => Some (Int64 (wrap64 (f x y)))
      | _, _ => None
      end
  end.

(** [a + b], [a * b], and [a // b] for a positive [b]. *)
Definition py_add : number -> number -> option number := binop Z.add.
Definition py_mul : number -> number -> option number := binop Z.mul.
Definition py_floordiv : number -> number -> option number := binop Z.div.

(** The builtin [max(a, b)]: [b] when [b > a], else [a]. *)
Definition py_max (a b : number) : number :=
  if value b >? value a then b else a.

(** ** The solver object and its monad *)

Record TetrisSolver : Type := mkSolver {
  board : ndarray;
  score : number;
  lines_cleared : number;
  level : number
}.

(** [TetrisSolver.__init__]. *)
Definition init : TetrisSolver :=
  {| board := zeros BOARD_HEIGHT BOARD_WIDTH;
     score := PyInt 0;
     lines_cleared := PyInt 0;
     level := PyInt 1 |}.

Definition set_board (b : ndarray) (s : TetrisSolver) : TetrisSolver :=
  {| board := b; score := score s;
     lines_cleared := lines_cleared s; level := level s |}.

Inductive exn : Type := IndexError | KeyError | OverflowError.

(** Outcome of running a method: a value, a propagating exception, or
    exhaustion of the iteration budget of a [while] loop. *)
Inductive result (A : Type) : Type :=
| Ok (a : A)
| Raise (e : exn)
| OutOfFuel.

Arguments Ok {A} a.
Arguments Raise {A} e.
Arguments OutOfFuel {A}.

(** A method body: it receives the object and yields an outcome together
    with the object as it stands at that point. *)
Definition M (A : Type) : Type := TetrisSolver -> result A * TetrisSolver.

Definition ret {A : Type} (a : A) : M A := fun s => (Ok a, s).

Definition raise {A : Type} (e : exn) : M A := fun s => (Raise e, s).

Definition bind {A B : Type} (m : M A) (k : A -> M B) : M B :=
  fun s =>
    match m s with
    | (Ok a, s') => k a s'
    | (Raise e, s') => (Raise e, s')
    | (OutOfFuel, s') => (OutOfFuel, s')
    end.

Notation "'do' x <- m ; k" := (bind m (fun x => k))
  (at level 10, x pattern, m at level 100, k at level 200, only parsing).

(** An indexing operation that may raise [IndexError]. *)
Definition index {A : Type} (o : option A) : M A :=
  match o with
  | Some a => ret a
  | None => raise IndexError
  end.

(** Reading and rebinding [self.board]. *)
Definition get_board : M ndarray := fun s => (Ok (board s), s).
Definition put_board (b : ndarray) : M unit := fun s => (Ok tt, set_board b s).

(** [self.board[i, j]] and [self.board[i, j] = v]. *)
Definition board_get (i j : Z) : M Z :=
  do b <- get_board; index (getitem b i j).

Definition board_set (i j v : Z) : M unit :=
  do b <- get_board;
  do b' <- index (setitem b i j v);
  put_board b'.

(** A [for] loop whose body may [return]: [Some v] leaves the enclosing
    function with [v], [None] goes on with the next element. *)
Fixpoint for_return {A R : Type} (l : list A) (body : A -> M (option R))
  : M (option R) :=
  match l with
  | [] => ret None
  | a :: l' =>
      do r <- body a;
      match r with
      | Some v => ret (Some v)
      | None => for_return l' body
      end
  end.

(** A [for] loop threading the local variables [acc] through its body. *)
Fixpoint for_fold {A S : Type} (l : list A) (body : S -> A -> M S) (acc : S)
  : M S :=
  match l with
  | [] => ret acc
  | a :: l' => do acc' <- body acc a; for_fold l' body acc'
  end.

(** A [for] loop executed for its effect only. *)
Definition for_each {A : Type} (l : list A) (body : A -> M unit) : M unit :=
  for_fold l (fun _ a => body a) tt.

(** ** Methods of [TetrisSolver] *)

Definition can_place (piece : ndarray) (x y : Z) : M bool :=
  let '(piece_h, piece_w) := shape piece in
  if (y <? 0) || (y + piece_w >? BOARD_WIDTH) then ret false
  else if x + piece_h >? BOARD_HEIGHT then ret false
  else
    do r <- for_return (range 0 piece_h) (fun i =>
              for_return (range 0 piece_w) (fun j =>
                do p <- index (getitem piece i j);
                if p =? 1 then
                  do c <- board_get (x + i) (y + j);
                  if c =? 1 then ret (Some false) else ret None
                else ret None));
    match r with
    | Some v => ret v
    | None => ret true
    end.

Definition place_piece (piece : ndarray) (x y : Z) : M bool :=
  do ok <- can_place piece x y;
  if negb ok then ret false
  else
    let '(piece_h, piece_w) := shape piece in
    do _ <- for_each (range 0 piece_h) (fun i =>
              for_each (range 0 piece_w) (fun j =>
                do p <- index (getitem piece i j);
                if p =? 1 then board_set (x + i) (y + j) 1
                else ret tt));
    ret true.

(** Updates of the three counters. *)
Definition get_lines_cleared : M number :=
  fun s => (Ok (lines_cleared s), s).
Definition get_level : M number := fun s => (Ok (level s), s).
Definition get_score : M number := fun s => (Ok (score s), s).

Definition put_lines_cleared (v : number) : M unit :=
  fun s => (Ok tt, {| board := board s; score := score s;
                      lines_cleared := v; level := level s |}).

Definition put_level (v : number) : M unit :=
  fun s => (Ok tt, {| board := board s; score := score s;
                      lines_cleared := lines_cleared s; level := v |}).

Definition put_score (v : number) : M unit :=
  fun s => (Ok tt, {| board := board s; score := v;
                      lines_cleared := lines_cleared s; level := level s |}).

(** A dictionary subscript that may raise [KeyError]. *)
Definition key {A : Type} (o : option A) : M A :=
  match o with
  | Some a => ret a
  | None => raise KeyError
  end.

(** An arithmetic operation that may raise [OverflowError]. *)
Definition arith {A : Type} (o : option A) : M A :=
  match o with
  | Some a => ret a
  | None => raise OverflowError
  end.

(** [num_cleared] is the value of the [int64] that [np.sum] returns, a
    number of rows; it enters the counters as [Int64 num_cleared]. *)
Definition clear_lines : M Z :=
  do b <- get_board;
  let full_rows := all_eq1_axis1 b in
  let num_cleared := sum_bool full_rows in
  if num_cleared >? 0 then
    let new_board := zeros_like b in
    let new_idx := BOARD_HEIGHT - 1 in
    do st <- for_fold (range_down BOARD_HEIGHT)
               (fun '(new_board, new_idx) idx =>
                  do full <- index (getitem1 full_rows idx);
                  if negb full then
                    do b <- get_board;
                    do row <- index (getitem1 b idx);
                    do new_board' <- index (setrow new_board new_idx row);
                    ret (new_board', new_idx - 1)
                  else ret (new_board, new_idx))
               (new_board, new_idx);
    do _ <- put_board (fst st);
    do lc <- get_lines_cleared;
    do lc' <- arith (py_add lc (Int64 num_cleared));
    do _ <- put_lines_cleared lc';
    do lc <- get_lines_cleared;
    do q <- arith (py_floordiv lc (PyInt 10));
    do v <- arith (py_add q (PyInt 1));
    do _ <- put_level (py_max (PyInt 1) v);
    if (1 <=? num_cleared) && (num_cleared <=? 4) then
      do base <- key (dict_get LINE_CLEAR_POINTS num_cleared);
      do lv <- get_level;
      do points <- arith (py_mul (PyInt base) lv);
      do sc <- get_score;
      do sc' <- arith (py_add sc points);
      do _ <- put_score sc';
      ret num_cleared
    else
      do lv <- get_level;
      do p <- arith (py_mul (PyInt 1000) lv);
      do p' <- arith (py_mul p (Int64 num_cleared));
      do points <- arith (py_floordiv p' (PyInt 4));
      do sc <- get_score;
      do sc' <- arith (py_add sc points);
      do _ <- put_score sc';
      ret num_cleared
  else ret num_cleared.

Definition evaluate_board : M Z :=
  do b <- get_board;
  let full_rows := all_eq1_axis1 b in
  let lines_cleared := sum_bool full_rows in
  do st <- for_fold (range 0 BOARD_WIDTH)
             (fun '(column_heights, holes) col =>
                do b <- get_board;
                do column <- index (getcol b col);
                let filled := where_eq1 column in
                if Z.of_nat (length filled) >? 0 then
                  do top <- index (getitem1 filled 0);
                  let height := BOARD_HEIGHT - top in
                  do n <- for_fold (range (top + 1) BOARD_HEIGHT)
                            (fun n row =>
                               do c <- board_get row col;
                               if c =? 0 then ret (n + 1) else ret n)
                            0;
                  ret (column_heights ++ [height], holes + n)
                else ret (column_heights ++ [0], holes))
             ([], 0);
  let '(column_heights, holes) := st in
  do bumpiness <- for_fold (range 0 (Z.of_nat (length column_heights) - 1))
                    (fun acc i =>
                       do h <- index (getitem1 column_heights i);
                       do h' <- index (getitem1 column_heights (i + 1));
                       ret (acc + Z.abs (h - h')))
                    0;
  let agg_height := fold_left Z.add column_heights 0 in
  ret (lines_cleared * 500
       + (4 - lines_cleared) * -50
       + holes * -50
       + bumpiness * -10
       + agg_height * -1).

(** The value of [best_score]: [-np.inf] until a candidate is found, an
    integer afterwards. *)
Inductive score_t : Type :=
| NegInf
| Finite (z : Z).

(** [score > best_score]. *)
Definition score_gt (sc : Z) (best : score_t) : bool :=
  match best with
  | NegInf => true
  | Finite b => sc >? b
  end.

(** [while self.can_place(piece, x + 1, y): x += 1], returning the final
    [x]; [fuel] bounds the number of evaluations of the loop condition. *)
Fixpoint gravity (fuel : nat) (piece : ndarray) (x y : Z) : M Z :=
  match fuel with
  | O => fun s => (OutOfFuel, s)
  | S fuel' =>
      do ok <- can_place piece (x + 1) y;
      if ok then gravity fuel' piece (x + 1) y else ret x
  end.

Definition move : Type := Z * Z * Z.

Definition best_move_fuel (fuel : nat) (rotations : list ndarray)
  : M (option move * score_t) :=
  for_fold (enumerate rotations)
    (fun acc '(r_idx, piece) =>
       let '(piece_h, piece_w) := shape piece in
       for_fold (range 0 (BOARD_WIDTH - piece_w + 1))
         (fun '(best_move, best_score) y =>
            let x := 0 in
            do ok <- can_place piece x y;
            if negb ok then ret (best_move, best_score)
            else
              do x <- gravity fuel piece x y;
              do backup_board <- get_board;
              do _ <- place_piece piece x y;
              do score <- evaluate_board;
              do _ <- put_board backup_board;
              if score_gt score best_score
              then ret (Some (x, y, r_idx), Finite score)
              else ret (best_move, best_score))
         acc)
    (None, NegInf).

(** The loop condition fails as soon as [x + 1 + piece_h > BOARD_HEIGHT],
    so [BOARD_HEIGHT + 1] evaluations always suffice (see
    [gravity_fuel_enough]). *)
Definition best_move (rotations : list ndarray) : M (option move * score_t) :=
  best_move_fuel (S (Z.to_nat BOARD_HEIGHT)) rotations.

(** [drop_piece]. *)
Definition drop_piece (piece : ndarray) (y_pos : Z) : M bool :=
  do x <- gravity (S (Z.to_nat BOARD_HEIGHT)) piece 0 y_pos;
  place_piece piece x y_pos.

(** [game_over]: [TETROMINOS.values()] lists the rotation lists in the
    order of the dictionary. *)
Definition game_over : M bool :=
  do r <- for_return (map snd TETROMINOS) (fun rotations =>
            for_return rotations (fun piece =>
              for_return (range 0 (BOARD_WIDTH - snd (shape piece) + 1))
                (fun y =>
                   do ok <- can_place piece 0 y;
                   if ok then ret (Some false) else ret None)));
  match r with
  | Some v => ret v
  | None => ret true
  end.

(** ** The game loop *)

(** [list(TETROMINOS.keys())]. *)
Definition piece_types : list string := map fst TETROMINOS.

(** The [while] loop of [run_game], without its console output and its
    pause.  [choice t] is the value that [random.choice(piece_types)]
    returns in the iteration that starts with [turn = t]; [fuel] bounds
    the number of evaluations of the loop condition.  The result is the
    final value of [turn]. *)
Fixpoint game_loop (fuel : nat) (max_turns : Z) (choice : nat -> string)
    (turn : Z) : M Z :=
  match fuel with
  | O => fun s => (OutOfFuel, s)
  | S fuel' =>
      if turn <? max_turns then
        do over <- game_over;
        if negb over then
          let piece_type := choice (Z.to_nat turn) in
          do rotations <- key (lookup_key TETROMINOS piece_type);
          do res <- best_move rotations;
          match fst res with
          | Some (best_x, best_y, best_r_idx) =>
              do chosen_piece <- index (getitem1 rotations best_r_idx);
              do _ <- place_piece chosen_piece best_x best_y;
              do _ <- clear_lines;
              do sc <- get_score;
              do sc' <- arith (py_add sc (PyInt 10));
              do _ <- put_score sc';
              game_loop fuel' max_turns choice (turn + 1)
          | None => ret turn
          end
        else ret turn
      else ret turn
  end.

(** [run_game]: a fresh solver, then the loop from [turn = 0].  Every
    iteration that does not leave the loop increments [turn], so
    [max_turns + 1] evaluations of the condition suffice. *)
Definition run_game (max_turns : Z) (choice : nat -> string)
  : result Z * TetrisSolver :=
  game_loop (S (Z.to_nat max_turns)) max_turns choice 0 init.

(** * Specification vocabulary *)

(** The board has the shape fixed by [__init__]. *)
Definition wf_board (b : ndarray) : bool :=
  (Z.of_nat (nrows b) =? BOARD_HEIGHT)
  && forallb (fun r => Z.of_nat (length r) =? BOARD_WIDTH) b.

(** The entry at row [i], column [j], counted from the top-left corner;
    [0] outside the array. *)
Definition cell (a : ndarray) (i j : Z) : Z :=
  if (0 <=? i) && (0 <=? j)
  then default 0 (row ← a !! Z.to_nat i; row !! Z.to_nat j)
  else 0.

(** The bounding box of [piece], with its top-left corner at row [x] and
    column [y], lies within the board. *)
Definition box_in_bounds (piece : ndarray) (x y : Z) : Prop :=
  0 <= x /\ x + Z.of_nat (nrows piece) <= BOARD_HEIGHT /\
  0 <= y /\ y + Z.of_nat (ncols piece) <= BOARD_WIDTH.

(** Some occupied cell of [piece] lands on an occupied cell of [b]. *)
Definition overlaps (b piece : ndarray) (x y : Z) : Prop :=
  exists i j,
    0 <= i < Z.of_nat (nrows piece) /\ 0 <= j < Z.of_nat (ncols piece) /\
    cell piece i j = 1 /\ cell b (x + i) (y + j) = 1.

(** The board row that the index [k] in [self.board[k, ...]] designates:
    a negative index counts from the bottom row. *)
Definition board_row (k : Z) : Z :=
  if k <? 0 then k + BOARD_HEIGHT else k.

(** The board cell [(r, c)] is one that [place_piece(piece, x, y)] writes:
    it is [self.board[x + i, y + j]] for an occupied cell [(i, j)] of
    [piece]. *)
Definition covered (piece : ndarray) (x y r c : Z) : Prop :=
  exists i j,
    0 <= i < Z.of_nat (nrows piece) /\ 0 <= j < Z.of_nat (ncols piece) /\
    cell piece i j = 1 /\ r = board_row (x + i) /\ c = y + j.

(** *** The evaluator, as the specification words it *)

(** A row is full when every cell in it is occupied. *)
Definition row_full (r : list Z) : bool := forallb (fun v => v =? 1) r.

(** The number of full rows. *)
Definition full_count (b : ndarray) : Z :=
  Z.of_nat (length (List.filter row_full b)).

(** Column [c], from the top row to the bottom row. *)
Definition column (b : ndarray) (c : nat) : list Z :=
  map (fun row => default 0 (row !! c)) b.

(** The row index of the topmost occupied cell of a column, if any. *)
Fixpoint topmost (col : list Z) : option nat :=
  match col with
  | [] => None
  | v :: col' => if v =? 1 then Some O else option_map S (topmost col')
  end.

(** [H] minus the row index of the topmost occupied cell, 0 for an empty
    column. *)
Definition column_height (col : list Z) : Z :=
  match topmost col with
  | Some r => BOARD_HEIGHT - Z.of_nat r
  | None => 0
  end.

(** The number of empty cells strictly below the topmost occupied cell. *)
Definition column_holes (col : list Z) : Z :=
  match topmost col with
  | Some r => Z.of_nat (length (List.filter (fun v => v =? 0) (drop (S r) col)))
  | None => 0
  end.

Definition sumZ (l : list Z) : Z := fold_right Z.add 0 l.

(** The columns of the board, left to right. *)
Definition columns (b : ndarray) : list (list Z) :=
  map (column b) (seq 0 (Z.to_nat BOARD_WIDTH)).

Definition heights (b : ndarray) : list Z := map column_height (columns b).

Definition holes (b : ndarray) : Z := sumZ (map column_holes (columns b)).

(** The sum of the absolute differences of adjacent heights. *)
Fixpoint bumpiness (hs : list Z) : Z :=
  match hs with
  | h1 :: hs' =>
      match hs' with
      | h2 :: _ => Z.abs (h1 - h2) + bumpiness hs'
      | [] => 0
      end
  | [] => 0
  end.

Definition evaluate_reference (b : ndarray) : Z :=
  let f := full_count b in
  f * 500 + (4 - f) * (-50) + holes b * (-50)
  + bumpiness (heights b) * (-10) + sumZ (heights b) * (-1).

(** *** Line clearing, as the specification words it *)

(** An empty row of the board. *)
Definition empty_row : list Z := replicate (Z.to_nat BOARD_WIDTH) 0.

(** The rows that are not full, in their original order. *)
Definition kept_rows (b : ndarray) : list (list Z) :=
  List.filter (fun r => negb (row_full r)) b.

(** The number of occupied cells of the grid. *)
Definition occupied_count (b : ndarray) : Z :=
  sumZ (map (fun r => Z.of_nat (length (List.filter (fun v => v =? 1) r))) b).

(** The table of base points. *)
Definition base_points (n : Z) : Z :=
  match n with
  | 1 => 100
  | 2 => 300
  | 3 => 500
  | 4 => 800
  | _ => 0
  end.

(** The points awarded for [n] cleared rows at level [lv], and the product
    that is computed on the way. *)
Definition points_product (n lv : Z) : Z :=
  if (1 <=? n) && (n <=? 4) then base_points n * lv else 1000 * lv * n.

Definition points_for (n lv : Z) : Z :=
  if (1 <=? n) && (n <=? 4) then base_points n * lv else 1000 * lv * n / 4.

(** *** Rotation lists, as the specification words it *)

(** The four quarter-turn rotations, in the order 0, 90, 180, 270 degrees. *)
Definition quarter_turns (piece : ndarray) : list ndarray :=
  [rot90 piece 0; rot90 piece 1; rot90 piece 2; rot90 piece 3].

(** Drop exact duplicates, keeping the first occurrence of each array. *)
Fixpoint keep_first (l : list ndarray) : list ndarray :=
  match l with
  | [] => []
  | a :: l' => a :: List.filter (fun b => negb (array_equal b a)) (keep_first l')
  end.

(** *** Move search, as the specification words it *)

(** [x] is the row where [piece], entered at the top of column [y], comes
    to rest: every unit step down from row 0 to row [x] is accepted by
    [can_place] and the step to row [x + 1] is not. *)
Definition resting_row (s : TetrisSolver) (piece : ndarray) (y x : Z) : Prop :=
  0 <= x /\
  (forall k, 0 <= k < x -> fst (can_place piece (k + 1) y s) = Ok true) /\
  fst (can_place piece (x + 1) y s) = Ok false.

(** Column [y] yields a candidate for [piece]: the piece can enter at the
    top row, rests at row [x], and the board with the piece placed there
    evaluates to [v]. *)
Definition candidate (s : TetrisSolver) (piece : ndarray) (y x v : Z) : Prop :=
  0 <= y <= BOARD_WIDTH - Z.of_nat (ncols piece) /\
  fst (can_place piece 0 y s) = Ok true /\
  resting_row s piece y x /\
  exists s', place_piece piece x y s = (Ok true, s') /\
             fst (evaluate_board s') = Ok v.

(** Enumeration order: rotation index first, then column. *)
Definition earlier (r y r' y' : Z) : Prop :=
  r < r' \/ (r = r' /\ y < y').

(** [res] is the first-encountered maximum among the candidates at the
    positions satisfying [seen]. *)
Definition best_among (seen : Z -> Z -> Prop) (s : TetrisSolver)
    (rotations : list ndarray) (res : option move * score_t) : Prop :=
  match res with
  | (None, sc) =>
      sc = NegInf /\
      forall r piece y,
        rotations !! r = Some piece -> seen (Z.of_nat r) y ->
        0 <= y <= BOARD_WIDTH - Z.of_nat (ncols piece) ->
        fst (can_place piece 0 y s) = Ok false
  | (Some (x, y, r), sc) =>
      exists piece v,
        sc = Finite v /\ 0 <= r /\ seen r y /\
        rotations !! Z.to_nat r = Some piece /\
        candidate s piece y x v /\
        forall r' piece' y' x' v',
          rotations !! r' = Some piece' -> seen (Z.of_nat r') y' ->
          candidate s piece' y' x' v' ->
          v' <= v /\ (earlier (Z.of_nat r') y' r y -> v' < v)
  end.

(** The result of the whole search. *)
Definition best_of (s : TetrisSolver) (rotations : list ndarray)
    (res : option move * score_t) : Prop :=
  best_among (fun _ _ => True) s rotations res.

(** *** Invariants of the board and of the counters *)

(** Every cell of the grid is 0 (empty) or 1 (occupied). *)
Definition binary_board (b : ndarray) : bool :=
  forallb (forallb (fun v => (v =? 0) || (v =? 1))) b.

(** The values of [lines_cleared] and [score] fit in 64 bits, as those of
    every [int64] do: no conversion to [int64] fails. *)
Definition counters_fit (s : TetrisSolver) : Prop :=
  in_int64 (value (lines_cleared s)) = true /\
  in_int64 (value (score s)) = true.

(** No sum or product that [clear_lines] computes from the counters
    leaves the [int64] range: the values of [lines_cleared] and [score]
    fit, and so do the new [lines_cleared], the product of the award and
    the new [score]. *)
Definition no_wrap (s : TetrisSolver) : Prop :=
  let n := full_count (board s) in
  let l := value (lines_cleared s) + n in
  let lv := Z.max 1 (l / 10 + 1) in
  in_int64 (value (lines_cleared s)) = true /\
  in_int64 l = true /\
  in_int64 (points_product n lv) = true /\
  in_int64 (value (score s)) = true /\
  in_int64 (value (score s) + points_for n lv) = true.

(** [level] is the value derived from [lines_cleared]. *)
Definition level_ok (s : TetrisSolver) : Prop :=
  value (level s) = Z.max 1 (value (lines_cleared s) / 10 + 1).

(** The state of a game after [t] completed turns, as long as no counter
    has wrapped around: the grid has the fixed shape, binary cells and no
    full row; every turn has added four cells and every cleared line has
    removed ten; [level] is derived from [lines_cleared]; the score holds
    at least the 10 points of every turn and 100 points for every cleared
    line, and at most [t * (200 * t + 10010)] points. *)
Definition game_state (t : Z) (s : TetrisSolver) : Prop :=
  wf_board (board s) = true /\
  binary_board (board s) = true /\
  full_count (board s) = 0 /\
  occupied_count (board s) + 10 * value (lines_cleared s) = 4 * t /\
  0 <= value (lines_cleared s) /\
  level_ok s /\
  10 * t + 100 * value (lines_cleared s) <= value (score s) /\
  value (score s) <= t * (200 * t + 10010).

(** What holds of a game after [t] turns however long it lasts: the
    values of [lines_cleared] and [score] fit in 64 bits; and as long as
    the score is still a Python integer fewer than ten lines have been
    cleared, the cells are accounted for, and the score is small. *)
Definition game_safe (t : Z) (s : TetrisSolver) : Prop :=
  wf_board (board s) = true /\
  in_int64 (value (lines_cleared s)) = true /\
  in_int64 (value (score s)) = true /\
  (is_py (score s) = true ->
   0 <= value (lines_cleared s) <= 9 /\
   occupied_count (board s) + 10 * value (lines_cleared s) = 4 * t /\
   0 <= value (score s) <= 810 * t).

(** *** Sample states *)

(** A board whose bottom row alone is full, nine lines into the game. *)
Definition bottom_full : TetrisSolver :=
  {| board := replicate 19 empty_row ++ [replicate 10 1];
     score := PyInt 0;
     lines_cleared := PyInt 9;
     level := PyInt 1 |}.

(** A board whose five bottom rows are full, at the start of a game. *)
Definition five_full : TetrisSolver :=
  {| board := replicate 15 empty_row ++ replicate 5 (replicate 10 1);
     score := PyInt 0;
     lines_cleared := PyInt 0;
     level := PyInt 1 |}.

(** A board with a single occupied cell, in the left column one row above
    the bottom: the bottom-left cell is a hole. *)
Definition one_hole : TetrisSolver :=
  {| board := replicate 18 empty_row
              ++ [[1; 0; 0; 0; 0; 0; 0; 0; 0; 0]; empty_row];
     score := PyInt 0;
     lines_cleared := PyInt 0;
     level := PyInt 1 |}.

(** A board whose bottom row alone is full, nine lines into the game,
    with a score 100 points below [2^63]. *)
Definition near_overflow : TetrisSolver :=
  {| board := replicate 19 empty_row ++ [replicate 10 1];
     score := PyInt (2 ^ 63 - 100);
     lines_cleared := Int64 9;
     level := PyInt 1 |}.

(** The same board with a Python integer beyond the [int64] range
    assigned to [score]. *)
Definition beyond_int64 : TetrisSolver :=
  {| board := replicate 19 empty_row ++ [replicate 10 1];
     score := PyInt (2 ^ 64);
     lines_cleared := PyInt 9;
     level := PyInt 1 |}.

(** *** Notions used by the proofs *)

(** The update of the counters in [clear_lines], for [num_cleared] rows,
    followed by its [return]. *)
Definition update_counters (num_cleared : Z) : M Z :=
  do lc <- get_lines_cleared;
  do lc' <- arith (py_add lc (Int64 num_cleared));
  do _ <- put_lines_cleared lc';
  do lc <- get_lines_cleared;
  do q <- arith (py_floordiv lc (PyInt 10));
  do v <- arith (py_add q (PyInt 1));
  do _ <- put_level (py_max (PyInt 1) v);
  if (1 <=? num_cleared) && (num_cleared <=? 4) then
    do base <- key (dict_get LINE_CLEAR_POINTS num_cleared);
    do lv <- get_level;
    do points <- arith (py_mul (PyInt base) lv);
    do sc <- get_score;
    do sc' <- arith (py_add sc points);
    do _ <- put_score sc';
    ret num_cleared
  else
    do lv <- get_level;
    do p <- arith (py_mul (PyInt 1000) lv);
    do p' <- arith (py_mul p (Int64 num_cleared));
    do points <- arith (py_floordiv p' (PyInt 4));
    do sc <- get_score;
    do sc' <- arith (py_add sc points);
    do _ <- put_score sc';
    ret num_cleared.

(** What one iteration of the innermost loop of [game_over] decides. *)
Definition enter_test (s : TetrisSolver) (piece : ndarray) (y : Z)
  : option bool :=
  match fst (can_place piece 0 y s) with
  | Ok true => Some false
  | _ => None
  end.

(** The number of entries equal to 1 in a row. *)
Definition ones (row : list Z) : Z :=
  Z.of_nat (length (List.filter (fun v => v =? 1) row)).

(** The number of occupied piece cells met by the loops of [place_piece]
    before they reach row [ki], column [kj]. *)
Definition scanned (piece : ndarray) (ki kj : Z) : Z :=
  occupied_count (take (Z.to_nat ki) piece)
  + ones (take (Z.to_nat kj) (default [] (piece !! Z.to_nat ki))).

(** [a] has [h] rows of [w] entries each. *)
Definition dims (a : ndarray) (h w : nat) : Prop :=
  length a = h /\ Forall (fun r => length r = w) a.

(** The entry at row [i] and column [j], if there is one. *)
Definition entry (a : ndarray) (i j : nat) : option Z :=
  row ← a !! i; row !! j.

(** A computation that leaves the object as it found it, whatever its
    outcome. *)
Definition read_only {A : Type} (m : M A) : Prop :=
  forall s, snd (m s) = s.

(** The first [Some] among the values of [g] along [l]. *)
Fixpoint first_some {A R : Type} (g : A -> option R) (l : list A) : option R :=
  match l with
  | [] => None
  | a :: l' =>
      match g a with
      | Some v => Some v
      | None => first_some g l'
      end
  end.

(** What one iteration of the inner loop of [can_place] decides. *)
Definition collides (b piece : ndarray) (x y i j : Z) : option bool :=
  if (cell piece i j =? 1) && (cell b (x + i) (y + j) =? 1)
  then Some false else None.

(** The cells written once the rows before [ki] and, in row [ki], the
    columns before [kj] have been processed. *)
Definition covered_upto (piece : ndarray) (x y ki kj r c : Z) : Prop :=
  exists i j,
    (i < ki \/ (i = ki /\ j < kj)) /\
    0 <= i < Z.of_nat (nrows piece) /\ 0 <= j < Z.of_nat (ncols piece) /\
    cell piece i j = 1 /\ r = board_row (x + i) /\ c = y + j.

(** [b'] is [b] with the cells satisfying [P] set to 1. *)
Definition painted (P : Z -> Z -> Prop) (b b' : ndarray) : Prop :=
  forall r c, (P r c -> cell b' r c = 1) /\ (~ P r c -> cell b' r c = cell b r c).

(** The body of the inner loop of [best_move], for rotation [r_idx]. *)
Definition try_column (fuel : nat) (r_idx : Z) (piece : ndarray)
  : option move * score_t -> Z -> M (option move * score_t) :=
  fun '(best_move, best_score) y =>
    let x := 0 in
    do ok <- can_place piece x y;
    if negb ok then ret (best_move, best_score)
    else
      do x <- gravity fuel piece x y;
      do backup_board <- get_board;
      do _ <- place_piece piece x y;
      do score <- evaluate_board;
      do _ <- put_board backup_board;
      if score_gt score best_score
      then ret (Some (x, y, r_idx), Finite score)
      else ret (best_move, best_score).

(** * Properties *)

(** ** Running monadic code *)

Section Run.

Context {A B : Type}.

Lemma bind_ok (m : M A) (k : A -> M B) s a s' :
  m s = (Ok a, s') -> bind m k s = k a s'.
Proof. intros H. unfold bind. now rewrite H. Qed.

Lemma bind_inv_ok (m : M A) (k : A -> M B) s b s2 :
  bind m k s = (Ok b, s2) ->
  exists a s1, m s = (Ok a, s1) /\ k a s1 = (Ok b, s2).
Proof.
  unfold bind. destruct (m s) as [[a|e|] s1]; intros H; try discriminate.
  eauto.
Qed.

End Run.

Lemma read_only_ret {A : Type} (a : A) : read_only (ret a).
Proof. now intros s. Qed.

Lemma read_only_raise {A : Type} e : read_only (@raise A e).
Proof. now intros s. Qed.

Lemma read_only_index {A : Type} (o : option A) : read_only (index o).
Proof. destruct o; [apply read_only_ret | apply read_only_raise]. Qed.

Lemma read_only_get_board : read_only get_board.
Proof. now intros s. Qed.

Lemma read_only_bind {A B : Type} (m : M A) (k : A -> M B) :
  read_only m -> (forall a, read_only (k a)) -> read_only (bind m k).
Proof.
  intros Hm Hk s. unfold bind. specialize (Hm s).
  destruct (m s) as [[a|e|] s1]; simpl in *; subst; trivial. apply Hk.
Qed.

Lemma read_only_board_get i j : read_only (board_get i j).
Proof.
  apply read_only_bind; [apply read_only_get_board|].
  intros b. apply read_only_index.
Qed.

Lemma read_only_for_return {A R : Type} (l : list A) (body : A -> M (option R)) :
  (forall a, read_only (body a)) -> read_only (for_return l body).
Proof.
  intros Hb. induction l as [|a l IH]; simpl.
  - apply read_only_ret.
  - apply read_only_bind; [apply Hb|].
    intros [v|]; [apply read_only_ret | apply IH].
Qed.

Lemma read_only_run {A : Type} (m : M A) s r s' :
  read_only m -> m s = (r, s') -> s' = s.
Proof. intros Hm H. specialize (Hm s). rewrite H in Hm. exact Hm. Qed.

(** Outcome of a [for ... return] loop over read-only bodies: either no
    body returned, or some body returned the value. *)
Lemma for_return_inv {A R : Type} (l : list A) (body : A -> M (option R)) s r s' :
  (forall a, read_only (body a)) ->
  for_return l body s = (Ok r, s') ->
  s' = s /\
  ((r = None /\ forall a, a ∈ l -> body a s = (Ok None, s)) \/
   (exists v a, r = Some v /\ a ∈ l /\ body a s = (Ok (Some v), s))).
Proof.
  intros Hb. induction l as [|a l IH]; simpl; intros H.
  - inversion H; subst. split; [easy|]. left. split; [easy|].
    intros a Ha. inversion Ha.
  - apply bind_inv_ok in H as (r1 & s1 & H1 & H2).
    assert (s1 = s) by (eapply read_only_run; eauto). subst s1.
    destruct r1 as [v|].
    + inversion H2; subst. split; [easy|]. right.
      exists v, a. split; [easy|]. split; [left|easy].
    + apply IH in H2 as [-> [[-> Hall]|(v & a' & -> & Hin & Hv)]].
      * split; [easy|]. left. split; [easy|].
        intros a' Ha'. inversion Ha'; subst; auto.
      * split; [easy|]. right. exists v, a'. split; [easy|].
        split; [now right|easy].
Qed.

Lemma for_return_first_some {A R : Type} (l : list A)
    (body : A -> M (option R)) (g : A -> option R) s :
  (forall a, a ∈ l -> body a s = (Ok (g a), s)) ->
  for_return l body s = (Ok (first_some g l), s).
Proof.
  induction l as [|a l IH]; intros Hb; simpl; [easy|].
  rewrite (bind_ok _ _ s (g a) s) by (apply Hb; left).
  destruct (g a); [easy|]. apply IH. intros a' Ha'. apply Hb. now right.
Qed.

Lemma first_some_None {A R : Type} (g : A -> option R) l :
  first_some g l = None <-> forall a, a ∈ l -> g a = None.
Proof.
  induction l as [|a l IH]; simpl.
  - split; [|easy]. intros _ a Ha. inversion Ha.
  - destruct (g a) eqn:E.
    + split; [easy|]. intros H. rewrite (H a) in E by left. discriminate.
    + rewrite IH. split.
      * intros H a' Ha'. inversion Ha'; subst; auto.
      * intros H a' Ha'. apply H. now right.
Qed.

Lemma first_some_Some {A R : Type} (g : A -> option R) l v :
  first_some g l = Some v -> exists a, a ∈ l /\ g a = Some v.
Proof.
  induction l as [|a l IH]; simpl; [easy|].
  destruct (g a) eqn:E.
  - intros [= ->]. exists a. split; [left|easy].
  - intros H. destruct (IH H) as (a' & Ha' & Hv). exists a'.
    split; [now right|easy].
Qed.

(** ** Loop rules for [for] loops over ranges *)

Lemma range_nil lo hi : hi <= lo -> range lo hi = [].
Proof.
  intros H. unfold range, seqZ.
  replace (Z.to_nat (hi - lo)) with O by lia. reflexivity.
Qed.

Lemma range_cons lo hi : lo < hi -> range lo hi = lo :: range (lo + 1) hi.
Proof.
  intros H. unfold range. rewrite seqZ_cons by lia.
  f_equal. f_equal; lia.
Qed.

Lemma range_snoc lo hi : lo < hi -> range lo hi = range lo (hi - 1) ++ [hi - 1].
Proof.
  intros H. unfold range.
  replace (hi - lo) with (Z.of_nat (S (Z.to_nat (hi - 1 - lo)))) by lia.
  rewrite seqZ_S. f_equal; [f_equal; lia|]. f_equal. lia.
Qed.

Lemma elem_of_range lo hi k : k ∈ range lo hi <-> lo <= k < hi.
Proof. unfold range. rewrite elem_of_seqZ. lia. Qed.

(** Ascending loop: the invariant [I k] holds before the iteration for
    [k], and [I hi] at the end. *)
Lemma for_fold_range {St : Type} (I : Z -> St -> TetrisSolver -> Prop)
    lo hi (body : St -> Z -> M St) acc s :
  lo <= hi ->
  I lo acc s ->
  (forall k acc s, lo <= k < hi -> I k acc s ->
     exists acc' s', body acc k s = (Ok acc', s') /\ I (k + 1) acc' s') ->
  exists acc' s', for_fold (range lo hi) body acc s = (Ok acc', s') /\ I hi acc' s'.
Proof.
  intros Hle H0 Hstep.
  remember (Z.to_nat (hi - lo)) as n eqn:Hn.
  revert lo acc s Hle H0 Hstep Hn. induction n as [|n IH]; intros.
  - assert (lo = hi) by lia. subst. rewrite range_nil by lia. simpl.
    eauto.
  - rewrite range_cons by lia. simpl.
    destruct (Hstep lo acc s) as (acc1 & s1 & Hb & HI); [lia|easy|].
    rewrite (bind_ok _ _ _ _ _ Hb).
    apply IH; [lia|easy| |lia].
    intros k acc2 s2 Hk. apply Hstep. lia.
Qed.

(** Descending loop [for idx in range(hi - 1, -1, -1)]: [I k] states that
    the indices [k, ..., hi - 1] have been processed. *)
Lemma for_fold_range_down {St : Type} (I : Z -> St -> TetrisSolver -> Prop)
    hi (body : St -> Z -> M St) acc s :
  0 <= hi ->
  I hi acc s ->
  (forall k acc s, 0 <= k < hi -> I (k + 1) acc s ->
     exists acc' s', body acc k s = (Ok acc', s') /\ I k acc' s') ->
  exists acc' s', for_fold (range_down hi) body acc s = (Ok acc', s') /\ I 0 acc' s'.
Proof.
  intros Hle H0 Hstep.
  remember (Z.to_nat hi) as n eqn:Hn.
  revert hi acc s Hle H0 Hstep Hn. induction n as [|n IH]; intros.
  - assert (hi = 0) by lia. subst. unfold range_down. rewrite range_nil by lia.
    simpl. eauto.
  - unfold range_down. rewrite range_snoc by lia.
    rewrite rev_app_distr. simpl.
    destruct (Hstep (hi - 1) acc s) as (acc1 & s1 & Hb & HI);
      [lia|now replace (hi - 1 + 1) with hi by lia|].
    rewrite (bind_ok _ _ _ _ _ Hb).
    apply (IH (hi - 1)); [lia|easy| |lia].
    intros k acc2 s2 Hk. apply Hstep. lia.
Qed.

(** Loop over [enumerate l]: the body for index [k] receives [l[k]]. *)
Lemma for_fold_enumerate {A St : Type} (I : Z -> St -> TetrisSolver -> Prop)
    (l : list A) (body : St -> Z * A -> M St) acc s :
  I 0 acc s ->
  (forall k a acc s, l !! k = Some a -> I (Z.of_nat k) acc s ->
     exists acc' s', body acc (Z.of_nat k, a) s = (Ok acc', s')
                     /\ I (Z.of_nat k + 1) acc' s') ->
  exists acc' s',
    for_fold (enumerate l) body acc s = (Ok acc', s')
    /\ I (Z.of_nat (length l)) acc' s'.
Proof.
  unfold enumerate.
  assert (G : forall (l : list A) (base : nat) acc s,
    I (Z.of_nat base) acc s ->
    (forall k a acc s, l !! k = Some a -> I (Z.of_nat (base + k)) acc s ->
       exists acc' s', body acc (Z.of_nat (base + k), a) s = (Ok acc', s')
                       /\ I (Z.of_nat (base + k) + 1) acc' s') ->
    exists acc' s',
      for_fold (zip (seqZ (Z.of_nat base) (Z.of_nat (length l))) l) body acc s
      = (Ok acc', s')
      /\ I (Z.of_nat (base + length l)) acc' s').
  { clear l acc s. induction l as [|a l IH]; intros base acc s H0 Hstep.
    - simpl. rewrite Nat.add_0_r. eauto.
    - rewrite seqZ_cons by (simpl; lia). cbn [zip zip_with for_fold].
      destruct (Hstep O a acc s) as (acc1 & s1 & Hb & HI);
        [easy|now rewrite Nat.add_0_r|].
      rewrite Nat.add_0_r in Hb, HI.
      rewrite (bind_ok _ _ _ _ _ Hb).
      replace (Z.succ (Z.of_nat base)) with (Z.of_nat (S base)) by lia.
      replace (Z.pred (Z.of_nat (length (a :: l)))) with (Z.of_nat (length l))
        by (simpl; lia).
      replace (base + length (a :: l))%nat with (S base + length l)%nat
        by (simpl; lia).
      apply (IH (S base)).
      + now replace (Z.of_nat (S base)) with (Z.of_nat base + 1) by lia.
      + intros k a' acc2 s2 Hk.
        replace (S base + k)%nat with (base + S k)%nat by lia.
        apply Hstep. exact Hk. }
  intros H0 Hstep.
  destruct (G l O acc s) as (acc' & s' & Hr & HI); [easy| |].
  - intros k a acc1 s1 Hk. simpl. apply Hstep. exact Hk.
  - unfold range. rewrite Z.sub_0_r. simpl in Hr, HI. eauto.
Qed.

(** ** Arrays *)

(** Linear arithmetic with the board dimensions as numerals. *)
Ltac blia := unfold BOARD_HEIGHT, BOARD_WIDTH in *; lia.

Lemma norm_index_nonneg n i :
  0 <= i < Z.of_nat n -> norm_index n i = Some (Z.to_nat i).
Proof.
  intros H. unfold norm_index.
  destruct (Z.leb_spec 0 i), (Z.ltb_spec i (Z.of_nat n)); simpl; trivial; lia.
Qed.

Lemma norm_index_Some n i k :
  norm_index n i = Some k ->
  (k < n)%nat /\
  ((0 <= i /\ Z.of_nat k = i) \/ (i < 0 /\ Z.of_nat k = i + Z.of_nat n)).
Proof.
  unfold norm_index.
  destruct (Z.leb_spec 0 i), (Z.ltb_spec i (Z.of_nat n)); simpl;
    try (intros [= <-]; lia).
  all: destruct (Z.leb_spec (- Z.of_nat n) i), (Z.ltb_spec i 0); simpl;
    try discriminate; intros [= <-]; lia.
Qed.

Lemma rect_rows a r row :
  rect a = true -> a !! r = Some row -> length row = ncols a.
Proof.
  unfold rect. intros H Hr. rewrite forallb_forall in H.
  apply Nat.eqb_eq. apply H. apply list_elem_of_In.
  eapply list_elem_of_lookup_2. exact Hr.
Qed.

Lemma getitem_rect a i j :
  rect a = true ->
  0 <= i < Z.of_nat (nrows a) -> 0 <= j < Z.of_nat (ncols a) ->
  getitem a i j = Some (cell a i j).
Proof.
  intros Hrect Hi Hj. unfold getitem, cell.
  rewrite !norm_index_nonneg by lia. simpl.
  destruct (Z.leb_spec 0 i); [|lia]. destruct (Z.leb_spec 0 j); [|lia]. simpl.
  destruct (a !! Z.to_nat i) as [row|] eqn:E.
  - simpl. pose proof (rect_rows _ _ _ Hrect E) as Hlen.
    destruct (row !! Z.to_nat j) eqn:E2; [easy|].
    apply lookup_ge_None in E2. lia.
  - apply lookup_ge_None in E. unfold nrows in Hi. lia.
Qed.

Lemma wf_board_nrows b : wf_board b = true -> nrows b = Z.to_nat BOARD_HEIGHT.
Proof.
  unfold wf_board. intros H. apply andb_true_iff in H as [H _].
  apply Z.eqb_eq in H. lia.
Qed.

Lemma wf_board_row b r row :
  wf_board b = true -> b !! r = Some row -> length row = Z.to_nat BOARD_WIDTH.
Proof.
  unfold wf_board. intros H Hr. apply andb_true_iff in H as [_ H].
  rewrite forallb_forall in H.
  assert (Hin : In row b).
  { apply list_elem_of_In. eapply list_elem_of_lookup_2. exact Hr. }
  apply H in Hin. apply Z.eqb_eq in Hin. lia.
Qed.

Lemma wf_board_ncols b : wf_board b = true -> ncols b = Z.to_nat BOARD_WIDTH.
Proof.
  intros H. pose proof (wf_board_nrows _ H) as Hn.
  destruct b as [|row b]; [discriminate|].
  simpl. apply (wf_board_row (row :: b) O); easy.
Qed.

Lemma wf_board_rect b : wf_board b = true -> rect b = true.
Proof.
  intros H. unfold rect. apply forallb_forall. intros row Hin.
  apply list_elem_of_In in Hin. apply list_elem_of_lookup_1 in Hin as [r Hr].
  apply Nat.eqb_eq. rewrite (wf_board_row _ _ _ H Hr).
  now rewrite (wf_board_ncols _ H).
Qed.

Lemma getitem_board b i j :
  wf_board b = true ->
  0 <= i < BOARD_HEIGHT -> 0 <= j < BOARD_WIDTH ->
  getitem b i j = Some (cell b i j).
Proof.
  intros H Hi Hj. apply getitem_rect.
  - now apply wf_board_rect.
  - rewrite (wf_board_nrows _ H). lia.
  - rewrite (wf_board_ncols _ H). lia.
Qed.

Lemma board_get_ok s i j :
  wf_board (board s) = true ->
  0 <= i < BOARD_HEIGHT -> 0 <= j < BOARD_WIDTH ->
  board_get i j s = (Ok (cell (board s) i j), s).
Proof.
  intros H Hi Hj. unfold board_get, bind, get_board.
  now rewrite (getitem_board _ _ _ H Hi Hj).
Qed.

(** ** [can_place] *)

Lemma read_only_can_place piece x y : read_only (can_place piece x y).
Proof.
  unfold can_place. destruct (shape piece) as [h w].
  destruct (_ || _); [apply read_only_ret|].
  destruct (_ >? _); [apply read_only_ret|].
  apply read_only_bind.
  - apply read_only_for_return. intros i.
    apply read_only_for_return. intros j.
    apply read_only_bind; [apply read_only_index|].
    intros p. destruct (p =? 1); [|apply read_only_ret].
    apply read_only_bind; [apply read_only_board_get|].
    intros c. destruct (c =? 1); apply read_only_ret.
  - intros [v|]; apply read_only_ret.
Qed.

Lemma can_place_scan s piece x y :
  wf_board (board s) = true -> rect piece = true ->
  0 <= x -> x + Z.of_nat (nrows piece) <= BOARD_HEIGHT ->
  0 <= y -> y + Z.of_nat (ncols piece) <= BOARD_WIDTH ->
  for_return (range 0 (Z.of_nat (nrows piece))) (fun i =>
    for_return (range 0 (Z.of_nat (ncols piece))) (fun j =>
      do p <- index (getitem piece i j);
      if p =? 1 then
        do c <- board_get (x + i) (y + j);
        if c =? 1 then ret (Some false) else ret None
      else ret None)) s
  = (Ok (first_some (fun i =>
           first_some (collides (board s) piece x y i)
             (range 0 (Z.of_nat (ncols piece))))
         (range 0 (Z.of_nat (nrows piece)))), s).
Proof.
  intros Hwf Hrect Hx Hxh Hy Hyw.
  apply for_return_first_some. intros i Hi. apply elem_of_range in Hi.
  apply for_return_first_some. intros j Hj. apply elem_of_range in Hj.
  rewrite (bind_ok _ _ s (cell piece i j) s).
  2:{ rewrite getitem_rect by (trivial; lia). reflexivity. }
  unfold collides. destruct (cell piece i j =? 1); [|reflexivity]. simpl.
  rewrite (bind_ok _ _ s (cell (board s) (x + i) (y + j)) s).
  2:{ apply board_get_ok; [easy|lia|lia]. }
  now destruct (_ =? 1).
Qed.

Lemma can_place_value s piece x y :
  wf_board (board s) = true -> rect piece = true -> 0 <= x ->
  (can_place piece x y s = (Ok true, s) /\
   box_in_bounds piece x y /\ ~ overlaps (board s) piece x y) \/
  (can_place piece x y s = (Ok false, s) /\
   (~ box_in_bounds piece x y \/ overlaps (board s) piece x y)).
Proof.
  intros Hwf Hrect Hx. unfold can_place, shape.
  destruct (Z.ltb_spec y 0) as [Hy|Hy]; simpl.
  { right. split; [easy|]. left. unfold box_in_bounds. lia. }
  destruct (Z.gtb_spec (y + Z.of_nat (ncols piece)) BOARD_WIDTH) as [Hw|Hw]; simpl.
  { right. split; [easy|]. left. unfold box_in_bounds. lia. }
  destruct (Z.gtb_spec (x + Z.of_nat (nrows piece)) BOARD_HEIGHT) as [Hh|Hh]; simpl.
  { right. split; [easy|]. left. unfold box_in_bounds. lia. }
  rewrite (bind_ok _ _ _ _ _ (can_place_scan s piece x y Hwf Hrect Hx Hh Hy Hw)).
  destruct (first_some _ _) as [v|] eqn:E.
  - apply first_some_Some in E as (i & Hi & E).
    apply first_some_Some in E as (j & Hj & E).
    apply elem_of_range in Hi, Hj. unfold collides in E.
    destruct (Z.eqb_spec (cell piece i j) 1) as [Hp|]; [|discriminate].
    destruct (Z.eqb_spec (cell (board s) (x + i) (y + j)) 1) as [Hc|];
      [|discriminate].
    simpl in E. injection E as <-. right. split; [easy|]. right.
    exists i, j. repeat split; trivial; lia.
  - left. split; [easy|].
    split; [unfold box_in_bounds; lia|].
    intros (i & j & Hi & Hj & Hp & Hc).
    rewrite first_some_None in E.
    assert (Hi' : i ∈ range 0 (Z.of_nat (nrows piece)))
      by (apply elem_of_range; lia).
    assert (Hj' : j ∈ range 0 (Z.of_nat (ncols piece)))
      by (apply elem_of_range; lia).
    specialize (E i Hi'). rewrite first_some_None in E. specialize (E j Hj').
    unfold collides in E. rewrite Hp, Hc in E. discriminate.
Qed.

(** What a successful [can_place] has checked, for any [x]. *)
Lemma can_place_true_inv s piece x y s' :
  rect piece = true ->
  can_place piece x y s = (Ok true, s') ->
  s' = s /\
  0 <= y /\ y + Z.of_nat (ncols piece) <= BOARD_WIDTH /\
  x + Z.of_nat (nrows piece) <= BOARD_HEIGHT /\
  forall i j,
    0 <= i < Z.of_nat (nrows piece) -> 0 <= j < Z.of_nat (ncols piece) ->
    cell piece i j = 1 ->
    exists c, getitem (board s) (x + i) (y + j) = Some c /\ c <> 1.
Proof.
  intros Hrect H.
  assert (s' = s) by (eapply read_only_run; [apply read_only_can_place|eauto]).
  subst s'. split; [easy|]. revert H. unfold can_place, shape.
  destruct (Z.ltb_spec y 0) as [Hy|Hy]; simpl; [discriminate|].
  destruct (Z.gtb_spec (y + Z.of_nat (ncols piece)) BOARD_WIDTH) as [Hw|Hw];
    simpl; [discriminate|].
  destruct (Z.gtb_spec (x + Z.of_nat (nrows piece)) BOARD_HEIGHT) as [Hh|Hh];
    simpl; [discriminate|].
  intros H. apply bind_inv_ok in H as (r & s1 & Hr & Hret).
  assert (Hinner : forall i j, read_only
            (do p <- index (getitem piece i j);
             if p =? 1 then
               do c <- board_get (x + i) (y + j);
               if c =? 1 then ret (Some false) else ret None
             else ret None)).
  { intros i j. apply read_only_bind; [apply read_only_index|].
    intros p. destruct (p =? 1); [|apply read_only_ret].
    apply read_only_bind; [apply read_only_board_get|].
    intros c. destruct (c =? 1); apply read_only_ret. }
  assert (Hbody : forall i j v,
            0 <= i < Z.of_nat (nrows piece) -> 0 <= j < Z.of_nat (ncols piece) ->
            (do p <- index (getitem piece i j);
             if p =? 1 then
               do c <- board_get (x + i) (y + j);
               if c =? 1 then ret (Some false) else ret None
             else ret None) s = (Ok v, s) ->
            v <> Some true /\
            (cell piece i j = 1 -> v = None ->
             exists c, getitem (board s) (x + i) (y + j) = Some c /\ c <> 1)).
  { intros i j v Hi Hj Hv.
    apply bind_inv_ok in Hv as (p & s2 & Hp & Hv).
    rewrite getitem_rect in Hp by (trivial; lia).
    injection Hp as <- <-.
    destruct (Z.eqb_spec (cell piece i j) 1) as [Hocc|Hocc].
    - apply bind_inv_ok in Hv as (c & s2 & Hc & Hv).
      unfold board_get, bind, get_board in Hc.
      destruct (getitem (board s) (x + i) (y + j)) as [c'|] eqn:Hg;
        [|discriminate].
      injection Hc as <- <-.
      destruct (Z.eqb_spec c' 1) as [Hc1|Hc1]; injection Hv as <-.
      + split; [easy|]. intros _ [=].
      + split; [easy|]. intros _ _. now exists c'.
    - injection Hv as <-. split; [easy|]. intros Hocc'. contradiction. }
  apply for_return_inv in Hr as [-> Hr].
  2:{ intros i. apply read_only_for_return. intros j. apply Hinner. }
  destruct Hr as [[-> Hall]|(v & i & -> & Hi & Hv)].
  - repeat split; trivial. intros i j Hi Hj Hocc.
    assert (Hi' : i ∈ range 0 (Z.of_nat (nrows piece)))
      by (apply elem_of_range; lia).
    specialize (Hall i Hi').
    apply for_return_inv in Hall as [_ Hall]; [|apply Hinner].
    destruct Hall as [[_ Hall]|(v & j' & [=] & _)].
    assert (Hj' : j ∈ range 0 (Z.of_nat (ncols piece)))
      by (apply elem_of_range; lia).
    specialize (Hall j Hj').
    now apply (Hbody i j None Hi Hj Hall).
  - exfalso. injection Hret as ->.
    apply for_return_inv in Hv as [_ Hv]; [|apply Hinner].
    destruct Hv as [[[=] _]|(v & j & [= <-] & Hj & Hv)].
    apply elem_of_range in Hi, Hj.
    apply (Hbody i j (Some true)) in Hv as [Hv _]; [congruence|lia|lia].
Qed.

(** ** [place_piece] *)

Lemma wf_board_iff b :
  wf_board b = true <->
  length b = Z.to_nat BOARD_HEIGHT /\
  Forall (fun r => length r = Z.to_nat BOARD_WIDTH) b.
Proof.
  unfold wf_board, nrows. rewrite andb_true_iff, Z.eqb_eq, forallb_forall.
  rewrite Forall_forall. split; intros [H1 H2]; (split; [blia|]).
  - intros r Hr. apply list_elem_of_In in Hr. apply H2 in Hr.
    apply Z.eqb_eq in Hr. blia.
  - intros r Hr. apply list_elem_of_In in Hr. apply H2 in Hr.
    apply Z.eqb_eq. blia.
Qed.

Lemma board_row_range k :
  - BOARD_HEIGHT <= k < BOARD_HEIGHT -> 0 <= board_row k < BOARD_HEIGHT.
Proof. unfold board_row. destruct (Z.ltb_spec k 0); lia. Qed.

Lemma board_row_nonneg k : 0 <= k -> board_row k = k.
Proof. unfold board_row. destruct (Z.ltb_spec k 0); lia. Qed.

Lemma norm_index_board_row k :
  - BOARD_HEIGHT <= k < BOARD_HEIGHT ->
  norm_index (Z.to_nat BOARD_HEIGHT) k = Some (Z.to_nat (board_row k)).
Proof.
  intros H. unfold norm_index, board_row.
  rewrite Z2Nat.id by (unfold BOARD_HEIGHT; lia).
  destruct (Z.leb_spec 0 k), (Z.ltb_spec k BOARD_HEIGHT), (Z.ltb_spec k 0);
    simpl; trivial; try lia.
  destruct (Z.leb_spec (- BOARD_HEIGHT) k); simpl; trivial; lia.
Qed.

Lemma setitem_board b i j v :
  wf_board b = true ->
  - BOARD_HEIGHT <= i < BOARD_HEIGHT -> 0 <= j < BOARD_WIDTH ->
  exists b', setitem b i j v = Some b' /\ wf_board b' = true /\
    forall r c, cell b' r c
                = if (r =? board_row i) && (c =? j) then v else cell b r c.
Proof.
  intros Hwf Hi Hj. pose proof (board_row_range _ Hi) as HR.
  unfold setitem. rewrite (wf_board_nrows _ Hwf), (wf_board_ncols _ Hwf).
  rewrite (norm_index_board_row _ Hi). simpl.
  destruct (b !! Z.to_nat (board_row i)) as [row|] eqn:Erow.
  2:{ apply lookup_ge_None in Erow.
      pose proof (wf_board_nrows _ Hwf) as Hn. unfold nrows in Hn. lia. }
  simpl. rewrite norm_index_nonneg by lia. simpl.
  pose proof (wf_board_row _ _ _ Hwf Erow) as Hlen.
  eexists. split; [reflexivity|]. split.
  - apply wf_board_iff. apply wf_board_iff in Hwf as [Hl Hall]. split.
    + now rewrite length_insert.
    + apply Forall_insert; [easy|]. now rewrite length_insert.
  - intros r c. unfold cell.
    destruct (Z.leb_spec 0 r) as [Hr|Hr]; simpl.
    2:{ destruct (Z.eqb_spec r (board_row i)); [lia|reflexivity]. }
    destruct (Z.leb_spec 0 c) as [Hc|Hc]; simpl.
    2:{ destruct (Z.eqb_spec c j); [lia|]. now rewrite andb_false_r. }
    destruct (Z.eqb_spec r (board_row i)) as [->|Hne]; simpl.
    + rewrite list_lookup_insert_eq by (apply lookup_lt_Some in Erow; lia).
      rewrite Erow. simpl.
      destruct (Z.eqb_spec c j) as [->|Hne].
      * rewrite list_lookup_insert_eq by lia. reflexivity.
      * rewrite list_lookup_insert_ne by lia. reflexivity.
    + rewrite list_lookup_insert_ne by lia. reflexivity.
Qed.

Lemma set_board_set_board b b' s : set_board b (set_board b' s) = set_board b s.
Proof. reflexivity. Qed.

Lemma set_board_same s : set_board (board s) s = s.
Proof. now destruct s. Qed.

Lemma board_set_ok s i j v :
  wf_board (board s) = true ->
  - BOARD_HEIGHT <= i < BOARD_HEIGHT -> 0 <= j < BOARD_WIDTH ->
  exists b', board_set i j v s = (Ok tt, set_board b' s) /\
    wf_board b' = true /\
    forall r c, cell b' r c
                = if (r =? board_row i) && (c =? j) then v else cell (board s) r c.
Proof.
  intros Hwf Hi Hj.
  destruct (setitem_board _ _ _ v Hwf Hi Hj) as (b' & Hset & Hwf' & Hcell).
  exists b'. split; [|easy].
  unfold board_set, bind, get_board. rewrite Hset. reflexivity.
Qed.

Lemma painted_ext (P Q : Z -> Z -> Prop) b b' :
  (forall r c, P r c <-> Q r c) -> painted P b b' -> painted Q b b'.
Proof.
  intros HPQ H r c. destruct (H r c) as [H1 H2]. split.
  - intros HQ. apply H1. now apply HPQ.
  - intros HQ. apply H2. intros HP. apply HQ. now apply HPQ.
Qed.

Lemma place_piece_writes s piece x y :
  wf_board (board s) = true -> rect piece = true ->
  0 <= y -> y + Z.of_nat (ncols piece) <= BOARD_WIDTH ->
  x + Z.of_nat (nrows piece) <= BOARD_HEIGHT ->
  (forall i j,
     0 <= i < Z.of_nat (nrows piece) -> 0 <= j < Z.of_nat (ncols piece) ->
     cell piece i j = 1 -> - BOARD_HEIGHT <= x + i) ->
  exists b',
    for_each (range 0 (Z.of_nat (nrows piece))) (fun i =>
      for_each (range 0 (Z.of_nat (ncols piece))) (fun j =>
        do p <- index (getitem piece i j);
        if p =? 1 then board_set (x + i) (y + j) 1 else ret tt)) s
    = (Ok tt, set_board b' s) /\
    wf_board b' = true /\ painted (covered piece x y) (board s) b'.
Proof.
  intros Hwf Hrect Hy Hw Hh Hlow.
  set (h := Z.of_nat (nrows piece)). set (w := Z.of_nat (ncols piece)).
  set (Inv := fun (ki kj : Z) (_ : unit) (s' : TetrisSolver) =>
    exists b', s' = set_board b' s /\ wf_board b' = true /\
               painted (covered_upto piece x y ki kj) (board s) b').
  assert (Hnext : forall ki r c,
            covered_upto piece x y ki w r c <-> covered_upto piece x y (ki + 1) 0 r c).
  { intros ki r c. unfold covered_upto.
    split; intros (i & j & Hij & Hi & Hj & Hrest); exists i, j;
      (split; [fold w in Hj; lia|easy]). }
  unfold for_each.
  destruct (for_fold_range (fun k => Inv k 0) 0 h
              (fun (_ : unit) i =>
                 for_fold (range 0 w) (fun (_ : unit) j =>
                   do p <- index (getitem piece i j);
                   if p =? 1 then board_set (x + i) (y + j) 1 else ret tt) tt)
              tt s) as ([] & s' & Hrun & b' & -> & Hwf' & Hp).
  - unfold h. lia.
  - exists (board s). split; [now rewrite set_board_same|]. split; [easy|].
    intros r c. split; [|easy].
    intros (i & j & Hij & Hi & Hj & _). lia.
  - intros ki [] s1 Hki HI.
    destruct (for_fold_range (fun k => Inv ki k) 0 w
                (fun (_ : unit) j =>
                   do p <- index (getitem piece ki j);
                   if p =? 1 then board_set (x + ki) (y + j) 1 else ret tt)
                tt s1) as ([] & s2 & Hrun & HI2).
    + unfold w. lia.
    + exact HI.
    + intros kj [] s2 Hkj (b2 & -> & Hwf2 & Hp2).
      rewrite (bind_ok _ _ _ (cell piece ki kj) (set_board b2 s)).
      2:{ rewrite getitem_rect by (trivial; fold h; fold w; lia). reflexivity. }
      destruct (Z.eqb_spec (cell piece ki kj) 1) as [Hocc|Hocc].
      * destruct (board_set_ok (set_board b2 s) (x + ki) (y + kj) 1)
          as (b3 & Hset & Hwf3 & Hcell); [easy| |lia|].
        { specialize (Hlow ki kj Hki Hkj Hocc). fold h in Hh. lia. }
        exists tt, (set_board b3 s). split; [exact Hset|].
        exists b3. split; [easy|]. split; [easy|].
        intros r c. rewrite Hcell. simpl.
        destruct (Z.eqb_spec r (board_row (x + ki))) as [Hr|Hr];
          [destruct (Z.eqb_spec c (y + kj)) as [Hc|Hc]|]; simpl.
        -- split; [easy|]. intros Hn. exfalso. apply Hn.
           exists ki, kj. repeat split; trivial; lia.
        -- destruct (Hp2 r c) as [H1 H2]. split.
           ++ intros (i & j & Hij & Hi & Hj & Ho & Hri & Hcj). apply H1.
              assert (Hij' : i < ki \/ (i = ki /\ j < kj)) by lia.
              exists i, j. repeat split; trivial; lia.
           ++ intros Hn. apply H2. intros (i & j & Hij & Hi & Hj & Hrest).
              apply Hn. exists i, j. split; [|easy]. lia.
        -- destruct (Hp2 r c) as [H1 H2]. split.
           ++ intros (i & j & Hij & Hi & Hj & Ho & Hri & Hcj). apply H1.
              assert (Hij' : i < ki \/ (i = ki /\ j < kj)).
              { destruct Hij as [?|[-> ?]]; [now left|contradiction]. }
              exists i, j. repeat split; trivial; lia.
           ++ intros Hn. apply H2. intros (i & j & Hij & Hi & Hj & Hrest).
              apply Hn. exists i, j. split; [|easy]. lia.
      * exists tt, (set_board b2 s). split; [reflexivity|].
        exists b2. split; [easy|]. split; [easy|].
        intros r c. destruct (Hp2 r c) as [H1 H2]. split.
        -- intros (i & j & Hij & Hi & Hj & Ho & Hri & Hcj). apply H1.
           assert (Hij' : i < ki \/ (i = ki /\ j < kj)).
           { destruct Hij as [?|[-> ?]]; [now left|].
             right. split; [easy|]. assert (j <> kj) by congruence. lia. }
           exists i, j. repeat split; trivial; lia.
        -- intros Hn. apply H2. intros (i & j & Hij & Hi & Hj & Hrest).
           apply Hn. exists i, j. split; [|easy]. lia.
    + exists tt, s2. split; [exact Hrun|].
      destruct HI2 as (b2 & -> & Hwf2 & Hp2).
      exists b2. split; [easy|]. split; [easy|].
      eapply painted_ext; [|exact Hp2]. apply Hnext.
  - exists b'. split; [exact Hrun|]. split; [easy|].
    eapply painted_ext; [|exact Hp].
    intros r c. unfold covered_upto, covered.
    split; intros (i & j & H); exists i, j.
    + tauto.
    + fold h. split; [lia|tauto].
Qed.

Lemma getitem_Some_row (a : ndarray) i j v :
  getitem a i j = Some v -> - Z.of_nat (nrows a) <= i < Z.of_nat (nrows a).
Proof.
  unfold getitem. destruct (norm_index (nrows a) i) as [k|] eqn:E; [|easy].
  intros _. apply norm_index_Some in E. lia.
Qed.

Lemma place_piece_false s piece x y :
  fst (can_place piece x y s) = Ok false ->
  place_piece piece x y s = (Ok false, s).
Proof.
  destruct (can_place piece x y s) as [r s'] eqn:E. simpl. intros ->.
  assert (s' = s) by (eapply read_only_run; [apply read_only_can_place|eauto]).
  subst s'. unfold place_piece. now rewrite (bind_ok _ _ _ _ _ E).
Qed.

Lemma place_piece_true s piece x y :
  wf_board (board s) = true -> rect piece = true ->
  fst (can_place piece x y s) = Ok true ->
  exists b', place_piece piece x y s = (Ok true, set_board b' s) /\
    wf_board b' = true /\ painted (covered piece x y) (board s) b'.
Proof.
  intros Hwf Hrect.
  destruct (can_place piece x y s) as [r s'] eqn:E. simpl. intros ->.
  destruct (can_place_true_inv _ _ _ _ _ Hrect E) as (-> & Hy & Hw & Hh & Hocc).
  destruct (place_piece_writes s piece x y Hwf Hrect Hy Hw Hh)
    as (b' & Hrun & Hwf' & Hp).
  { intros i j Hi Hj Ho. destruct (Hocc i j Hi Hj Ho) as (c & Hc & _).
    apply getitem_Some_row in Hc. rewrite (wf_board_nrows _ Hwf) in Hc. blia. }
  exists b'. split; [|easy].
  unfold place_piece. rewrite (bind_ok _ _ _ _ _ E). simpl.
  unfold shape. now rewrite (bind_ok _ _ _ _ _ Hrun).
Qed.

(** C3 (as amended). [can_place] never changes the solver.  On a board of
    the fixed shape, for a rectangular piece and a row [x >= 0], it
    returns [False] exactly when the piece's bounding box at [(x, y)]
    leaves the board or an occupied piece cell lands on an occupied board
    cell, and [True] exactly when the box is within the board and no cell
    overlaps. *)
Theorem can_place_spec piece x y s :
  snd (can_place piece x y s) = s /\
  (wf_board (board s) = true -> rect piece = true -> 0 <= x ->
   (fst (can_place piece x y s) = Ok false /\
    (~ box_in_bounds piece x y \/ overlaps (board s) piece x y)) \/
   (fst (can_place piece x y s) = Ok true /\
    box_in_bounds piece x y /\ ~ overlaps (board s) piece x y)).
Proof.
  split; [apply read_only_can_place|].
  intros Hwf Hrect Hx.
  destruct (can_place_value s piece x y Hwf Hrect Hx) as [[E H]|[E H]];
    rewrite E; simpl; [right|left]; easy.
Qed.

Lemma can_place_spec_witness :
  (fst (can_place [[1; 1; 1; 1]] 19 0 init) = Ok false /\
   (~ box_in_bounds [[1; 1; 1; 1]] 19 0
    \/ overlaps (board init) [[1; 1; 1; 1]] 19 0)) \/
  (fst (can_place [[1; 1; 1; 1]] 19 0 init) = Ok true /\
   box_in_bounds [[1; 1; 1; 1]] 19 0
   /\ ~ overlaps (board init) [[1; 1; 1; 1]] 19 0).
Proof.
  apply (proj2 (can_place_spec [[1; 1; 1; 1]] 19 0 init)).
  - reflexivity.
  - reflexivity.
  - lia.
Defined.

(** C3, as stated, fails in two ways.  For a negative row: on the empty
    board the horizontal I piece at [x = -1] has all its cells outside the
    board, yet [can_place] returns [True], because row [-1] is read as the
    bottom row.  For a piece with a blank column: the 1x2 piece [[1, 0]]
    at [(0, 9)] on the empty board has its only occupied cell inside the
    board and overlaps nothing, yet [can_place] returns [False], because
    the test is on the bounding box. *)
Lemma can_place_negative_row :
  (fst (can_place [[1; 1; 1; 1]] (-1) 0 init) = Ok true /\
   ~ box_in_bounds [[1; 1; 1; 1]] (-1) 0) /\
  (fst (can_place [[1; 0]] 0 9 init) = Ok false /\
   (forall i j, cell [[1; 0]] i j = 1 ->
                0 <= 0 + i < BOARD_HEIGHT /\ 0 <= 9 + j < BOARD_WIDTH) /\
   ~ overlaps (board init) [[1; 0]] 0 9).
Proof.
  assert (Hcell : forall i j, cell [[1; 0]] i j = 1 -> i = 0 /\ j = 0).
  { intros i j. unfold cell.
    destruct (Z.leb_spec 0 i), (Z.leb_spec 0 j); simpl; try discriminate.
    destruct (Z.to_nat i) as [|n] eqn:Ei; simpl; [|discriminate].
    destruct (Z.to_nat j) as [|[|m]] eqn:Ej; simpl; try discriminate.
    intros _. lia. }
  split; [split; [reflexivity|unfold box_in_bounds; lia]|].
  split; [reflexivity|]. split.
  - intros i j H. destruct (Hcell i j H) as [-> ->]. blia.
  - intros (i & j & _ & _ & Hp & Hc).
    destruct (Hcell i j Hp) as [-> ->]. vm_compute in Hc. discriminate.
Qed.

Lemma covered_nonneg piece x y r c :
  0 <= x ->
  (covered piece x y r c <->
   exists i j,
     0 <= i < Z.of_nat (nrows piece) /\ 0 <= j < Z.of_nat (ncols piece) /\
     cell piece i j = 1 /\ r = x + i /\ c = y + j).
Proof.
  intros Hx. unfold covered.
  split; intros (i & j & Hi & Hj & Hp & Hr & Hc); exists i, j;
    rewrite board_row_nonneg in * by lia; easy.
Qed.

(** C7. When [can_place] returns [False], [place_piece] returns [False]
    and the solver (grid and counters) is unchanged, so that a repeated
    call gives the same.  When [can_place] returns [True], [place_piece]
    returns [True], the counters are unchanged, and the new grid has 1 in
    every cell [self.board[x + i, y + j]] with [(i, j)] an occupied piece
    cell and the old content in every other cell; for [x >= 0] these are
    the cells at row [x + i] and column [y + j]. *)
Theorem place_piece_spec piece x y s :
  wf_board (board s) = true -> rect piece = true ->
  (fst (can_place piece x y s) = Ok false ->
   place_piece piece x y s = (Ok false, s) /\
   bind (place_piece piece x y) (fun _ => place_piece piece x y) s
   = (Ok false, s)) /\
  (fst (can_place piece x y s) = Ok true ->
   exists b',
     place_piece piece x y s = (Ok true, set_board b' s) /\
     wf_board b' = true /\
     forall r c,
       (covered piece x y r c -> cell b' r c = 1) /\
       (~ covered piece x y r c -> cell b' r c = cell (board s) r c)) /\
  (0 <= x ->
   forall r c,
     covered piece x y r c <->
     exists i j,
       0 <= i < Z.of_nat (nrows piece) /\ 0 <= j < Z.of_nat (ncols piece) /\
       cell piece i j = 1 /\ r = x + i /\ c = y + j).
Proof.
  intros Hwf Hrect. split; [|split].
  - intros H. pose proof (place_piece_false s piece x y H) as Hrun.
    split; [exact Hrun|]. now rewrite (bind_ok _ _ _ _ _ Hrun).
  - intros H. destruct (place_piece_true s piece x y Hwf Hrect H)
      as (b' & Hrun & Hwf' & Hp).
    exists b'. split; [easy|]. split; [easy|]. apply Hp.
  - intros Hx r c. now apply covered_nonneg.
Qed.

Lemma place_piece_spec_witness :
  (place_piece [[1; 1; 1; 1]] 20 0 init = (Ok false, init) /\
   bind (place_piece [[1; 1; 1; 1]] 20 0)
     (fun _ => place_piece [[1; 1; 1; 1]] 20 0) init
   = (Ok false, init)) /\
  exists b',
    place_piece [[1; 1; 1; 1]] 19 0 init = (Ok true, set_board b' init) /\
    wf_board b' = true /\
    forall r c,
      (covered [[1; 1; 1; 1]] 19 0 r c -> cell b' r c = 1) /\
      (~ covered [[1; 1; 1; 1]] 19 0 r c -> cell b' r c = cell (board init) r c).
Proof.
  split.
  - apply (proj1 (place_piece_spec [[1; 1; 1; 1]] 20 0 init eq_refl eq_refl)).
    reflexivity.
  - apply (proj1 (proj2
             (place_piece_spec [[1; 1; 1; 1]] 19 0 init eq_refl eq_refl))).
    reflexivity.
Defined.

(** ** [evaluate_board] *)

Lemma sum_bool_count (l : list bool) :
  sum_bool l = Z.of_nat (length (List.filter (fun b : bool => b) l)).
Proof.
  unfold sum_bool.
  assert (G : forall acc,
    fold_left (fun acc (b : bool) => if b then acc + 1 else acc) l acc
    = acc + Z.of_nat (length (List.filter (fun b : bool => b) l))).
  { induction l as [|b l IH]; intros acc; simpl; [lia|].
    rewrite IH. destruct b; simpl; lia. }
  apply G.
Qed.

Lemma full_rows_count b : sum_bool (all_eq1_axis1 b) = full_count b.
Proof.
  rewrite sum_bool_count. unfold full_count, all_eq1_axis1. f_equal.
  induction b as [|r b IH]; simpl; [easy|].
  fold (row_full r). destruct (row_full r); simpl; now rewrite IH.
Qed.

Lemma getcol_board b k :
  wf_board b = true -> 0 <= k < BOARD_WIDTH ->
  getcol b k = Some (column b (Z.to_nat k)).
Proof.
  intros Hwf Hk. unfold getcol. rewrite (wf_board_ncols _ Hwf).
  rewrite norm_index_nonneg by blia. simpl.
  apply wf_board_iff in Hwf as [_ Hall]. unfold column.
  induction Hall as [|row b Hrow Hall IH]; [easy|].
  simpl. destruct (row !! Z.to_nat k) as [v|] eqn:E.
  - simpl. now rewrite IH.
  - apply lookup_ge_None in E. blia.
Qed.

Lemma length_column b c : length (column b c) = length b.
Proof. unfold column. apply length_map. Qed.

Lemma cell_column b i j :
  0 <= i < Z.of_nat (length b) -> 0 <= j ->
  cell b i j = default 0 (column b (Z.to_nat j) !! Z.to_nat i).
Proof.
  intros Hi Hj. unfold cell, column.
  destruct (Z.leb_spec 0 i); [|lia]. destruct (Z.leb_spec 0 j); [|lia]. simpl.
  rewrite list_lookup_fmap.
  destruct (b !! Z.to_nat i) as [row|] eqn:E; simpl; [easy|].
  apply lookup_ge_None in E. lia.
Qed.

Lemma topmost_lt col r : topmost col = Some r -> (r < length col)%nat.
Proof.
  revert r. induction col as [|v col IH]; simpl; intros r; [easy|].
  destruct (v =? 1); [intros [= <-]; lia|].
  destruct (topmost col) as [r'|]; simpl; [|easy].
  intros [= <-]. specialize (IH r' eq_refl). lia.
Qed.

(** [topmost] is the least row holding a 1. *)
Lemma topmost_Some col r :
  topmost col = Some r <->
  col !! r = Some 1 /\ forall r', (r' < r)%nat -> col !! r' <> Some 1.
Proof.
  revert r. induction col as [|v col IH]; intros r; simpl.
  - split; [easy|]. intros [H _]. discriminate.
  - destruct (Z.eqb_spec v 1) as [->|Hv].
    + split.
      * intros [= <-]. split; [easy|]. intros r' Hr'. lia.
      * intros [H1 H2]. destruct r as [|r]; [easy|].
        exfalso. apply (H2 O); [lia|easy].
    + destruct r as [|r].
      * split.
        -- destruct (topmost col); simpl; discriminate.
        -- intros [[= H] _]. contradiction.
      * specialize (IH r). split.
        -- destruct (topmost col) as [r'|]; simpl; [|easy].
           intros [= ->]. destruct (proj1 IH eq_refl) as [H1 H2].
           split; [easy|]. intros [|r'] Hr'; simpl.
           ++ intros [= H]. contradiction.
           ++ apply H2. lia.
        -- intros [H1 H2]. simpl in H1.
           rewrite (proj2 IH); [easy|]. split; [easy|].
           intros r' Hr'. apply (H2 (S r')). lia.
Qed.

Lemma topmost_None col :
  topmost col = None <-> forall r, col !! r <> Some 1.
Proof.
  induction col as [|v col IH]; simpl.
  - split; [intros _ r; now destruct r|easy].
  - destruct (Z.eqb_spec v 1) as [->|Hv].
    + split; [easy|]. intros H. now specialize (H O).
    + destruct (topmost col) as [r|]; simpl.
      * split; [easy|]. intros H. exfalso.
        assert (E : Some r = None); [|discriminate].
        apply IH. intros r'. apply (H (S r')).
      * split; [|easy]. intros _ [|r]; simpl.
        -- intros [= H]. contradiction.
        -- now apply IH.
Qed.

Lemma where_eq1_topmost base col :
  match topmost col with
  | Some r => exists rest, where_eq1_from base col = (base + Z.of_nat r) :: rest
  | None => where_eq1_from base col = []
  end.
Proof.
  revert base. induction col as [|v col IH]; intros base; simpl; [easy|].
  destruct (v =? 1).
  - eexists. f_equal. lia.
  - specialize (IH (base + 1)). destruct (topmost col) as [r|]; simpl; [|easy].
    destruct IH as [rest IH]. exists rest. rewrite IH. f_equal. lia.
Qed.

Lemma fold_left_add l acc : fold_left Z.add l acc = acc + sumZ l.
Proof.
  revert acc. induction l as [|v l IH]; intros acc; simpl; [lia|].
  rewrite IH. lia.
Qed.

Lemma sumZ_app l1 l2 : sumZ (l1 ++ l2) = sumZ l1 + sumZ l2.
Proof. induction l1 as [|v l1 IH]; simpl; [easy|]. rewrite IH. lia. Qed.

Lemma bumpiness_snoc hs h1 h2 :
  bumpiness ((hs ++ [h1]) ++ [h2]) = bumpiness (hs ++ [h1]) + Z.abs (h1 - h2).
Proof.
  induction hs as [|a hs IH]; simpl; [lia|].
  destruct hs as [|a' hs]; simpl in *; [lia|]. rewrite IH. lia.
Qed.

Lemma getitem1_nonneg {A : Type} (l : list A) i v :
  0 <= i -> l !! Z.to_nat i = Some v -> getitem1 l i = Some v.
Proof.
  intros Hi Hv. unfold getitem1.
  pose proof (lookup_lt_Some _ _ _ Hv) as Hlt.
  rewrite norm_index_nonneg by lia. exact Hv.
Qed.

Lemma holes_loop s col r :
  wf_board (board s) = true -> 0 <= col < BOARD_WIDTH ->
  topmost (column (board s) (Z.to_nat col)) = Some r ->
  for_fold (range (Z.of_nat r + 1) BOARD_HEIGHT)
    (fun n row =>
       do c <- board_get row col;
       if c =? 0 then ret (n + 1) else ret n) 0 s
  = (Ok (column_holes (column (board s) (Z.to_nat col))), s).
Proof.
  intros Hwf Hcol Htop.
  set (colv := column (board s) (Z.to_nat col)) in *.
  assert (Hlen : length colv = Z.to_nat BOARD_HEIGHT).
  { unfold colv. rewrite length_column. apply (wf_board_nrows _ Hwf). }
  pose proof (topmost_lt _ _ Htop) as Hr.
  set (below := drop (S r) colv).
  destruct (for_fold_range
    (fun k n s' =>
       s' = s /\
       n = Z.of_nat (length (List.filter (fun v => v =? 0)
                               (take (Z.to_nat (k - (Z.of_nat r + 1))) below))))
    (Z.of_nat r + 1) BOARD_HEIGHT
    (fun n row =>
       do c <- board_get row col;
       if c =? 0 then ret (n + 1) else ret n) 0 s)
    as (n & s' & Hrun & -> & Hn).
  - blia.
  - split; [easy|]. now rewrite Z.sub_diag.
  - intros k n s1 Hk [-> ->].
    assert (Hcell : exists v, colv !! Z.to_nat k = Some v
                              /\ cell (board s) k col = v).
    { destruct (colv !! Z.to_nat k) as [v|] eqn:E.
      - exists v. split; [easy|].
        rewrite cell_column; [fold colv; now rewrite E| |lia].
        pose proof (wf_board_nrows _ Hwf) as Hn. unfold nrows in Hn. blia.
      - apply lookup_ge_None in E. blia. }
    destruct Hcell as (v & Hv & Hcell).
    rewrite (bind_ok _ _ _ _ _ (board_get_ok s k col Hwf ltac:(blia) Hcol)).
    rewrite Hcell.
    replace (Z.to_nat (k + 1 - (Z.of_nat r + 1)))
      with (S (Z.to_nat (k - (Z.of_nat r + 1)))) by lia.
    rewrite (take_S_r below _ v).
    2:{ unfold below. rewrite lookup_drop. rewrite <- Hv. f_equal. lia. }
    rewrite List.filter_app, length_app. simpl.
    destruct (v =? 0); simpl; eexists _, s; (split; [reflexivity|]);
      (split; [easy|lia]).
  - rewrite Hrun. f_equal. f_equal. rewrite Hn.
    unfold column_holes. rewrite Htop. fold below.
    rewrite take_ge; [easy|]. unfold below. rewrite length_drop. blia.
Qed.

Lemma bumpiness_loop s hs :
  (1 <= length hs)%nat ->
  for_fold (range 0 (Z.of_nat (length hs) - 1))
    (fun acc i =>
       do h <- index (getitem1 hs i);
       do h' <- index (getitem1 hs (i + 1));
       ret (acc + Z.abs (h - h'))) 0 s
  = (Ok (bumpiness hs), s).
Proof.
  intros Hlen.
  destruct (for_fold_range
    (fun k acc s' => s' = s /\ acc = bumpiness (take (S (Z.to_nat k)) hs))
    0 (Z.of_nat (length hs) - 1)
    (fun acc i =>
       do h <- index (getitem1 hs i);
       do h' <- index (getitem1 hs (i + 1));
       ret (acc + Z.abs (h - h'))) 0 s)
    as (acc & s' & Hrun & -> & Hacc).
  - lia.
  - split; [easy|]. destruct hs; [easy|]. reflexivity.
  - intros k acc s1 Hk [-> ->].
    destruct (hs !! Z.to_nat k) as [h1|] eqn:E1.
    2:{ apply lookup_ge_None in E1. lia. }
    destruct (hs !! S (Z.to_nat k)) as [h2|] eqn:E2.
    2:{ apply lookup_ge_None in E2. lia. }
    rewrite (getitem1_nonneg hs k h1) by (trivial; lia).
    rewrite (getitem1_nonneg hs (k + 1) h2).
    2: lia.
    2:{ rewrite <- E2. f_equal. lia. }
    simpl. unfold bind, ret. simpl. eexists _, s. split; [reflexivity|].
    split; [easy|].
    replace (Z.to_nat (k + 1)) with (S (Z.to_nat k)) by lia.
    rewrite (take_S_r hs (S (Z.to_nat k)) h2 E2).
    rewrite (take_S_r hs (Z.to_nat k) h1 E1).
    now rewrite bumpiness_snoc.
  - rewrite Hrun. f_equal. f_equal. rewrite Hacc.
    rewrite take_ge; [easy|lia].
Qed.

Lemma columns_loop s :
  wf_board (board s) = true ->
  for_fold (range 0 BOARD_WIDTH)
    (fun '(column_heights, holes) col =>
       do b <- get_board;
       do column <- index (getcol b col);
       let filled := where_eq1 column in
       if Z.of_nat (length filled) >? 0 then
         do top <- index (getitem1 filled 0);
         let height := BOARD_HEIGHT - top in
         do n <- for_fold (range (top + 1) BOARD_HEIGHT)
                   (fun n row =>
                      do c <- board_get row col;
                      if c =? 0 then ret (n + 1) else ret n)
                   0;
         ret (column_heights ++ [height], holes + n)
       else ret (column_heights ++ [0], holes))
    ([], 0) s
  = (Ok (heights (board s), holes (board s)), s).
Proof.
  intros Hwf.
  set (cols := fun n : nat => map (column (board s)) (seq 0 n)).
  destruct (for_fold_range
    (fun k (acc : list Z * Z) s' =>
       s' = s /\
       acc = (map column_height (cols (Z.to_nat k)),
              sumZ (map column_holes (cols (Z.to_nat k)))))
    0 BOARD_WIDTH
    (fun '(column_heights, holes) col =>
       do b <- get_board;
       do column <- index (getcol b col);
       let filled := where_eq1 column in
       if Z.of_nat (length filled) >? 0 then
         do top <- index (getitem1 filled 0);
         let height := BOARD_HEIGHT - top in
         do n <- for_fold (range (top + 1) BOARD_HEIGHT)
                   (fun n row =>
                      do c <- board_get row col;
                      if c =? 0 then ret (n + 1) else ret n)
                   0;
         ret (column_heights ++ [height], holes + n)
       else ret (column_heights ++ [0], holes))
    ([], 0) s)
    as (acc & s' & Hrun & -> & ->).
  - blia.
  - easy.
  - intros k acc s1 Hk [-> ->].
    assert (Hcols : cols (Z.to_nat (k + 1))
                    = cols (Z.to_nat k) ++ [column (board s) (Z.to_nat k)]).
    { unfold cols. replace (Z.to_nat (k + 1)) with (S (Z.to_nat k)) by lia.
      rewrite seq_S. now rewrite map_app. }
    rewrite Hcols, !map_app, sumZ_app. simpl map. simpl sumZ.
    unfold bind at 1. simpl.
    rewrite (bind_ok _ _ s (column (board s) (Z.to_nat k)) s).
    2:{ now rewrite getcol_board. }
    set (colv := column (board s) (Z.to_nat k)).
    pose proof (where_eq1_topmost 0 colv) as Hw. unfold where_eq1.
    unfold column_height, column_holes.
    destruct (topmost colv) as [r|] eqn:Htop.
    + destruct Hw as [rest ->]. simpl length.
      destruct (Z.gtb_spec (Z.of_nat (S (length rest))) 0); [|lia].
      unfold getitem1. rewrite norm_index_nonneg by (simpl; lia). simpl.
      rewrite (bind_ok _ _ s (Z.of_nat r) s) by reflexivity.
      pose proof (holes_loop s k r Hwf Hk Htop) as Hh.
      rewrite (bind_ok _ _ _ _ _ Hh).
      eexists _, s. split; [reflexivity|]. split; [easy|].
      unfold column_holes. fold colv. rewrite Htop.
      f_equal. lia.
    + rewrite Hw. simpl.
      eexists _, s. split; [reflexivity|]. split; [easy|].
      f_equal. lia.
  - rewrite Hrun. reflexivity.
Qed.

Lemma evaluate_board_run s :
  wf_board (board s) = true ->
  evaluate_board s = (Ok (evaluate_reference (board s)), s).
Proof.
  intros Hwf. unfold evaluate_board.
  unfold bind at 1. simpl.
  rewrite (bind_ok _ _ _ _ _ (columns_loop s Hwf)).
  assert (Hlen : (1 <= length (heights (board s)))%nat).
  { unfold heights, columns. rewrite !length_map, length_seq. blia. }
  rewrite (bind_ok _ _ _ _ _ (bumpiness_loop s _ Hlen)).
  unfold ret. f_equal. f_equal.
  rewrite fold_left_add, full_rows_count. unfold evaluate_reference. lia.
Qed.

(** C4. On a board of the fixed shape, [evaluate_board] returns the value
    of the reference definition -- with [f] the number of full rows, the
    result is [f*500 + (4 - f)*(-50) + holes*(-50) + bumpiness*(-10) +
    aggregate_height*(-1)], the [(4 - f)] term unclamped -- and leaves the
    solver unchanged; two solvers with the same grid get the same score
    whatever their counters. *)
Theorem evaluate_board_spec s :
  wf_board (board s) = true ->
  evaluate_board s = (Ok (evaluate_reference (board s)), s) /\
  forall s', board s' = board s ->
             fst (evaluate_board s') = fst (evaluate_board s).
Proof.
  intros Hwf. split; [now apply evaluate_board_run|].
  intros s' Hb. rewrite !evaluate_board_run by (trivial; now rewrite Hb).
  simpl. now rewrite Hb.
Qed.

Lemma evaluate_board_spec_witness :
  evaluate_board init = (Ok (evaluate_reference (board init)), init) /\
  forall s', board s' = board init ->
             fst (evaluate_board s') = fst (evaluate_board init).
Proof. apply (evaluate_board_spec init). reflexivity. Defined.

(** ** Integers *)

Lemma in_int64_iff z : in_int64 z = true <-> - 2 ^ 63 <= z <= 2 ^ 63 - 1.
Proof.
  unfold in_int64, INT64_MIN, INT64_MAX.
  rewrite andb_true_iff, !Z.leb_le. reflexivity.
Qed.

Lemma wrap64_fit z : in_int64 z = true -> wrap64 z = z.
Proof.
  rewrite in_int64_iff. unfold wrap64, INT64_MIN. intros H.
  rewrite Z.mod_small; lia.
Qed.

Lemma in_int64_wrap64 z : in_int64 (wrap64 z) = true.
Proof.
  apply in_int64_iff. unfold wrap64, INT64_MIN.
  pose proof (Z.mod_pos_bound (z - - 2 ^ 63) (2 ^ 64)). lia.
Qed.

Lemma value_py_max a b : value (py_max a b) = Z.max (value a) (value b).
Proof. unfold py_max. destruct (Z.gtb_spec (value b) (value a)); lia. Qed.

(** Operands that fit never make an operation fail; unless both are Python
    integers the result is the wrapped [int64]. *)
Lemma binop_fit f a b :
  in_int64 (value a) = true -> in_int64 (value b) = true ->
  binop f a b
  = Some (if is_py a && is_py b then PyInt (f (value a) (value b))
          else Int64 (wrap64 (f (value a) (value b)))).
Proof.
  intros Ha Hb. destruct a as [x|x], b as [y|y]; simpl in *;
    rewrite ?Ha, ?Hb; reflexivity.
Qed.

(** An operation on operands that fit, whose exact result fits too, is
    exact. *)
Lemma binop_exact f a b :
  in_int64 (value a) = true -> in_int64 (value b) = true ->
  in_int64 (f (value a) (value b)) = true ->
  exists c, binop f a b = Some c /\ value c = f (value a) (value b).
Proof.
  intros Ha Hb Hc. rewrite (binop_fit f a b Ha Hb). eexists. split; [reflexivity|].
  destruct (is_py a && is_py b); simpl; [reflexivity|]. now apply wrap64_fit.
Qed.

Section RunCounters.

Context {B : Type}.

Lemma bind_get_lines_cleared (k : number -> M B) s :
  bind get_lines_cleared k s = k (lines_cleared s) s.
Proof. reflexivity. Qed.

Lemma bind_get_level (k : number -> M B) s :
  bind get_level k s = k (level s) s.
Proof. reflexivity. Qed.

Lemma bind_get_score (k : number -> M B) s :
  bind get_score k s = k (score s) s.
Proof. reflexivity. Qed.

Lemma bind_put_lines_cleared v (k : unit -> M B) s :
  bind (put_lines_cleared v) k s
  = k tt {| board := board s; score := score s;
            lines_cleared := v; level := level s |}.
Proof. reflexivity. Qed.

Lemma bind_put_level v (k : unit -> M B) s :
  bind (put_level v) k s
  = k tt {| board := board s; score := score s;
            lines_cleared := lines_cleared s; level := v |}.
Proof. reflexivity. Qed.

Lemma bind_put_score v (k : unit -> M B) s :
  bind (put_score v) k s
  = k tt {| board := board s; score := v;
            lines_cleared := lines_cleared s; level := level s |}.
Proof. reflexivity. Qed.

Lemma bind_arith {A : Type} (o : option A) a (k : A -> M B) s :
  o = Some a -> bind (arith o) k s = k a s.
Proof. intros ->. reflexivity. Qed.

Lemma bind_key {A : Type} (o : option A) a (k : A -> M B) s :
  o = Some a -> bind (key o) k s = k a s.
Proof. intros ->. reflexivity. Qed.

End RunCounters.

Lemma dict_get_points n :
  1 <= n <= 4 -> dict_get LINE_CLEAR_POINTS n = Some (base_points n).
Proof.
  intros Hn. assert (E : n = 1 \/ n = 2 \/ n = 3 \/ n = 4) by lia.
  destruct E as [->|[->|[->| ->]]]; reflexivity.
Qed.

Lemma base_points_range n : 1 <= n <= 4 -> 100 <= base_points n <= 800.
Proof.
  intros Hn. assert (E : n = 1 \/ n = 2 \/ n = 3 \/ n = 4) by lia.
  destruct E as [->|[->|[->| ->]]]; simpl; lia.
Qed.

(** ** [clear_lines] *)

Lemma zeros_like_board b :
  wf_board b = true ->
  zeros_like b = replicate (Z.to_nat BOARD_HEIGHT) empty_row.
Proof.
  intros Hwf. apply wf_board_iff in Hwf as [Hlen Hall].
  rewrite <- Hlen. clear Hlen. unfold zeros_like.
  induction Hall as [|row b Hrow Hall IH]; [easy|].
  simpl. rewrite IH. f_equal. unfold empty_row. rewrite <- Hrow.
  clear. induction row as [|v row IH]; simpl; [easy|]. now rewrite IH.
Qed.

Lemma filter_full_kept b :
  (length (List.filter row_full b) + length (kept_rows b) = length b)%nat.
Proof.
  unfold kept_rows. induction b as [|r b IH]; simpl; [easy|].
  destruct (row_full r); simpl; lia.
Qed.

Lemma length_kept_rows_le b : (length (kept_rows b) <= length b)%nat.
Proof. pose proof (filter_full_kept b). lia. Qed.

Lemma insert_last_empty (n : nat) (row : list Z) (rest : list (list Z)) :
  <[n := row]> (replicate (S n) empty_row ++ rest)
  = replicate n empty_row ++ row :: rest.
Proof.
  rewrite replicate_S_end, <- app_assoc. simpl.
  rewrite insert_app_r_alt by (rewrite length_replicate; lia).
  rewrite length_replicate, Nat.sub_diag. reflexivity.
Qed.

Lemma clear_loop s :
  wf_board (board s) = true ->
  for_fold (range_down BOARD_HEIGHT)
    (fun '(new_board, new_idx) idx =>
       do full <- index (getitem1 (all_eq1_axis1 (board s)) idx);
       if negb full then
         do b <- get_board;
         do row <- index (getitem1 b idx);
         do new_board' <- index (setrow new_board new_idx row);
         ret (new_board', new_idx - 1)
       else ret (new_board, new_idx))
    (zeros_like (board s), BOARD_HEIGHT - 1) s
  = (Ok (replicate (Z.to_nat (full_count (board s))) empty_row
         ++ kept_rows (board s),
         full_count (board s) - 1), s).
Proof.
  intros Hwf. pose proof (wf_board_nrows _ Hwf) as Hrows. unfold nrows in Hrows.
  set (b := board s) in *.
  set (kept := fun k : Z => kept_rows (drop (Z.to_nat k) b)).
  destruct (for_fold_range_down
    (fun k (acc : list (list Z) * Z) s' =>
       s' = s /\
       snd acc = BOARD_HEIGHT - 1 - Z.of_nat (length (kept k)) /\
       fst acc = replicate (Z.to_nat (snd acc + 1)) empty_row ++ kept k)
    BOARD_HEIGHT
    (fun '(new_board, new_idx) idx =>
       do full <- index (getitem1 (all_eq1_axis1 b) idx);
       if negb full then
         do b <- get_board;
         do row <- index (getitem1 b idx);
         do new_board' <- index (setrow new_board new_idx row);
         ret (new_board', new_idx - 1)
       else ret (new_board, new_idx))
    (zeros_like b, BOARD_HEIGHT - 1) s)
    as ([nb ni] & s' & Hrun & -> & Hni & Hnb).
  - blia.
  - assert (Hk : kept BOARD_HEIGHT = []).
    { unfold kept. rewrite drop_ge by lia. reflexivity. }
    rewrite Hk. cbn [fst snd length]. split; [easy|]. split; [lia|].
    rewrite app_nil_r, zeros_like_board by easy. f_equal.
  - intros k [nb ni] s1 Hk (-> & Hni & Hnb). simpl in Hni, Hnb.
    destruct (b !! Z.to_nat k) as [row|] eqn:Erow.
    2:{ apply lookup_ge_None in Erow. blia. }
    assert (Hdrop : drop (Z.to_nat k) b = row :: drop (Z.to_nat (k + 1)) b).
    { replace (Z.to_nat (k + 1)) with (S (Z.to_nat k)) by lia.
      now apply drop_S. }
    assert (Hkept : kept k = if row_full row then kept (k + 1)
                             else row :: kept (k + 1)).
    { unfold kept at 1. rewrite Hdrop. unfold kept_rows. simpl.
      now destruct (row_full row). }
    assert (Hle : Z.of_nat (length (kept (k + 1))) <= BOARD_HEIGHT - k - 1).
    { unfold kept.
      pose proof (length_kept_rows_le (drop (Z.to_nat (k + 1)) b)) as Hle.
      rewrite length_drop in Hle. blia. }
    rewrite (bind_ok _ _ s (row_full row) s).
    2:{ rewrite (getitem1_nonneg _ k (row_full row)); [easy|lia|].
        unfold all_eq1_axis1.
        change (map (forallb (fun v => v =? 1)) b) with (row_full <$> b).
        rewrite list_lookup_fmap, Erow. reflexivity. }
    rewrite Hkept. destruct (row_full row); simpl.
    + eexists _, s. split; [reflexivity|]. easy.
    + unfold bind at 1. simpl.
      rewrite (bind_ok _ _ s row s).
      2:{ fold b. rewrite (getitem1_nonneg b k row) by (trivial; lia).
          reflexivity. }
      assert (Hset : setrow nb ni row
                     = Some (replicate (Z.to_nat ni) empty_row
                             ++ row :: kept (k + 1))).
      { unfold setrow, nrows. rewrite Hnb at 1.
        rewrite length_app, length_replicate.
        rewrite norm_index_nonneg by blia. simpl. f_equal.
        rewrite Hnb. replace (Z.to_nat (ni + 1)) with (S (Z.to_nat ni)) by blia.
        apply insert_last_empty. }
      rewrite (bind_ok _ _ s _ s) by (rewrite Hset; reflexivity).
      eexists _, s. split; [reflexivity|]. simpl.
      split; [easy|]. split; [lia|].
      f_equal. f_equal. lia.
  - rewrite Hrun. simpl in Hni, Hnb.
    assert (Hk0 : kept 0 = kept_rows b) by reflexivity.
    rewrite Hk0 in Hni, Hnb.
    assert (Hni' : ni = full_count b - 1).
    { unfold full_count. pose proof (filter_full_kept b). blia. }
    assert (E : Z.to_nat (ni + 1) = Z.to_nat (full_count b)) by lia.
    rewrite Hnb, E. clear Hni Hnb E. now subst ni.
Qed.

Lemma clear_lines_run s :
  wf_board (board s) = true ->
  clear_lines s
  = if full_count (board s) >? 0 then
      update_counters (full_count (board s))
        (set_board (replicate (Z.to_nat (full_count (board s))) empty_row
                    ++ kept_rows (board s)) s)
    else (Ok (full_count (board s)), s).
Proof.
  intros Hwf. unfold clear_lines. unfold bind at 1. unfold get_board at 1.
  cbv beta iota zeta. rewrite full_rows_count.
  destruct (full_count (board s) >? 0) eqn:Hpos; [|reflexivity].
  rewrite (bind_ok _ _ _ _ _ (clear_loop s Hwf)).
  reflexivity.
Qed.

Ltac fits := apply in_int64_iff; cbn [value]; Z.div_mod_to_equations; lia.

(** As long as nothing leaves the [int64] range the counters are updated
    with the exact sums and products. *)
Lemma update_counters_exact n s :
  1 <= n <= BOARD_HEIGHT ->
  in_int64 (value (lines_cleared s)) = true ->
  in_int64 (value (lines_cleared s) + n) = true ->
  in_int64 (points_product n
              (Z.max 1 ((value (lines_cleared s) + n) / 10 + 1))) = true ->
  in_int64 (value (score s)) = true ->
  in_int64 (value (score s)
            + points_for n
                (Z.max 1 ((value (lines_cleared s) + n) / 10 + 1))) = true ->
  exists s',
    update_counters n s = (Ok n, s') /\
    board s' = board s /\
    value (lines_cleared s') = value (lines_cleared s) + n /\
    value (level s') = Z.max 1 (value (lines_cleared s') / 10 + 1) /\
    value (score s') = value (score s) + points_for n (value (level s')).
Proof.
  intros Hn Hl Hl' Hprod Hsc Hsc'.
  set (l := value (lines_cleared s)) in *.
  set (lv := Z.max 1 ((l + n) / 10 + 1)) in *.
  pose proof (proj1 (in_int64_iff _) Hl) as Rl.
  pose proof (proj1 (in_int64_iff _) Hl') as Rl'.
  pose proof (proj1 (in_int64_iff _) Hprod) as Rprod.
  pose proof (proj1 (in_int64_iff _) Hsc) as Rsc.
  pose proof (proj1 (in_int64_iff _) Hsc') as Rsc'.
  unfold update_counters. rewrite bind_get_lines_cleared.
  destruct (binop_exact Z.add (lines_cleared s) (Int64 n)) as (c1 & E1 & V1);
    [easy|unfold BOARD_HEIGHT in Hn; fits|easy|].
  cbn [value] in V1. fold l in V1.
  rewrite (bind_arith _ _ _ _ E1), bind_put_lines_cleared,
    bind_get_lines_cleared. cbn [lines_cleared].
  destruct (binop_exact Z.div c1 (PyInt 10)) as (q & E2 & V2);
    [rewrite V1; easy|easy|rewrite V1; fits|].
  cbn [value] in V2. rewrite V1 in V2.
  rewrite (bind_arith _ _ _ _ E2).
  destruct (binop_exact Z.add q (PyInt 1)) as (v & E3 & V3);
    [rewrite V2; fits|easy|rewrite V2; fits|].
  cbn [value] in V3. rewrite V2 in V3.
  rewrite (bind_arith _ _ _ _ E3), bind_put_level.
  assert (Vlv : value (py_max (PyInt 1) v) = lv).
  { rewrite value_py_max, V3. reflexivity. }
  assert (Hlv : 1 <= lv) by (unfold lv; lia).
  unfold points_product in Rprod. unfold points_for in Rsc'.
  unfold points_for.
  destruct ((1 <=? n) && (n <=? 4)) eqn:Hsmall.
  - apply andb_true_iff in Hsmall as [H1 H4]. apply Z.leb_le in H1, H4.
    pose proof (base_points_range n ltac:(lia)) as Hbase.
    rewrite (bind_key _ _ _ _ (dict_get_points n ltac:(lia))).
    rewrite bind_get_level. cbn [level].
    destruct (binop_exact Z.mul (PyInt (base_points n)) (py_max (PyInt 1) v))
      as (points & E4 & V4);
      [fits|rewrite Vlv; fits|cbn [value]; rewrite Vlv; fits|].
    cbn [value] in V4. rewrite Vlv in V4.
    rewrite (bind_arith _ _ _ _ E4), bind_get_score. cbn [score].
    destruct (binop_exact Z.add (score s) points) as (sc' & E5 & V5);
      [easy|rewrite V4; fits|rewrite V4; fits|].
    rewrite V4 in V5.
    rewrite (bind_arith _ _ _ _ E5), bind_put_score.
    eexists. split; [reflexivity|]. cbn [board lines_cleared level score].
    rewrite V1, Vlv. easy.
  - rewrite bind_get_level. cbn [level].
    unfold BOARD_HEIGHT in Hn.
    destruct (binop_exact Z.mul (PyInt 1000) (py_max (PyInt 1) v))
      as (p & E4 & V4);
      [fits|rewrite Vlv; apply in_int64_iff; nia
      |cbn [value]; rewrite Vlv; apply in_int64_iff; nia|].
    cbn [value] in V4. rewrite Vlv in V4.
    rewrite (bind_arith _ _ _ _ E4).
    destruct (binop_exact Z.mul p (Int64 n)) as (p' & E5 & V5);
      [rewrite V4; apply in_int64_iff; nia|fits
      |cbn [value]; rewrite V4; apply in_int64_iff; lia|].
    cbn [value] in V5. rewrite V4 in V5.
    rewrite (bind_arith _ _ _ _ E5).
    destruct (binop_exact Z.div p' (PyInt 4)) as (points & E6 & V6);
      [rewrite V5; apply in_int64_iff; lia|easy
      |cbn [value]; rewrite V5; fits|].
    cbn [value] in V6. rewrite V5 in V6.
    rewrite (bind_arith _ _ _ _ E6), bind_get_score. cbn [score].
    assert (0 <= 1000 * lv * n / 4 <= 1000 * lv * n).
    { split; [apply Z.div_pos; nia|].
      apply Z.div_le_upper_bound; nia. }
    destruct (binop_exact Z.add (score s) points) as (sc' & E7 & V7);
      [easy|rewrite V6; apply in_int64_iff; lia
      |rewrite V6; apply in_int64_iff; lia|].
    rewrite V6 in V7.
    rewrite (bind_arith _ _ _ _ E7), bind_put_score.
    eexists. split; [reflexivity|]. cbn [board lines_cleared level score].
    rewrite V1, Vlv. easy.
Qed.

(** Counters that fit are updated without an exception.  The new
    [lines_cleared] is an [int64]; the new score is an [int64] that fits,
    unless the old score is a Python integer and the level stays 1, in
    which case the award is added exactly. *)
Lemma update_counters_fit n s :
  1 <= n <= BOARD_HEIGHT ->
  in_int64 (value (lines_cleared s)) = true ->
  in_int64 (value (score s)) = true ->
  exists s',
    update_counters n s = (Ok n, s') /\
    board s' = board s /\
    lines_cleared s' = Int64 (wrap64 (value (lines_cleared s) + n)) /\
    (is_py (score s') = false /\ in_int64 (value (score s')) = true
     \/ is_py (score s') = true /\ is_py (score s) = true /\
        n <= 4 /\ wrap64 (value (lines_cleared s) + n) < 10 /\
        value (score s') = value (score s) + base_points n).
Proof.
  intros Hn Hl Hsc. unfold BOARD_HEIGHT in Hn.
  assert (Hn64 : in_int64 n = true) by fits.
  set (l' := wrap64 (value (lines_cleared s) + n)).
  pose proof (in_int64_wrap64 (value (lines_cleared s) + n)) as Hl'.
  fold l' in Hl'. pose proof (proj1 (in_int64_iff _) Hl') as Rl'.
  unfold update_counters. rewrite bind_get_lines_cleared.
  rewrite (bind_arith _ _ _ _ (binop_fit Z.add _ (Int64 n) Hl Hn64)).
  rewrite andb_false_r. cbn [value]. fold l'.
  rewrite bind_put_lines_cleared, bind_get_lines_cleared. cbn [lines_cleared].
  rewrite (bind_arith _ _ _ _ (binop_fit Z.div (Int64 l') (PyInt 10) Hl' eq_refl)).
  cbn [is_py andb value].
  assert (Hq : wrap64 (l' / 10) = l' / 10) by (apply wrap64_fit; fits).
  rewrite Hq.
  assert (Hq' : in_int64 (l' / 10) = true) by fits.
  rewrite (bind_arith _ _ _ _
             (binop_fit Z.add (Int64 (l' / 10)) (PyInt 1) Hq' eq_refl)).
  cbn [is_py andb value].
  assert (Hv : wrap64 (l' / 10 + 1) = l' / 10 + 1) by (apply wrap64_fit; fits).
  rewrite Hv.
  assert (Hv' : in_int64 (l' / 10 + 1) = true) by fits.
  rewrite bind_put_level. unfold py_max. cbn [value].
  destruct ((1 <=? n) && (n <=? 4)) eqn:Hsmall.
  - apply andb_true_iff in Hsmall as [H1 H4]. apply Z.leb_le in H1, H4.
    pose proof (base_points_range n ltac:(lia)) as Hbase.
    assert (Hb64 : in_int64 (base_points n) = true) by fits.
    rewrite (bind_key _ _ _ _ (dict_get_points n ltac:(lia))).
    rewrite bind_get_level. cbn [level].
    destruct (Z.gtb_spec (l' / 10 + 1) 1) as [Hgt|Hle].
    + rewrite (bind_arith _ _ _ _
                 (binop_fit Z.mul (PyInt (base_points n))
                    (Int64 (l' / 10 + 1)) Hb64 Hv')).
      cbn [is_py andb value]. rewrite bind_get_score. cbn [score].
      rewrite (bind_arith _ _ _ _
                 (binop_fit Z.add (score s) (Int64 _) Hsc
                    (in_int64_wrap64 _))).
      rewrite andb_false_r, bind_put_score.
      eexists. split; [reflexivity|]. cbn [board lines_cleared score].
      split; [easy|]. split; [easy|]. left.
      split; [easy|apply in_int64_wrap64].
    + rewrite (bind_arith _ _ _ _
                 (binop_fit Z.mul (PyInt (base_points n)) (PyInt 1)
                    Hb64 eq_refl)).
      cbn [is_py andb value]. rewrite bind_get_score. cbn [score].
      assert (Hp64 : in_int64 (base_points n * 1) = true) by fits.
      rewrite (bind_arith _ _ _ _
                 (binop_fit Z.add (score s) (PyInt _) Hsc Hp64)).
      rewrite andb_true_r, bind_put_score. cbn [value].
      eexists. split; [reflexivity|]. cbn [board lines_cleared score].
      split; [easy|]. split; [easy|].
      destruct (is_py (score s)); cbn [is_py value].
      * right. split; [easy|]. split; [easy|]. split; [easy|].
        split; [|lia]. Z.div_mod_to_equations. lia.
      * left. split; [easy|apply in_int64_wrap64].
  - rewrite bind_get_level. cbn [level].
    assert (exists p,
              binop Z.mul (PyInt 1000)
                (if l' / 10 + 1 >? 1 then Int64 (l' / 10 + 1) else PyInt 1)
              = Some p /\ in_int64 (value p) = true) as (p & Ep & Hp).
    { destruct (l' / 10 + 1 >? 1).
      - rewrite (binop_fit Z.mul (PyInt 1000) (Int64 _) eq_refl Hv').
        eexists. split; [reflexivity|]. apply in_int64_wrap64.
      - eexists. split; [reflexivity|]. reflexivity. }
    rewrite (bind_arith _ _ _ _ Ep).
    rewrite (bind_arith _ _ _ _ (binop_fit Z.mul p (Int64 n) Hp Hn64)).
    rewrite andb_false_r.
    rewrite (bind_arith _ _ _ _
               (binop_fit Z.div (Int64 _) (PyInt 4)
                  (in_int64_wrap64 _) eq_refl)).
    cbn [is_py andb]. rewrite bind_get_score. cbn [score].
    rewrite (bind_arith _ _ _ _
               (binop_fit Z.add (score s) (Int64 _) Hsc
                  (in_int64_wrap64 _))).
    rewrite andb_false_r, bind_put_score.
    eexists. split; [reflexivity|]. cbn [board lines_cleared score].
    split; [easy|]. split; [easy|]. left.
    split; [easy|apply in_int64_wrap64].
Qed.

Lemma full_row_ones row :
  row_full row = true ->
  length (List.filter (fun v => v =? 1) row) = length row.
Proof.
  unfold row_full. induction row as [|v row IH]; simpl; [easy|].
  intros H. apply andb_true_iff in H as [Hv H]. rewrite Hv. simpl.
  now rewrite IH.
Qed.

Lemma occupied_count_app b1 b2 :
  occupied_count (b1 ++ b2) = occupied_count b1 + occupied_count b2.
Proof. unfold occupied_count. now rewrite map_app, sumZ_app. Qed.

Lemma occupied_count_empty n : occupied_count (replicate n empty_row) = 0.
Proof. induction n as [|n IH]; [easy|]. simpl. exact IH. Qed.

Lemma occupied_count_kept b :
  Forall (fun r => length r = Z.to_nat BOARD_WIDTH) b ->
  occupied_count b
  = occupied_count (kept_rows b) + full_count b * BOARD_WIDTH.
Proof.
  unfold full_count.
  induction 1 as [|row b Hrow Hall IH]; [easy|].
  unfold kept_rows in *. simpl. destruct (row_full row) eqn:Hfull; simpl.
  - unfold occupied_count in *. simpl. rewrite IH.
    rewrite (full_row_ones _ Hfull), Hrow. blia.
  - unfold occupied_count in *. simpl. rewrite IH. lia.
Qed.

Lemma wf_board_cleared b :
  wf_board b = true ->
  wf_board (replicate (Z.to_nat (full_count b)) empty_row ++ kept_rows b) = true.
Proof.
  intros Hwf. apply wf_board_iff in Hwf as [Hlen Hall]. apply wf_board_iff.
  split.
  - rewrite length_app, length_replicate. unfold full_count.
    pose proof (filter_full_kept b). lia.
  - apply Forall_app. split.
    + apply Forall_replicate. unfold empty_row. apply length_replicate.
    + rewrite Forall_forall in *. intros r Hr. apply Hall.
      apply list_elem_of_In in Hr. unfold kept_rows in Hr.
      apply filter_In in Hr as [Hr _]. now apply list_elem_of_In.
Qed.

Lemma full_count_rows b :
  wf_board b = true -> 0 <= full_count b <= BOARD_HEIGHT.
Proof.
  intros Hwf. pose proof (wf_board_nrows _ Hwf) as Hrows.
  unfold nrows in Hrows. unfold full_count.
  pose proof (filter_full_kept b). blia.
Qed.

(** C5. With [n] the number of full rows of a board of the fixed shape,
    and counters whose values fit in 64 bits (as every value that the
    program stores does): if [n = 0], [clear_lines] returns 0 and leaves
    the solver (grid and counters) unchanged; if [n >= 1], it returns [n]
    and the new grid has the same shape and consists of [n] empty rows on
    top of the non-full rows of the old grid in their original order, so
    that the number of occupied cells has decreased by [n * W]. *)
Theorem clear_lines_grid s :
  wf_board (board s) = true ->
  counters_fit s ->
  (full_count (board s) = 0 -> clear_lines s = (Ok 0, s)) /\
  (1 <= full_count (board s) ->
   exists s',
     clear_lines s = (Ok (full_count (board s)), s') /\
     wf_board (board s') = true /\
     board s' = replicate (Z.to_nat (full_count (board s))) empty_row
                ++ kept_rows (board s) /\
     occupied_count (board s')
     = occupied_count (board s) - full_count (board s) * BOARD_WIDTH).
Proof.
  intros Hwf [Hl Hsc]. rewrite (clear_lines_run s Hwf). split.
  - intros ->. reflexivity.
  - intros Hn. destruct (Z.gtb_spec (full_count (board s)) 0); [|lia].
    pose proof (full_count_rows _ Hwf) as Hrange.
    destruct (update_counters_fit (full_count (board s))
                (set_board (replicate (Z.to_nat (full_count (board s)))
                              empty_row ++ kept_rows (board s)) s))
      as (s' & Hrun & Hb & _); [lia|easy|easy|].
    exists s'. split; [exact Hrun|]. rewrite Hb. cbn [set_board board].
    split; [now apply wf_board_cleared|]. split; [reflexivity|].
    rewrite occupied_count_app, occupied_count_empty.
    apply wf_board_iff in Hwf as [_ Hall].
    rewrite (occupied_count_kept _ Hall). lia.
Qed.

Lemma clear_lines_grid_witness :
  clear_lines init = (Ok 0, init) /\
  exists s',
    clear_lines bottom_full = (Ok (full_count (board bottom_full)), s') /\
    wf_board (board s') = true /\
    board s' = replicate (Z.to_nat (full_count (board bottom_full))) empty_row
               ++ kept_rows (board bottom_full) /\
    occupied_count (board s')
    = occupied_count (board bottom_full)
      - full_count (board bottom_full) * BOARD_WIDTH.
Proof.
  split.
  - apply (proj1 (clear_lines_grid init eq_refl (conj eq_refl eq_refl))).
    reflexivity.
  - apply (proj2 (clear_lines_grid bottom_full eq_refl
                    (conj eq_refl eq_refl))).
    vm_compute. discriminate.
Defined.

(** C6 (as amended). When [clear_lines] clears [n >= 1] rows and none of
    the sums and products computed from the counters leaves the [int64]
    range, [lines_cleared] grows by exactly [n]; [level] becomes
    [max(1, lines_cleared // 10 + 1)] of the updated [lines_cleared]; and
    [score] grows by [base_points(n) * level] for [1 <= n <= 4] and by
    [1000 * level * n // 4] for [n > 4], with the recomputed level -- the
    quotient being the truncated one, since the dividend is positive. *)
Theorem clear_lines_counters s :
  wf_board (board s) = true ->
  no_wrap s ->
  1 <= full_count (board s) ->
  exists s',
    clear_lines s = (Ok (full_count (board s)), s') /\
    value (lines_cleared s')
    = value (lines_cleared s) + full_count (board s) /\
    value (level s') = Z.max 1 (value (lines_cleared s') / 10 + 1) /\
    (full_count (board s) <= 4 ->
     value (score s')
     = value (score s) + base_points (full_count (board s)) * value (level s')) /\
    (full_count (board s) > 4 ->
     value (score s')
     = value (score s) + 1000 * value (level s') * full_count (board s) / 4 /\
     1000 * value (level s') * full_count (board s) / 4
     = Z.quot (1000 * value (level s') * full_count (board s)) 4).
Proof.
  intros Hwf (Hl & Hl' & Hprod & Hsc & Hsc') Hn.
  rewrite (clear_lines_run s Hwf).
  destruct (Z.gtb_spec (full_count (board s)) 0); [|lia].
  pose proof (full_count_rows _ Hwf) as Hrange.
  destruct (update_counters_exact (full_count (board s))
              (set_board (replicate (Z.to_nat (full_count (board s)))
                            empty_row ++ kept_rows (board s)) s))
    as (s' & Hrun & _ & Hlines & Hlevel & Hscore); [lia|easy..|].
  cbn [set_board lines_cleared score] in Hlines, Hscore.
  exists s'. split; [exact Hrun|]. split; [exact Hlines|].
  split; [exact Hlevel|]. unfold points_for in Hscore. split.
  - intros Hle.
    destruct (Z.leb_spec 1 (full_count (board s))); [|lia].
    destruct (Z.leb_spec (full_count (board s)) 4); [|lia]. exact Hscore.
  - intros Hgt.
    destruct (Z.leb_spec (full_count (board s)) 4); [lia|].
    rewrite andb_false_r in Hscore. split; [exact Hscore|].
    symmetry. apply Z.quot_div_nonneg; [|lia].
    apply Z.mul_nonneg_nonneg; lia.
Qed.

Lemma clear_lines_counters_witness :
  exists s',
    clear_lines bottom_full = (Ok (full_count (board bottom_full)), s') /\
    value (lines_cleared s')
    = value (lines_cleared bottom_full) + full_count (board bottom_full) /\
    value (level s') = Z.max 1 (value (lines_cleared s') / 10 + 1) /\
    (full_count (board bottom_full) <= 4 ->
     value (score s')
     = value (score bottom_full)
       + base_points (full_count (board bottom_full)) * value (level s')) /\
    (full_count (board bottom_full) > 4 ->
     value (score s')
     = value (score bottom_full)
       + 1000 * value (level s') * full_count (board bottom_full) / 4 /\
     1000 * value (level s') * full_count (board bottom_full) / 4
     = Z.quot (1000 * value (level s') * full_count (board bottom_full)) 4).
Proof.
  apply (clear_lines_counters bottom_full).
  - reflexivity.
  - vm_compute. tauto.
  - vm_compute. discriminate.
Defined.

(** C6, as stated, fails where the [int64] arithmetic wraps around: with
    a score 100 points below [2^63], one line cleared at level 2 does not
    add 200 points: the score becomes negative. *)
Lemma clear_lines_score_wraps :
  wf_board (board near_overflow) = true /\
  full_count (board near_overflow) = 1 /\
  exists s',
    clear_lines near_overflow = (Ok 1, s') /\
    value (lines_cleared s') = value (lines_cleared near_overflow) + 1 /\
    value (level s') = 2 /\
    value (score s') = - 2 ^ 63 + 100 /\
    value (score s')
    <> value (score near_overflow) + base_points 1 * value (level s').
Proof.
  split; [reflexivity|]. split; [reflexivity|].
  eexists. split; [vm_compute; reflexivity|].
  vm_compute. repeat split; discriminate.
Qed.

(** ** [get_rotations] *)

Lemma row_equal_eq r1 r2 : row_equal r1 r2 = true <-> r1 = r2.
Proof.
  revert r2. induction r1 as [|v1 r1 IH]; intros [|v2 r2]; simpl;
    try (split; [discriminate|easy]); [easy|].
  rewrite andb_true_iff, Z.eqb_eq, IH. split.
  - now intros [-> ->].
  - now intros [= -> ->].
Qed.

Lemma array_equal_eq a b : array_equal a b = true <-> a = b.
Proof.
  revert b. induction a as [|r1 a IH]; intros [|r2 b]; simpl;
    try (split; [discriminate|easy]); [easy|].
  rewrite andb_true_iff, row_equal_eq, IH. split.
  - now intros [-> ->].
  - now intros [= -> ->].
Qed.

Lemma any_equal_In x l : any_equal x l = true <-> In x l.
Proof.
  unfold any_equal. rewrite existsb_exists. split.
  - intros (y & Hy & E). apply array_equal_eq in E. now subst.
  - intros H. exists x. split; [easy|]. now apply array_equal_eq.
Qed.

Lemma filter_filter_bool {A : Type} (f g : A -> bool) l :
  List.filter f (List.filter g l) = List.filter (fun x => f x && g x) l.
Proof.
  induction l as [|a l IH]; simpl; [easy|].
  destruct (g a); simpl; rewrite ?andb_true_r, ?andb_false_r.
  - destruct (f a); now rewrite IH.
  - exact IH.
Qed.

Lemma any_equal_snoc x acc y :
  any_equal x (acc ++ [y]) = any_equal x acc || array_equal x y.
Proof.
  unfold any_equal. rewrite existsb_app. simpl. now rewrite orb_false_r.
Qed.

(** The loop of [get_rotations], started from any list [acc] of rotations
    already collected. *)
Lemma get_rotations_fold piece (l : list Z) (acc : list ndarray) :
  fold_left
    (fun rotations i =>
       let rotated := rot90 piece i in
       if negb (any_equal rotated rotations)
       then rotations ++ [rotated]
       else rotations) l acc
  = acc ++ List.filter (fun y => negb (any_equal y acc))
             (keep_first (map (rot90 piece) l)).
Proof.
  revert acc. induction l as [|i l IH]; intros acc; simpl.
  - now rewrite app_nil_r.
  - destruct (any_equal (rot90 piece i) acc) eqn:E; simpl.
    + rewrite IH. f_equal. rewrite filter_filter_bool.
      apply filter_ext. intros y.
      destruct (any_equal y acc) eqn:Ey; simpl; [easy|].
      destruct (array_equal y (rot90 piece i)) eqn:Eq; [|easy].
      apply array_equal_eq in Eq. subst y. congruence.
    + rewrite IH, <- app_assoc. simpl. do 2 f_equal.
      rewrite filter_filter_bool. apply filter_ext. intros y.
      rewrite any_equal_snoc, negb_orb. reflexivity.
Qed.

Lemma get_rotations_keep_first piece :
  get_rotations piece = keep_first (quarter_turns piece).
Proof.
  unfold get_rotations. rewrite get_rotations_fold.
  change (List.filter (fun _ => true) (keep_first (quarter_turns piece))
          = keep_first (quarter_turns piece)).
  generalize (keep_first (quarter_turns piece)).
  intros l. induction l as [|a l IH]; simpl; [easy|]. now rewrite IH.
Qed.

Lemma keep_first_In l x : In x (keep_first l) -> In x l.
Proof.
  induction l as [|a l IH]; simpl; [easy|].
  intros [->|H]; [now left|]. apply filter_In in H as [H _]. right. auto.
Qed.

Lemma NoDup_keep_first l : List.NoDup (keep_first l).
Proof.
  induction l as [|a l IH]; simpl; [constructor|].
  apply List.NoDup_cons.
  - intros H. apply filter_In in H as [_ H].
    rewrite (proj2 (array_equal_eq a a) eq_refl) in H. discriminate.
  - now apply List.NoDup_filter.
Qed.

(** Every quarter turn occurs in the result. *)
Lemma keep_first_complete l x : In x l -> In x (keep_first l).
Proof.
  induction l as [|a l IH]; simpl; [easy|].
  intros [->|H]; [now left|].
  destruct (array_equal x a) eqn:E.
  - apply array_equal_eq in E. now left.
  - right. apply filter_In. split; [auto|]. now rewrite E.
Qed.

(** C9. For every shape, [get_rotations] returns the four quarter-turn
    rotations with exact duplicates dropped and first-seen order kept,
    starting with the unrotated shape; its elements are pairwise distinct,
    and each of them is a quarter turn of the shape.  For the seven base
    tetrominoes the lists have lengths I: 2, O: 1, T: 4, L: 4, J: 4, S: 2,
    Z: 2. *)
Theorem get_rotations_spec :
  (forall piece,
     get_rotations piece = keep_first (quarter_turns piece) /\
     (exists rest, get_rotations piece = piece :: rest) /\
     List.NoDup (get_rotations piece) /\
     (forall q, In q (get_rotations piece) <-> In q (quarter_turns piece))) /\
  map (fun '(k, rotations) => (k, length rotations)) TETROMINOS
  = [ ("I"%string, 2%nat); ("O"%string, 1%nat); ("T"%string, 4%nat);
      ("L"%string, 4%nat); ("J"%string, 4%nat); ("S"%string, 2%nat);
      ("Z"%string, 2%nat) ].
Proof.
  split; [|reflexivity].
  intros piece. rewrite get_rotations_keep_first.
  split; [reflexivity|]. split; [|split].
  - simpl. eexists. reflexivity.
  - apply NoDup_keep_first.
  - intros q. split; [apply keep_first_In|apply keep_first_complete].
Qed.

(** ** [best_move] *)

Lemma can_place_fst s piece x y r :
  fst (can_place piece x y s) = Ok r -> can_place piece x y s = (Ok r, s).
Proof.
  destruct (can_place piece x y s) as [r' s'] eqn:E. simpl. intros ->.
  f_equal. eapply read_only_run; [apply read_only_can_place|eauto].
Qed.

(** The [while] loop of the gravity drop ends within the budget. *)
Lemma gravity_run s piece y fuel x0 :
  wf_board (board s) = true -> rect piece = true ->
  0 <= x0 <= BOARD_HEIGHT -> Z.of_nat fuel + x0 > BOARD_HEIGHT ->
  exists x,
    gravity fuel piece x0 y s = (Ok x, s) /\ x0 <= x /\
    (forall k, x0 <= k < x -> fst (can_place piece (k + 1) y s) = Ok true) /\
    fst (can_place piece (x + 1) y s) = Ok false.
Proof.
  intros Hwf Hrect. revert x0.
  induction fuel as [|fuel IH]; intros x0 Hx0 Hfuel; [lia|].
  simpl gravity.
  destruct (can_place_value s piece (x0 + 1) y Hwf Hrect ltac:(lia))
    as [(E & Hbox & _)|(E & _)]; rewrite (bind_ok _ _ _ _ _ E).
  - destruct Hbox as (_ & Hh & _).
    destruct (IH (x0 + 1)) as (x & Hrun & Hle & Hsteps & Hstop); [lia|lia|].
    exists x. split; [exact Hrun|]. split; [lia|]. split; [|exact Hstop].
    intros k Hk. destruct (Z.eq_dec k x0) as [->|Hne].
    + now rewrite E.
    + apply Hsteps. lia.
  - exists x0. split; [reflexivity|]. split; [lia|]. split.
    + intros k Hk. lia.
    + now rewrite E.
Qed.

Lemma gravity_fuel_enough s piece y fuel :
  wf_board (board s) = true -> rect piece = true ->
  BOARD_HEIGHT < Z.of_nat fuel ->
  exists x, gravity fuel piece 0 y s = (Ok x, s) /\ resting_row s piece y x.
Proof.
  intros Hwf Hrect Hfuel.
  destruct (gravity_run s piece y fuel 0 Hwf Hrect ltac:(blia) ltac:(lia))
    as (x & Hrun & Hle & Hsteps & Hstop).
  exists x. split; [exact Hrun|]. now split.
Qed.

Lemma resting_row_unique s piece y x x' :
  resting_row s piece y x -> resting_row s piece y x' -> x = x'.
Proof.
  intros (Hx & Hs & Hf) (Hx' & Hs' & Hf').
  destruct (Z.lt_trichotomy x x') as [Hlt|[->|Hgt]]; [|easy|].
  - rewrite (Hs' x) in Hf by lia. discriminate.
  - rewrite (Hs x') in Hf' by lia. discriminate.
Qed.

Lemma candidate_unique s piece y x v x' v' :
  candidate s piece y x v -> candidate s piece y x' v' -> x = x' /\ v = v'.
Proof.
  intros (_ & _ & Hr & s1 & Hp & Hv) (_ & _ & Hr' & s1' & Hp' & Hv').
  pose proof (resting_row_unique _ _ _ _ _ Hr Hr') as <-.
  split; [easy|]. rewrite Hp in Hp'. injection Hp' as <-.
  rewrite Hv in Hv'. now injection Hv'.
Qed.

Lemma best_move_fuel_unfold fuel rotations :
  best_move_fuel fuel rotations
  = for_fold (enumerate rotations)
      (fun acc '(r_idx, piece) =>
         for_fold (range 0 (BOARD_WIDTH - Z.of_nat (ncols piece) + 1))
           (try_column fuel r_idx piece) acc)
      (None, NegInf).
Proof. reflexivity. Qed.

(** One column: either the piece cannot enter and the incumbent stays, or
    the column yields a candidate that replaces the incumbent exactly when
    it scores strictly higher.  The solver is left as it was. *)
Lemma try_column_run s fuel r_idx piece y :
  wf_board (board s) = true -> rect piece = true ->
  BOARD_HEIGHT < Z.of_nat fuel ->
  0 <= y <= BOARD_WIDTH - Z.of_nat (ncols piece) ->
  (fst (can_place piece 0 y s) = Ok false /\
   forall acc, try_column fuel r_idx piece acc y s = (Ok acc, s)) \/
  (exists x v,
     candidate s piece y x v /\
     forall bm bs,
       try_column fuel r_idx piece (bm, bs) y s
       = (Ok (if score_gt v bs then (Some (x, y, r_idx), Finite v)
              else (bm, bs)), s)).
Proof.
  intros Hwf Hrect Hfuel Hy.
  destruct (can_place_value s piece 0 y Hwf Hrect ltac:(lia))
    as [(E & _)|(E & _)].
  - right.
    destruct (gravity_fuel_enough s piece y fuel Hwf Hrect Hfuel)
      as (x & Hg & Hrest).
    assert (Hcp : fst (can_place piece x y s) = Ok true).
    { destruct Hrest as (Hx & Hs & _).
      destruct (Z.eq_dec x 0) as [->|Hne]; [now rewrite E|].
      replace x with (x - 1 + 1) by lia. apply Hs. lia. }
    destruct (place_piece_true s piece x y Hwf Hrect Hcp)
      as (b' & Hp & Hwf' & _).
    pose proof (evaluate_board_run (set_board b' s) Hwf') as Hev.
    exists x, (evaluate_reference b'). split.
    + split; [easy|]. split; [now rewrite E|]. split; [easy|].
      exists (set_board b' s). split; [easy|]. now rewrite Hev.
    + intros bm bs. unfold try_column.
      rewrite (bind_ok _ _ _ _ _ E). change (negb true) with false. cbv iota.
      rewrite (bind_ok _ _ _ _ _ Hg).
      unfold bind at 1. unfold get_board at 1. cbv beta iota.
      rewrite (bind_ok _ _ _ _ _ Hp).
      rewrite (bind_ok _ _ _ _ _ Hev).
      unfold bind, put_board. rewrite set_board_set_board, set_board_same.
      now destruct (score_gt _ bs).
  - left. split; [now rewrite E|].
    intros [bm bs]. unfold try_column. now rewrite (bind_ok _ _ _ _ _ E).
Qed.

Lemma best_among_ext (seen seen' : Z -> Z -> Prop) s rotations acc :
  (forall r piece y,
     rotations !! r = Some piece ->
     0 <= y <= BOARD_WIDTH - Z.of_nat (ncols piece) ->
     (seen (Z.of_nat r) y <-> seen' (Z.of_nat r) y)) ->
  best_among seen s rotations acc -> best_among seen' s rotations acc.
Proof.
  intros Hext. destruct acc as [[[[x y] r]|] sc]; simpl.
  - intros (piece & v & Hsc & Hr & Hseen & Hlook & Hcand & Hmax).
    exists piece, v. split; [easy|]. split; [easy|]. split.
    { pose proof (Hext (Z.to_nat r) piece y Hlook (proj1 Hcand)) as H.
      rewrite Z2Nat.id in H by lia. now apply H. }
    split; [easy|]. split; [easy|].
    intros r' piece' y' x' v' Hl Hs Hc.
    apply (Hmax r' piece' y' x' v'); trivial.
    apply (Hext r' piece' y'); trivial. apply Hc.
  - intros [Hsc Hnone]. split; [easy|].
    intros r piece y Hlook Hseen Hy. apply (Hnone r piece y); trivial.
    now apply (Hext r piece y).
Qed.

(** A position seen after column [y] of rotation [k] was seen before it,
    or is that very position. *)
Lemma earlier_next r' y' k y :
  earlier r' y' k (y + 1) -> earlier r' y' k y \/ (r' = k /\ y' = y).
Proof. unfold earlier. lia. Qed.

(** A column where the piece cannot enter leaves the incumbent the best. *)
Lemma best_among_skip s rotations (k : nat) piece y acc :
  rotations !! k = Some piece ->
  fst (can_place piece 0 y s) = Ok false ->
  best_among (fun r' y' => earlier r' y' (Z.of_nat k) y) s rotations acc ->
  best_among (fun r' y' => earlier r' y' (Z.of_nat k) (y + 1)) s rotations acc.
Proof.
  intros Hk Hfalse.
  assert (Hhere : forall r' piece' y',
            rotations !! r' = Some piece' -> Z.of_nat r' = Z.of_nat k -> y' = y ->
            fst (can_place piece' 0 y' s) = Ok false).
  { intros r' piece' y' Hl Hr ->. assert (r' = k) by lia. subst r'.
    rewrite Hk in Hl. now injection Hl as <-. }
  destruct acc as [[[[x0 y0] r0]|] sc]; simpl.
  - intros (piece0 & v0 & Hsc & Hr & Hseen & Hlook & Hcand & Hmax).
    exists piece0, v0. split; [easy|]. split; [easy|].
    split; [unfold earlier in *; lia|]. split; [easy|]. split; [easy|].
    intros r' piece' y' x' v' Hl Hs Hc.
    destruct (earlier_next _ _ _ _ Hs) as [Hs'|[Hr' Hy']].
    + now apply (Hmax r' piece' y' x' v').
    + exfalso. destruct Hc as (_ & Htrue & _).
      rewrite (Hhere r' piece' y' Hl Hr' Hy') in Htrue. discriminate.
  - intros [Hsc Hnone]. split; [easy|].
    intros r piece' y' Hl Hs Hy.
    destruct (earlier_next _ _ _ _ Hs) as [Hs'|[Hr' Hy']].
    + now apply (Hnone r piece' y').
    + now apply (Hhere r piece' y').
Qed.

(** A candidate replaces the incumbent exactly when it scores strictly
    higher. *)
Lemma best_among_candidate s rotations (k : nat) piece y x v bm bs :
  rotations !! k = Some piece ->
  candidate s piece y x v ->
  best_among (fun r' y' => earlier r' y' (Z.of_nat k) y) s rotations (bm, bs) ->
  best_among (fun r' y' => earlier r' y' (Z.of_nat k) (y + 1)) s rotations
    (if score_gt v bs then (Some (x, y, Z.of_nat k), Finite v) else (bm, bs)).
Proof.
  intros Hk Hcand.
  assert (Hhere : forall r' piece' y' x' v',
            rotations !! r' = Some piece' -> Z.of_nat r' = Z.of_nat k -> y' = y ->
            candidate s piece' y' x' v' -> v' = v).
  { intros r' piece' y' x' v' Hl Hr -> Hc.
    assert (r' = k) by lia. subst r'. rewrite Hk in Hl. injection Hl as <-.
    now destruct (candidate_unique _ _ _ _ _ _ _ Hc Hcand). }
  assert (Hnew : earlier (Z.of_nat k) y (Z.of_nat k) (y + 1))
    by (unfold earlier; lia).
  destruct bm as [[[x0 y0] r0]|]; simpl.
  - intros (piece0 & v0 & -> & Hr & Hseen & Hlook & Hcand0 & Hmax). simpl.
    destruct (Z.gtb_spec v v0) as [Hgt|Hle]; simpl.
    + exists piece, v. rewrite Nat2Z.id.
      split; [easy|]. split; [lia|]. split; [easy|]. split; [easy|].
      split; [easy|].
      intros r' piece' y' x' v' Hl Hs Hc.
      destruct (earlier_next _ _ _ _ Hs) as [Hs'|[Hr' Hy']].
      * destruct (Hmax r' piece' y' x' v' Hl Hs' Hc) as [H1 _]. lia.
      * rewrite (Hhere r' piece' y' x' v' Hl Hr' Hy' Hc).
        split; [lia|]. unfold earlier. lia.
    + exists piece0, v0.
      split; [easy|]. split; [easy|].
      split; [unfold earlier in *; lia|]. split; [easy|]. split; [easy|].
      intros r' piece' y' x' v' Hl Hs Hc.
      destruct (earlier_next _ _ _ _ Hs) as [Hs'|[Hr' Hy']].
      * now apply (Hmax r' piece' y' x' v').
      * rewrite (Hhere r' piece' y' x' v' Hl Hr' Hy' Hc).
        split; [lia|]. unfold earlier in *. lia.
  - intros [-> Hnone]. simpl.
    exists piece, v. rewrite Nat2Z.id.
    split; [easy|]. split; [lia|]. split; [easy|]. split; [easy|].
    split; [easy|].
    intros r' piece' y' x' v' Hl Hs Hc.
    destruct (earlier_next _ _ _ _ Hs) as [Hs'|[Hr' Hy']].
    + exfalso. destruct Hc as (Hy' & Htrue & _).
      rewrite (Hnone r' piece' y' Hl Hs' Hy') in Htrue. discriminate.
    + rewrite (Hhere r' piece' y' x' v' Hl Hr' Hy' Hc).
      split; [lia|]. unfold earlier. lia.
Qed.

Lemma range_max lo hi : range lo hi = range lo (Z.max lo hi).
Proof.
  destruct (Z.le_gt_cases lo hi) as [H|H].
  - now rewrite Z.max_r.
  - rewrite Z.max_l by lia. now rewrite !range_nil by lia.
Qed.

Lemma rect_lookup (rotations : list ndarray) k piece :
  forallb rect rotations = true -> rotations !! k = Some piece ->
  rect piece = true.
Proof.
  intros H Hk. rewrite forallb_forall in H. apply H.
  apply list_elem_of_In. eapply list_elem_of_lookup_2. exact Hk.
Qed.

(** The search, for any budget above the board height: it ends without an
    exception, leaves the solver as it was, and returns the
    first-encountered maximum. *)
Lemma best_move_fuel_run s fuel rotations :
  wf_board (board s) = true -> forallb rect rotations = true ->
  BOARD_HEIGHT < Z.of_nat fuel ->
  exists res, best_move_fuel fuel rotations s = (Ok res, s)
              /\ best_of s rotations res.
Proof.
  intros Hwf Hrect Hfuel. rewrite best_move_fuel_unfold.
  destruct (for_fold_enumerate
    (fun k acc s' => s' = s /\ best_among (fun r' _ => r' < k) s rotations acc)
    rotations
    (fun acc '(r_idx, piece) =>
       for_fold (range 0 (BOARD_WIDTH - Z.of_nat (ncols piece) + 1))
         (try_column fuel r_idx piece) acc)
    (None, NegInf) s) as (res & s' & Hrun & -> & Hbest).
  - split; [easy|]. simpl. split; [easy|]. intros r piece y _ Hr. lia.
  - intros k piece acc s1 Hk [-> Hacc].
    pose proof (rect_lookup _ _ _ Hrect Hk) as Hpiece.
    set (hi := BOARD_WIDTH - Z.of_nat (ncols piece) + 1).
    rewrite range_max.
    destruct (for_fold_range
      (fun y acc s' =>
         s' = s /\
         best_among (fun r' y' => earlier r' y' (Z.of_nat k) y) s rotations acc)
      0 (Z.max 0 hi) (try_column fuel (Z.of_nat k) piece) acc s)
      as (acc' & s' & Hrun & -> & Hacc').
    + lia.
    + split; [easy|]. eapply best_among_ext; [|exact Hacc].
      intros r piece' y Hl Hy. unfold earlier. simpl. lia.
    + intros y acc1 s1 Hy [-> Hacc1].
      destruct (try_column_run s fuel (Z.of_nat k) piece y Hwf Hpiece Hfuel)
        as [[Hfalse Hbody]|(x & v & Hcand & Hbody)]; [unfold hi in Hy; lia| |].
      * exists acc1, s. split; [apply Hbody|]. split; [easy|].
        now apply (best_among_skip s rotations k piece).
      * destruct acc1 as [bm bs]. eexists _, s. split; [apply Hbody|].
        split; [easy|]. now apply (best_among_candidate s rotations k piece).
    + exists acc', s. split; [exact Hrun|]. split; [easy|].
      eapply best_among_ext; [|exact Hacc'].
      intros r piece' y Hl Hy. unfold earlier. simpl. split; [lia|].
      intros Hr. destruct (Z.eq_dec (Z.of_nat r) (Z.of_nat k)) as [E|E]; [|lia].
      right. split; [easy|]. assert (r = k) by lia. subst r.
      rewrite Hk in Hl. injection Hl as <-. unfold hi. lia.
  - exists res. split; [exact Hrun|]. unfold best_of.
    eapply best_among_ext; [|exact Hbest].
    intros r piece y Hl _. simpl. split; [easy|]. intros _.
    apply lookup_lt_Some in Hl. lia.
Qed.

(** C2. On a board of the fixed shape and for rectangular rotations,
    [best_move] ends with a result and leaves the solver as it was.  If
    the result is [(None, -inf)], no rotation can enter at the top row in
    any column from 0 to [W - width]; this is the result exactly when no
    such rotation and column exist.  Otherwise the result is [((x, y, r),
    score)] where rotation [r] can enter column [y] (between 0 and
    [W - width]) at the top row, [x] is the resting row reached from row 0
    by unit steps accepted by [can_place], and [score] is the evaluation
    of the board with the piece placed there; every candidate scores at
    most [score], and every candidate met earlier in the enumeration
    (smaller rotation index, or same rotation and smaller column) scores
    strictly less. *)
Theorem best_move_spec s rotations :
  wf_board (board s) = true -> forallb rect rotations = true ->
  exists res,
    best_move rotations s = (Ok res, s) /\
    match res with
    | (None, sc) =>
        sc = NegInf /\
        forall r piece y,
          rotations !! r = Some piece ->
          0 <= y <= BOARD_WIDTH - Z.of_nat (ncols piece) ->
          fst (can_place piece 0 y s) = Ok false
    | (Some (x, y, r), sc) =>
        exists piece v,
          sc = Finite v /\ 0 <= r /\
          rotations !! Z.to_nat r = Some piece /\
          candidate s piece y x v /\
          forall r' piece' y' x' v',
            rotations !! r' = Some piece' ->
            candidate s piece' y' x' v' ->
            v' <= v /\ (earlier (Z.of_nat r') y' r y -> v' < v)
    end /\
    (fst res = None <->
     forall r piece y,
       rotations !! r = Some piece ->
       0 <= y <= BOARD_WIDTH - Z.of_nat (ncols piece) ->
       fst (can_place piece 0 y s) = Ok false).
Proof.
  intros Hwf Hrect.
  destruct (best_move_fuel_run s (S (Z.to_nat BOARD_HEIGHT)) rotations Hwf Hrect)
    as (res & Hrun & Hbest); [blia|].
  exists res. split; [exact Hrun|].
  destruct res as [[[[x y] r]|] sc]; simpl in Hbest |- *.
  - destruct Hbest as (piece & v & Hsc & Hr & _ & Hlook & Hcand & Hmax).
    split.
    + exists piece, v. split; [easy|]. split; [easy|]. split; [easy|].
      split; [easy|]. intros r' piece' y' x' v' Hl Hc.
      now apply (Hmax r' piece' y' x' v').
    + split; [discriminate|]. intros Hnone. exfalso.
      destruct Hcand as (Hy & Htrue & _).
      rewrite (Hnone (Z.to_nat r) piece y Hlook Hy) in Htrue. discriminate.
  - destruct Hbest as [Hsc Hnone].
    assert (Hall : forall r piece y,
              rotations !! r = Some piece ->
              0 <= y <= BOARD_WIDTH - Z.of_nat (ncols piece) ->
              fst (can_place piece 0 y s) = Ok false).
    { intros r piece y Hl Hy. now apply (Hnone r piece y). }
    split; [now split|]. now split.
Qed.

Lemma best_move_spec_witness :
  exists res,
    best_move (get_rotations [[1; 1; 1; 1]]) init = (Ok res, init) /\
    match res with
    | (None, sc) =>
        sc = NegInf /\
        forall r piece y,
          get_rotations [[1; 1; 1; 1]] !! r = Some piece ->
          0 <= y <= BOARD_WIDTH - Z.of_nat (ncols piece) ->
          fst (can_place piece 0 y init) = Ok false
    | (Some (x, y, r), sc) =>
        exists piece v,
          sc = Finite v /\ 0 <= r /\
          get_rotations [[1; 1; 1; 1]] !! Z.to_nat r = Some piece /\
          candidate init piece y x v /\
          forall r' piece' y' x' v',
            get_rotations [[1; 1; 1; 1]] !! r' = Some piece' ->
            candidate init piece' y' x' v' ->
            v' <= v /\ (earlier (Z.of_nat r') y' r y -> v' < v)
    end /\
    (fst res = None <->
     forall r piece y,
       get_rotations [[1; 1; 1; 1]] !! r = Some piece ->
       0 <= y <= BOARD_WIDTH - Z.of_nat (ncols piece) ->
       fst (can_place piece 0 y init) = Ok false).
Proof.
  apply (best_move_spec init (get_rotations [[1; 1; 1; 1]])).
  - reflexivity.
  - reflexivity.
Defined.

(** C8. On a board of the fixed shape and for rectangular rotations,
    [best_move] returns a result, and the solver after the call -- the
    grid and the [score], [lines_cleared] and [level] counters -- equals
    the solver before it: every speculative placement has been undone. *)
Theorem best_move_frame s rotations :
  wf_board (board s) = true -> forallb rect rotations = true ->
  snd (best_move rotations s) = s /\
  exists res, fst (best_move rotations s) = Ok res.
Proof.
  intros Hwf Hrect.
  destruct (best_move_fuel_run s (S (Z.to_nat BOARD_HEIGHT)) rotations Hwf Hrect)
    as (res & Hrun & _); [blia|].
  unfold best_move. rewrite Hrun. split; [reflexivity|]. now exists res.
Qed.

Lemma best_move_frame_witness :
  snd (best_move (get_rotations [[0; 1; 0]; [1; 1; 1]]) bottom_full)
  = bottom_full /\
  exists res,
    fst (best_move (get_rotations [[0; 1; 0]; [1; 1; 1]]) bottom_full) = Ok res.
Proof.
  apply (best_move_frame bottom_full (get_rotations [[0; 1; 0]; [1; 1; 1]])).
  - reflexivity.
  - reflexivity.
Defined.

(** C10. With an empty rotation sequence [best_move] returns
    [(None, -inf)], the no-move signal, and leaves the grid and all
    counters unchanged. *)
Theorem best_move_no_rotations s :
  best_move [] s = (Ok (None, NegInf), s).
Proof. reflexivity. Qed.

(** C1 (as amended). On the empty 10x20 board, [best_move] applied to the
    precomputed rotations of the I piece returns rotation index 0 -- the
    horizontal 1x4 orientation -- at row 19 and column 0, with score
    [-214]; this is the evaluator's score of the board with the piece
    placed there: [0*500 + 4*(-50) + 0*(-50) + 1*(-10) + 4*(-1)], the
    bumpiness being 1. *)
Theorem best_move_I_empty_board :
  exists rotations,
    lookup_key TETROMINOS "I" = Some rotations /\
    rotations !! 0%nat = Some [[1; 1; 1; 1]] /\
    best_move rotations init = (Ok (Some (19, 0, 0), Finite (-214)), init) /\
    fst (bind (place_piece [[1; 1; 1; 1]] 19 0) (fun _ => evaluate_board) init)
    = Ok (-214) /\
    -214 = 0 * 500 + 4 * (-50) + 0 * (-50) + 1 * (-10) + 4 * (-1).
Proof.
  eexists. split; [reflexivity|]. split; [reflexivity|].
  split; [vm_compute; reflexivity|]. split; [vm_compute; reflexivity|].
  reflexivity.
Qed.

(** C1, as stated, fails: the score returned for the I piece on the empty
    board is not [-204], and no horizontal placement on the bottom row
    evaluates to [-204]. *)
Lemma best_move_I_score_not_204 :
  (forall rotations m sc,
     lookup_key TETROMINOS "I" = Some rotations ->
     best_move rotations init = (Ok (Some m, sc), init) ->
     sc <> Finite (-204)) /\
  (forall y, 0 <= y <= 6 ->
     fst (bind (place_piece [[1; 1; 1; 1]] 19 y) (fun _ => evaluate_board) init)
     <> Ok (-204)).
Proof.
  split.
  - intros rotations m sc [= <-]. vm_compute. intros [= <- <-]. discriminate.
  - intros y Hy.
    assert (E : y = 0 \/ y = 1 \/ y = 2 \/ y = 3 \/ y = 4 \/ y = 5 \/ y = 6)
      by lia.
    destruct E as [->|[->|[->|[->|[->|[->| ->]]]]]]; vm_compute; discriminate.
Qed.

(** ** Worked examples *)

(** A 1x1 piece dropped into an empty column rests on the bottom row. *)
Example gravity_single_cell :
  gravity (S (Z.to_nat BOARD_HEIGHT)) [[1]] 0 3 init = (Ok 19, init).
Proof. reflexivity. Qed.

(** One line at level 2 is worth 200 points.  The counters now hold
    [int64] scalars. *)
Example clear_lines_bottom_full :
  clear_lines bottom_full
  = (Ok 1, {| board := board init; score := Int64 200;
              lines_cleared := Int64 10; level := Int64 2 |}).
Proof. reflexivity. Qed.

(** Five lines at once take the second scoring branch:
    [1000 * 1 * 5 // 4 = 1250].  The level is the Python integer 1 that
    [max] returns. *)
Example clear_lines_five_full :
  clear_lines five_full
  = (Ok 5, {| board := board init; score := Int64 1250;
              lines_cleared := Int64 5; level := PyInt 1 |}).
Proof. reflexivity. Qed.

(** While the level is the Python integer 1 and the score a Python
    integer, the award is added as a Python integer. *)
Example clear_lines_python_score :
  clear_lines
    {| board := board bottom_full; score := PyInt 40;
       lines_cleared := PyInt 3; level := PyInt 1 |}
  = (Ok 1, {| board := board init; score := PyInt 140;
              lines_cleared := Int64 4; level := PyInt 1 |}).
Proof. reflexivity. Qed.

(** 100 points below [2^63] the sum wraps around: the score becomes
    negative, whether it was held as a Python integer or as an [int64]. *)
Example clear_lines_near_overflow :
  clear_lines near_overflow
  = (Ok 1, {| board := board init; score := Int64 (- 2 ^ 63 + 100);
              lines_cleared := Int64 10; level := Int64 2 |}) /\
  clear_lines
    {| board := board near_overflow; score := Int64 (2 ^ 63 - 100);
       lines_cleared := Int64 19; level := Int64 2 |}
  = (Ok 1, {| board := board init; score := Int64 (- 2 ^ 63 + 200);
              lines_cleared := Int64 20; level := Int64 3 |}).
Proof. split; vm_compute; reflexivity. Qed.

(** A Python integer beyond the [int64] range cannot be added to the
    [int64] award: [OverflowError] is raised by [self.score += points],
    after the board has been replaced and [lines_cleared] and [level]
    have been updated. *)
Example clear_lines_beyond_int64 :
  clear_lines beyond_int64
  = (Raise OverflowError,
     {| board := board init; score := PyInt (2 ^ 64);
        lines_cleared := Int64 10; level := Int64 2 |}).
Proof. vm_compute. reflexivity. Qed.

(** No full row, one column of height 2 with one hole under it:
    [0*500 + 4*(-50) + 1*(-50) + 2*(-10) + 2*(-1)]. *)
Example evaluate_board_one_hole :
  evaluate_board one_hole = (Ok (-272), one_hole).
Proof. reflexivity. Qed.

(** The vertical I piece is accepted in the rightmost column only down to
    row 16. *)
Example can_place_vertical_I :
  fst (can_place [[1]; [1]; [1]; [1]] 16 9 init) = Ok true /\
  fst (can_place [[1]; [1]; [1]; [1]] 17 9 init) = Ok false.
Proof. split; reflexivity. Qed.

(** Below row [-20] the row index is out of range and [can_place] raises. *)
Example can_place_raises :
  can_place [[1; 1; 1; 1]] (-21) 0 init = (Raise IndexError, init).
Proof. reflexivity. Qed.

(** * Further properties *)

(** ** The precomputed rotation table *)

Lemma tetrominos_rect : forallb (forallb rect) (map snd TETROMINOS) = true.
Proof. reflexivity. Qed.

Lemma tetromino_rect rotations piece :
  In rotations (map snd TETROMINOS) -> In piece rotations -> rect piece = true.
Proof.
  intros Hr Hp. pose proof tetrominos_rect as H.
  rewrite forallb_forall in H. specialize (H rotations Hr).
  rewrite forallb_forall in H. now apply H.
Qed.

Lemma tetromino_rotations_rect rotations :
  In rotations (map snd TETROMINOS) -> forallb rect rotations = true.
Proof.
  intros Hr. pose proof tetrominos_rect as H.
  rewrite forallb_forall in H. now apply H.
Qed.

(** ** [drop_piece] *)

Lemma can_place_decided s piece x y :
  wf_board (board s) = true -> rect piece = true -> 0 <= x ->
  exists ok, can_place piece x y s = (Ok ok, s).
Proof.
  intros Hwf Hrect Hx.
  destruct (can_place_value s piece x y Hwf Hrect Hx) as [[E _]|[E _]]; eauto.
Qed.

Lemma drop_piece_run s piece y :
  wf_board (board s) = true -> rect piece = true ->
  exists x, resting_row s piece y x /\
            drop_piece piece y s = place_piece piece x y s.
Proof.
  intros Hwf Hrect.
  destruct (gravity_fuel_enough s piece y (S (Z.to_nat BOARD_HEIGHT)) Hwf Hrect)
    as (x & Hg & Hrest); [blia|].
  exists x. split; [exact Hrest|].
  unfold drop_piece. now rewrite (bind_ok _ _ _ _ _ Hg).
Qed.

(** X1. [drop_piece] always ends without an exception.  The piece goes to
    the resting row [x] of the column -- the first row, counted from 0,
    from which [can_place] refuses one more step down; there the piece
    stands on the floor or on an occupied cell.  If [can_place] accepts
    row [x], the call returns [True] and writes the piece there, the
    counters unchanged; if not, it returns [False] and changes nothing.
    When the piece can enter at row 0 the first case applies. *)
Theorem drop_piece_spec s piece y :
  wf_board (board s) = true -> rect piece = true ->
  exists x,
    resting_row s piece y x /\
    (fst (can_place piece x y s) = Ok true ->
     exists b',
       drop_piece piece y s = (Ok true, set_board b' s) /\
       wf_board b' = true /\
       forall r c,
         (covered piece x y r c -> cell b' r c = 1) /\
         (~ covered piece x y r c -> cell b' r c = cell (board s) r c)) /\
    (fst (can_place piece x y s) = Ok false ->
     drop_piece piece y s = (Ok false, s)) /\
    (fst (can_place piece 0 y s) = Ok true ->
     fst (can_place piece x y s) = Ok true) /\
    (0 <= y -> y + Z.of_nat (ncols piece) <= BOARD_WIDTH ->
     x + 1 + Z.of_nat (nrows piece) > BOARD_HEIGHT
     \/ overlaps (board s) piece (x + 1) y).
Proof.
  intros Hwf Hrect.
  destruct (drop_piece_run s piece y Hwf Hrect) as (x & Hrest & Hdrop).
  exists x. split; [exact Hrest|]. rewrite Hdrop.
  destruct Hrest as (Hx & Hsteps & Hstop).
  split; [|split; [|split]].
  - intros H. destruct (place_piece_true s piece x y Hwf Hrect H)
      as (b' & Hrun & Hwf' & Hp).
    exists b'. split; [easy|]. split; [easy|]. apply Hp.
  - apply place_piece_false.
  - intros H0. destruct (Z.eq_dec x 0) as [->|Hne]; [easy|].
    replace x with (x - 1 + 1) by lia. apply Hsteps. lia.
  - intros Hy Hw.
    destruct (can_place_value s piece (x + 1) y Hwf Hrect ltac:(lia))
      as [[E _]|[_ [Hbox|Hov]]].
    + rewrite E in Hstop. discriminate.
    + left. unfold box_in_bounds in Hbox. lia.
    + now right.
Qed.

Lemma drop_piece_spec_witness :
  exists x,
    resting_row init [[1; 1]; [1; 1]] 4 x /\
    (fst (can_place [[1; 1]; [1; 1]] x 4 init) = Ok true ->
     exists b',
       drop_piece [[1; 1]; [1; 1]] 4 init = (Ok true, set_board b' init) /\
       wf_board b' = true /\
       forall r c,
         (covered [[1; 1]; [1; 1]] x 4 r c -> cell b' r c = 1) /\
         (~ covered [[1; 1]; [1; 1]] x 4 r c ->
          cell b' r c = cell (board init) r c)) /\
    (fst (can_place [[1; 1]; [1; 1]] x 4 init) = Ok false ->
     drop_piece [[1; 1]; [1; 1]] 4 init = (Ok false, init)) /\
    (fst (can_place [[1; 1]; [1; 1]] 0 4 init) = Ok true ->
     fst (can_place [[1; 1]; [1; 1]] x 4 init) = Ok true) /\
    (0 <= 4 -> 4 + Z.of_nat (ncols [[1; 1]; [1; 1]]) <= BOARD_WIDTH ->
     x + 1 + Z.of_nat (nrows [[1; 1]; [1; 1]]) > BOARD_HEIGHT
     \/ overlaps (board init) [[1; 1]; [1; 1]] (x + 1) 4).
Proof.
  apply (drop_piece_spec init [[1; 1]; [1; 1]] 4).
  - reflexivity.
  - reflexivity.
Defined.

(** X2. The move that [best_move] returns is the one [drop_piece] makes:
    with [(x, y, r)] the returned placement, [rotations[r]] exists, its
    bounding box at [(x, y)] lies within the board, [place_piece] accepts
    it, the board it produces evaluates to the returned score, and
    [drop_piece(rotations[r], y)] does exactly what
    [place_piece(rotations[r], x, y)] does. *)
Theorem best_move_drop_piece s rotations x y r sc :
  wf_board (board s) = true -> forallb rect rotations = true ->
  fst (best_move rotations s) = Ok (Some (x, y, r), sc) ->
  exists piece v s',
    getitem1 rotations r = Some piece /\
    sc = Finite v /\
    box_in_bounds piece x y /\
    place_piece piece x y s = (Ok true, s') /\
    evaluate_board s' = (Ok v, s') /\
    drop_piece piece y s = (Ok true, s').
Proof.
  intros Hwf Hrect Hres.
  destruct (best_move_fuel_run s (S (Z.to_nat BOARD_HEIGHT)) rotations Hwf Hrect)
    as (res & Hrun & Hbest); [blia|].
  unfold best_move in Hres. rewrite Hrun in Hres. simpl in Hres.
  injection Hres as ->. simpl in Hbest.
  destruct Hbest as (piece & v & -> & Hr & _ & Hlook & Hcand & _).
  pose proof (rect_lookup _ _ _ Hrect Hlook) as Hpiece.
  destruct Hcand as (Hy & Htop & Hrest & s' & Hplace & Hev).
  assert (Hx : 0 <= x) by apply Hrest.
  assert (Htrue : fst (can_place piece x y s) = Ok true).
  { destruct Hrest as (_ & Hsteps & _).
    destruct (Z.eq_dec x 0) as [->|Hne]; [easy|].
    replace x with (x - 1 + 1) by lia. apply Hsteps. lia. }
  destruct (place_piece_true s piece x y Hwf Hpiece Htrue)
    as (b' & Hplace' & Hwf' & _).
  rewrite Hplace in Hplace'. injection Hplace' as ->.
  exists piece, v, (set_board b' s).
  split; [now apply getitem1_nonneg|]. split; [easy|]. split.
  { destruct (can_place_value s piece x y Hwf Hpiece Hx) as [[_ [Hb _]]|[E _]];
      [easy|]. rewrite E in Htrue. discriminate. }
  split; [easy|]. split.
  { pose proof (evaluate_board_run (set_board b' s) Hwf') as Hev'.
    rewrite Hev' in Hev |- *. simpl in Hev. now injection Hev as <-. }
  destruct (drop_piece_run s piece y Hwf Hpiece) as (x' & Hrest' & Hdrop).
  rewrite (resting_row_unique _ _ _ _ _ Hrest' Hrest) in Hdrop.
  now rewrite Hdrop.
Qed.

Lemma best_move_drop_piece_witness :
  exists piece v s',
    getitem1 (get_rotations [[1; 1; 1; 1]]) 0 = Some piece /\
    Finite (-214) = Finite v /\
    box_in_bounds piece 19 0 /\
    place_piece piece 19 0 init = (Ok true, s') /\
    evaluate_board s' = (Ok v, s') /\
    drop_piece piece 0 init = (Ok true, s').
Proof.
  apply (best_move_drop_piece init (get_rotations [[1; 1; 1; 1]]) 19 0 0).
  - reflexivity.
  - reflexivity.
  - vm_compute. reflexivity.
Defined.

(** ** [game_over] *)

Lemma game_over_scan s :
  wf_board (board s) = true ->
  for_return (map snd TETROMINOS) (fun rotations =>
    for_return rotations (fun piece =>
      for_return (range 0 (BOARD_WIDTH - snd (shape piece) + 1))
        (fun y =>
           do ok <- can_place piece 0 y;
           if ok then ret (Some false) else ret None))) s
  = (Ok (first_some (fun rotations =>
           first_some (fun piece =>
             first_some (enter_test s piece)
               (range 0 (BOARD_WIDTH - snd (shape piece) + 1)))
             rotations)
         (map snd TETROMINOS)), s).
Proof.
  intros Hwf.
  apply for_return_first_some. intros rotations Hr. apply list_elem_of_In in Hr.
  apply for_return_first_some. intros piece Hp. apply list_elem_of_In in Hp.
  apply for_return_first_some. intros y Hy.
  pose proof (tetromino_rect _ _ Hr Hp) as Hrect.
  destruct (can_place_decided s piece 0 y Hwf Hrect ltac:(lia)) as [ok E].
  rewrite (bind_ok _ _ _ _ _ E). unfold enter_test. rewrite E.
  now destruct ok.
Qed.

(** What [game_over] returns, on a board of the fixed shape. *)
Lemma game_over_run s :
  wf_board (board s) = true ->
  exists r,
    game_over s = (Ok r, s) /\
    (r = true <->
     forall rotations piece y,
       In rotations (map snd TETROMINOS) -> In piece rotations ->
       0 <= y <= BOARD_WIDTH - Z.of_nat (ncols piece) ->
       fst (can_place piece 0 y s) = Ok false).
Proof.
  intros Hwf. unfold game_over.
  rewrite (bind_ok _ _ _ _ _ (game_over_scan s Hwf)).
  destruct (first_some _ _) as [v|] eqn:E.
  - apply first_some_Some in E as (rotations & Hr & E).
    apply first_some_Some in E as (piece & Hp & E).
    apply first_some_Some in E as (y & Hy & E).
    apply list_elem_of_In in Hr, Hp. apply elem_of_range in Hy.
    unfold enter_test in E.
    destruct (fst (can_place piece 0 y s)) as [[|]| |] eqn:Ecp;
      try discriminate.
    injection E as <-. exists false. split; [reflexivity|].
    split; [discriminate|]. intros Hall. exfalso.
    rewrite (Hall rotations piece y Hr Hp) in Ecp; [discriminate|].
    simpl in Hy. lia.
  - exists true. split; [reflexivity|]. split; [|reflexivity]. intros _.
    intros rotations piece y Hr Hp Hy.
    rewrite first_some_None in E.
    specialize (E rotations (proj2 (list_elem_of_In _ _) Hr)).
    rewrite first_some_None in E.
    specialize (E piece (proj2 (list_elem_of_In _ _) Hp)).
    rewrite first_some_None in E.
    assert (Hy' : y ∈ range 0 (BOARD_WIDTH - snd (shape piece) + 1))
      by (apply elem_of_range; simpl; lia).
    specialize (E y Hy'). unfold enter_test in E.
    pose proof (tetromino_rect _ _ Hr Hp) as Hrect.
    destruct (can_place_decided s piece 0 y Hwf Hrect ltac:(lia)) as [ok Eok].
    rewrite Eok in E |- *. simpl in E |- *. now destruct ok.
Qed.

(** X3. [game_over] leaves the solver unchanged and never raises.  It
    returns [True] exactly when no rotation of any of the seven families
    is accepted by [can_place] at row 0 in any column from 0 to
    [W - width]. *)
Theorem game_over_spec s :
  wf_board (board s) = true ->
  exists r,
    game_over s = (Ok r, s) /\
    (r = true <->
     forall rotations piece y,
       In rotations (map snd TETROMINOS) -> In piece rotations ->
       0 <= y <= BOARD_WIDTH - Z.of_nat (ncols piece) ->
       fst (can_place piece 0 y s) = Ok false).
Proof. exact (game_over_run s). Qed.

Lemma game_over_spec_witness :
  exists r,
    game_over init = (Ok r, init) /\
    (r = true <->
     forall rotations piece y,
       In rotations (map snd TETROMINOS) -> In piece rotations ->
       0 <= y <= BOARD_WIDTH - Z.of_nat (ncols piece) ->
       fst (can_place piece 0 y init) = Ok false).
Proof. apply (game_over_spec init). reflexivity. Defined.




(** ** Occupied cells and binary cells under [place_piece] *)

Lemma occupied_count_cons row b :
  occupied_count (row :: b) = ones row + occupied_count b.
Proof. reflexivity. Qed.

Lemma ones_app r1 r2 : ones (r1 ++ r2) = ones r1 + ones r2.
Proof. unfold ones. rewrite List.filter_app, length_app. lia. Qed.

Lemma ones_insert row c v :
  row !! c = Some v -> v <> 1 -> ones (<[c := 1]> row) = ones row + 1.
Proof.
  revert c. induction row as [|a row IH]; intros [|c]; simpl; try easy.
  - intros [= ->] Hv. unfold ones. simpl.
    destruct (Z.eqb_spec v 1); [contradiction|]. lia.
  - intros Hc Hv. specialize (IH c Hc Hv). unfold ones in *. simpl.
    destruct (a =? 1); simpl; lia.
Qed.

Lemma occupied_count_insert (b : ndarray) r row row' :
  b !! r = Some row ->
  occupied_count (<[r := row']> b) = occupied_count b - ones row + ones row'.
Proof.
  revert r. induction b as [|a b IH]; intros [|r]; simpl; try easy.
  - intros [= ->]. rewrite !occupied_count_cons. lia.
  - intros Hr. rewrite !occupied_count_cons, (IH r Hr). lia.
Qed.

Lemma binary_board_iff b :
  binary_board b = true <-> Forall (Forall (fun v => v = 0 \/ v = 1)) b.
Proof.
  unfold binary_board. rewrite forallb_forall, Forall_forall. split.
  - intros H row Hr. apply list_elem_of_In in Hr. specialize (H row Hr).
    rewrite forallb_forall in H. apply Forall_forall. intros v Hv.
    apply list_elem_of_In in Hv. specialize (H v Hv). lia.
  - intros H row Hr. apply list_elem_of_In in Hr. specialize (H row Hr).
    rewrite Forall_forall in H. apply forallb_forall. intros v Hv.
    apply list_elem_of_In in Hv. specialize (H v Hv). lia.
Qed.

Lemma setitem_board_explicit b i j v :
  wf_board b = true ->
  - BOARD_HEIGHT <= i < BOARD_HEIGHT -> 0 <= j < BOARD_WIDTH ->
  exists row old,
    b !! Z.to_nat (board_row i) = Some row /\
    row !! Z.to_nat j = Some old /\
    old = cell b (board_row i) j /\
    setitem b i j v
    = Some (<[Z.to_nat (board_row i) := <[Z.to_nat j := v]> row]> b).
Proof.
  intros Hwf Hi Hj. pose proof (board_row_range _ Hi) as HR.
  unfold setitem. rewrite (wf_board_nrows _ Hwf), (wf_board_ncols _ Hwf).
  rewrite (norm_index_board_row _ Hi). simpl.
  destruct (b !! Z.to_nat (board_row i)) as [row|] eqn:Erow.
  2:{ apply lookup_ge_None in Erow.
      pose proof (wf_board_nrows _ Hwf) as Hn. unfold nrows in Hn. lia. }
  simpl. rewrite norm_index_nonneg by lia. simpl.
  pose proof (wf_board_row _ _ _ Hwf Erow) as Hlen.
  destruct (row !! Z.to_nat j) as [old|] eqn:Eold.
  2:{ apply lookup_ge_None in Eold. lia. }
  exists row, old. split; [easy|]. split; [easy|]. split; [|easy].
  unfold cell. destruct (Z.leb_spec 0 (board_row i)); [|lia].
  destruct (Z.leb_spec 0 j); [|lia]. simpl. rewrite Erow. simpl.
  now rewrite Eold.
Qed.

(** Writing a 1: the shape and binary cells are kept, and the number of
    occupied cells grows by one when the cell was not occupied. *)
Lemma board_set_count s i j :
  wf_board (board s) = true ->
  - BOARD_HEIGHT <= i < BOARD_HEIGHT -> 0 <= j < BOARD_WIDTH ->
  exists b',
    board_set i j 1 s = (Ok tt, set_board b' s) /\
    wf_board b' = true /\
    (forall r c, cell b' r c
                 = if (r =? board_row i) && (c =? j) then 1
                   else cell (board s) r c) /\
    (binary_board (board s) = true -> binary_board b' = true) /\
    (cell (board s) (board_row i) j <> 1 ->
     occupied_count b' = occupied_count (board s) + 1).
Proof.
  intros Hwf Hi Hj.
  destruct (setitem_board_explicit _ _ _ 1 Hwf Hi Hj)
    as (row & old & Hrow & Hold & Hcell & Hset).
  destruct (setitem_board _ _ _ 1 Hwf Hi Hj) as (b' & Hset' & Hwf' & Hcells).
  rewrite Hset in Hset'. injection Hset' as <-.
  eexists. split.
  { unfold board_set, bind, get_board. rewrite Hset. reflexivity. }
  split; [easy|]. split; [easy|]. split.
  - rewrite !binary_board_iff. intros Hbin. apply Forall_insert; [easy|].
    apply Forall_insert; [|now right].
    rewrite Forall_forall in Hbin. apply Hbin.
    eapply list_elem_of_lookup_2. exact Hrow.
  - intros Hfree. rewrite (occupied_count_insert _ _ row _ Hrow).
    rewrite (ones_insert row _ old Hold); [lia|]. now rewrite Hcell.
Qed.

Lemma piece_row_cell piece ki kj :
  rect piece = true ->
  0 <= ki < Z.of_nat (nrows piece) -> 0 <= kj < Z.of_nat (ncols piece) ->
  exists row,
    piece !! Z.to_nat ki = Some row /\ length row = ncols piece /\
    row !! Z.to_nat kj = Some (cell piece ki kj).
Proof.
  intros Hrect Hi Hj.
  destruct (piece !! Z.to_nat ki) as [row|] eqn:Erow.
  2:{ apply lookup_ge_None in Erow. unfold nrows in Hi. lia. }
  pose proof (rect_rows _ _ _ Hrect Erow) as Hlen.
  exists row. split; [easy|]. split; [easy|].
  unfold cell. destruct (Z.leb_spec 0 ki); [|lia].
  destruct (Z.leb_spec 0 kj); [|lia]. simpl. rewrite Erow. simpl.
  destruct (row !! Z.to_nat kj) eqn:E; [easy|].
  apply lookup_ge_None in E. lia.
Qed.

Lemma scanned_next_cell piece ki kj :
  rect piece = true ->
  0 <= ki < Z.of_nat (nrows piece) -> 0 <= kj < Z.of_nat (ncols piece) ->
  scanned piece ki (kj + 1)
  = scanned piece ki kj + (if cell piece ki kj =? 1 then 1 else 0).
Proof.
  intros Hrect Hi Hj.
  destruct (piece_row_cell piece ki kj Hrect Hi Hj) as (row & Hrow & _ & Hc).
  unfold scanned. rewrite Hrow. simpl.
  replace (Z.to_nat (kj + 1)) with (S (Z.to_nat kj)) by lia.
  rewrite (take_S_r row _ _ Hc), ones_app. unfold ones at 2. simpl.
  destruct (cell piece ki kj =? 1); simpl; lia.
Qed.

Lemma scanned_next_row piece ki :
  rect piece = true -> 0 <= ki < Z.of_nat (nrows piece) ->
  scanned piece (ki + 1) 0 = scanned piece ki (Z.of_nat (ncols piece)).
Proof.
  intros Hrect Hi.
  destruct (piece !! Z.to_nat ki) as [row|] eqn:Erow.
  2:{ apply lookup_ge_None in Erow. unfold nrows in Hi. lia. }
  pose proof (rect_rows _ _ _ Hrect Erow) as Hlen.
  unfold scanned. rewrite Erow. simpl.
  replace (Z.to_nat (ki + 1)) with (S (Z.to_nat ki)) by lia.
  rewrite (take_S_r piece _ _ Erow), occupied_count_app.
  rewrite Nat2Z.id, (take_ge row) by lia.
  change (Z.to_nat 0) with 0%nat. rewrite take_0.
  change (occupied_count [row]) with (ones row + 0).
  change (ones []) with 0. lia.
Qed.

Lemma scanned_all piece :
  scanned piece (Z.of_nat (nrows piece)) 0 = occupied_count piece.
Proof.
  unfold scanned. rewrite Nat2Z.id. unfold nrows. rewrite (take_ge piece) by lia.
  change (Z.to_nat 0) with 0%nat. rewrite take_0.
  change (ones []) with 0. lia.
Qed.

Lemma place_piece_writes_count s piece x y :
  wf_board (board s) = true -> rect piece = true ->
  0 <= y -> y + Z.of_nat (ncols piece) <= BOARD_WIDTH ->
  x + Z.of_nat (nrows piece) <= BOARD_HEIGHT ->
  (forall i j,
     0 <= i < Z.of_nat (nrows piece) -> 0 <= j < Z.of_nat (ncols piece) ->
     cell piece i j = 1 -> - BOARD_HEIGHT <= x + i) ->
  exists b',
    for_each (range 0 (Z.of_nat (nrows piece))) (fun i =>
      for_each (range 0 (Z.of_nat (ncols piece))) (fun j =>
        do p <- index (getitem piece i j);
        if p =? 1 then board_set (x + i) (y + j) 1 else ret tt)) s
    = (Ok tt, set_board b' s) /\
    wf_board b' = true /\
    (binary_board (board s) = true -> binary_board b' = true) /\
    (0 <= x ->
     (forall i j,
        0 <= i < Z.of_nat (nrows piece) -> 0 <= j < Z.of_nat (ncols piece) ->
        cell piece i j = 1 -> cell (board s) (x + i) (y + j) <> 1) ->
     occupied_count b' = occupied_count (board s) + occupied_count piece).
Proof.
  intros Hwf Hrect Hy Hw Hh Hlow.
  set (h := Z.of_nat (nrows piece)). set (w := Z.of_nat (ncols piece)).
  set (Free := forall i j,
        0 <= i < h -> 0 <= j < w ->
        cell piece i j = 1 -> cell (board s) (x + i) (y + j) <> 1).
  set (Inv := fun (ki kj : Z) (_ : unit) (s' : TetrisSolver) =>
    exists b', s' = set_board b' s /\ wf_board b' = true /\
               painted (covered_upto piece x y ki kj) (board s) b' /\
               (binary_board (board s) = true -> binary_board b' = true) /\
               (0 <= x -> Free ->
                occupied_count b'
                = occupied_count (board s) + scanned piece ki kj)).
  unfold for_each.
  destruct (for_fold_range (fun k => Inv k 0) 0 h
              (fun (_ : unit) i =>
                 for_fold (range 0 w) (fun (_ : unit) j =>
                   do p <- index (getitem piece i j);
                   if p =? 1 then board_set (x + i) (y + j) 1 else ret tt) tt)
              tt s) as ([] & s' & Hrun & b' & -> & Hwf' & _ & Hbin & Hcnt).
  - unfold h. lia.
  - exists (board s). split; [now rewrite set_board_same|]. split; [easy|].
    split; [|split; [easy|]].
    + intros r c. split; [|easy]. intros (i & j & Hij & Hi & Hj & _). lia.
    + intros _ _. unfold scanned. simpl. unfold occupied_count, ones. simpl.
      lia.
  - intros ki [] s1 Hki HI.
    destruct (for_fold_range (fun k => Inv ki k) 0 w
                (fun (_ : unit) j =>
                   do p <- index (getitem piece ki j);
                   if p =? 1 then board_set (x + ki) (y + j) 1 else ret tt)
                tt s1) as ([] & s2 & Hrun & HI2).
    + unfold w. lia.
    + exact HI.
    + intros kj [] s2 Hkj (b2 & -> & Hwf2 & Hp2 & Hbin2 & Hcnt2).
      rewrite (bind_ok _ _ _ (cell piece ki kj) (set_board b2 s)).
      2:{ rewrite getitem_rect by (trivial; fold h; fold w; lia). reflexivity. }
      pose proof (scanned_next_cell piece ki kj Hrect Hki Hkj) as Hscan.
      destruct (Z.eqb_spec (cell piece ki kj) 1) as [Hocc|Hocc].
      * destruct (board_set_count (set_board b2 s) (x + ki) (y + kj))
          as (b3 & Hset & Hwf3 & Hcell & Hbin3 & Hcnt3); [easy| |lia|].
        { specialize (Hlow ki kj Hki Hkj Hocc). fold h in Hh. lia. }
        simpl in Hcell, Hbin3, Hcnt3.
        exists tt, (set_board b3 s). split; [exact Hset|].
        exists b3. split; [easy|]. split; [easy|]. split; [|split].
        -- intros r c. rewrite Hcell.
           destruct (Z.eqb_spec r (board_row (x + ki))) as [Hr|Hr];
             [destruct (Z.eqb_spec c (y + kj)) as [Hc|Hc]|]; simpl.
           ++ split; [easy|]. intros Hn. exfalso. apply Hn.
              exists ki, kj. repeat split; trivial; lia.
           ++ destruct (Hp2 r c) as [H1 H2]. split.
              ** intros (i & j & Hij & Hi & Hj & Ho & Hri & Hcj). apply H1.
                 assert (Hij' : i < ki \/ (i = ki /\ j < kj)) by lia.
                 exists i, j. repeat split; trivial; lia.
              ** intros Hn. apply H2. intros (i & j & Hij & Hi & Hj & Hrest).
                 apply Hn. exists i, j. split; [|easy]. lia.
           ++ destruct (Hp2 r c) as [H1 H2]. split.
              ** intros (i & j & Hij & Hi & Hj & Ho & Hri & Hcj). apply H1.
                 assert (Hij' : i < ki \/ (i = ki /\ j < kj)).
                 { destruct Hij as [?|[-> ?]]; [now left|contradiction]. }
                 exists i, j. repeat split; trivial; lia.
              ** intros Hn. apply H2. intros (i & j & Hij & Hi & Hj & Hrest).
                 apply Hn. exists i, j. split; [|easy]. lia.
        -- auto.
        -- intros Hx Hfree. rewrite Hscan, Hcnt3, (Hcnt2 Hx Hfree); [lia|].
           rewrite board_row_nonneg by lia.
           destruct (Hp2 (x + ki) (y + kj)) as [_ H2]. rewrite H2.
           ++ now apply Hfree.
           ++ intros (i & j & Hij & Hi & Hj & _ & Hri & Hcj).
              rewrite board_row_nonneg in Hri by lia. lia.
      * exists tt, (set_board b2 s). split; [reflexivity|].
        exists b2. split; [easy|]. split; [easy|]. split; [|split].
        -- intros r c. destruct (Hp2 r c) as [H1 H2]. split.
           ++ intros (i & j & Hij & Hi & Hj & Ho & Hri & Hcj). apply H1.
              assert (Hij' : i < ki \/ (i = ki /\ j < kj)).
              { destruct Hij as [?|[-> ?]]; [now left|].
                right. split; [easy|]. assert (j <> kj) by congruence. lia. }
              exists i, j. repeat split; trivial; lia.
           ++ intros Hn. apply H2. intros (i & j & Hij & Hi & Hj & Hrest).
              apply Hn. exists i, j. split; [|easy]. lia.
        -- easy.
        -- intros Hx Hfree. rewrite Hscan, (Hcnt2 Hx Hfree). lia.
    + exists tt, s2. split; [exact Hrun|].
      destruct HI2 as (b2 & -> & Hwf2 & Hp2 & Hbin2 & Hcnt2).
      exists b2. split; [easy|]. split; [easy|]. split; [|split; [easy|]].
      * eapply painted_ext; [|exact Hp2].
        intros r c. unfold covered_upto.
        split; intros (i & j & Hij & Hi & Hj & Hrest); exists i, j;
          (split; [fold w in Hj; lia|easy]).
      * intros Hx Hfree. rewrite (Hcnt2 Hx Hfree).
        now rewrite (scanned_next_row piece ki Hrect Hki).
  - exists b'. split; [exact Hrun|]. split; [easy|]. split; [easy|].
    intros Hx Hfree. rewrite (Hcnt Hx Hfree). unfold h.
    now rewrite scanned_all.
Qed.

(** The number of occupied cells after a successful [place_piece]. *)
Lemma place_piece_adds s piece x y :
  wf_board (board s) = true -> rect piece = true -> 0 <= x ->
  fst (can_place piece x y s) = Ok true ->
  exists b',
    place_piece piece x y s = (Ok true, set_board b' s) /\
    wf_board b' = true /\
    occupied_count b' = occupied_count (board s) + occupied_count piece /\
    (binary_board (board s) = true -> binary_board b' = true).
Proof.
  intros Hwf Hrect Hx Htrue. apply can_place_fst in Htrue.
  destruct (can_place_true_inv _ _ _ _ _ Hrect Htrue)
    as (_ & Hy & Hw & Hh & Hocc).
  destruct (place_piece_writes_count s piece x y Hwf Hrect Hy Hw Hh)
    as (b' & Hrun & Hwf' & Hbin & Hcnt).
  { intros i j Hi Hj Ho. lia. }
  exists b'. split.
  { unfold place_piece. rewrite (bind_ok _ _ _ _ _ Htrue). simpl.
    unfold shape. now rewrite (bind_ok _ _ _ _ _ Hrun). }
  split; [easy|]. split; [|easy]. apply Hcnt; [easy|].
  intros i j Hi Hj Ho. destruct (Hocc i j Hi Hj Ho) as (c & Hc & Hne).
  rewrite getitem_board in Hc by (trivial; lia). now injection Hc as ->.
Qed.

(** X5. A successful [place_piece] at a row [x >= 0] adds to the number of
    occupied grid cells exactly the number of occupied cells of the piece,
    keeps the shape of the grid, keeps its cells binary, and leaves the
    counters alone. *)
Theorem place_piece_count s piece x y :
  wf_board (board s) = true -> rect piece = true -> 0 <= x ->
  fst (can_place piece x y s) = Ok true ->
  exists b',
    place_piece piece x y s = (Ok true, set_board b' s) /\
    wf_board b' = true /\
    occupied_count b' = occupied_count (board s) + occupied_count piece /\
    (binary_board (board s) = true -> binary_board b' = true).
Proof. exact (place_piece_adds s piece x y). Qed.

Lemma place_piece_count_witness :
  exists b',
    place_piece [[0; 1; 0]; [1; 1; 1]] 17 3 bottom_full
    = (Ok true, set_board b' bottom_full) /\
    wf_board b' = true /\
    occupied_count b'
    = occupied_count (board bottom_full)
      + occupied_count [[0; 1; 0]; [1; 1; 1]] /\
    (binary_board (board bottom_full) = true -> binary_board b' = true).
Proof.
  apply (place_piece_count bottom_full [[0; 1; 0]; [1; 1; 1]] 17 3).
  - reflexivity.
  - reflexivity.
  - lia.
  - reflexivity.
Defined.

(** X6. Whatever its arguments and whatever its outcome -- [True],
    [False] or an [IndexError] -- [place_piece] leaves a grid of the fixed
    shape with binary cells, and never touches the counters. *)
Theorem place_piece_invariant s piece x y :
  wf_board (board s) = true -> binary_board (board s) = true ->
  rect piece = true ->
  wf_board (board (snd (place_piece piece x y s))) = true /\
  binary_board (board (snd (place_piece piece x y s))) = true /\
  score (snd (place_piece piece x y s)) = score s /\
  lines_cleared (snd (place_piece piece x y s)) = lines_cleared s /\
  level (snd (place_piece piece x y s)) = level s.
Proof.
  intros Hwf Hbin Hrect.
  destruct (can_place piece x y s) as [[[|]|e|] s1] eqn:E;
    pose proof (read_only_run _ _ _ _ (read_only_can_place piece x y) E) as ->.
  - destruct (can_place_true_inv _ _ _ _ _ Hrect E) as (_ & Hy & Hw & Hh & Hocc).
    destruct (place_piece_writes_count s piece x y Hwf Hrect Hy Hw Hh)
      as (b' & Hrun & Hwf' & Hbin' & _).
    { intros i j Hi Hj Ho. destruct (Hocc i j Hi Hj Ho) as (c & Hc & _).
      apply getitem_Some_row in Hc. rewrite (wf_board_nrows _ Hwf) in Hc.
      blia. }
    unfold place_piece. rewrite (bind_ok _ _ _ _ _ E). simpl.
    unfold shape. rewrite (bind_ok _ _ _ _ _ Hrun). simpl. auto.
  - rewrite place_piece_false by now rewrite E. simpl. auto.
  - unfold place_piece, bind. rewrite E. simpl. auto.
  - unfold place_piece, bind. rewrite E. simpl. auto.
Qed.

Lemma place_piece_invariant_witness :
  wf_board (board (snd (place_piece [[1; 1; 1; 1]] (-30) 0 init))) = true /\
  binary_board (board (snd (place_piece [[1; 1; 1; 1]] (-30) 0 init))) = true /\
  score (snd (place_piece [[1; 1; 1; 1]] (-30) 0 init)) = score init /\
  lines_cleared (snd (place_piece [[1; 1; 1; 1]] (-30) 0 init))
  = lines_cleared init /\
  level (snd (place_piece [[1; 1; 1; 1]] (-30) 0 init)) = level init.
Proof.
  apply (place_piece_invariant init [[1; 1; 1; 1]] (-30) 0).
  - reflexivity.
  - reflexivity.
  - reflexivity.
Defined.

(** ** More on [clear_lines] *)

Lemma filter_full_replicate_empty n :
  List.filter row_full (replicate n empty_row) = [].
Proof. induction n as [|n IH]; [easy|]. simpl. exact IH. Qed.

Lemma filter_full_kept_nil b : List.filter row_full (kept_rows b) = [].
Proof.
  unfold kept_rows. rewrite filter_filter_bool.
  induction b as [|r b IH]; simpl; [easy|].
  now destruct (row_full r).
Qed.

Lemma full_count_cleared n b :
  full_count (replicate n empty_row ++ kept_rows b) = 0.
Proof.
  unfold full_count.
  now rewrite List.filter_app, filter_full_replicate_empty, filter_full_kept_nil.
Qed.

Lemma full_count_range b :
  0 <= full_count b <= Z.of_nat (length b).
Proof. unfold full_count. pose proof (filter_full_kept b). lia. Qed.

Lemma binary_board_cleared n b :
  binary_board b = true ->
  binary_board (replicate n empty_row ++ kept_rows b) = true.
Proof.
  rewrite !binary_board_iff. intros Hbin. apply Forall_app. split.
  - apply Forall_replicate. unfold empty_row. apply Forall_replicate. now left.
  - rewrite Forall_forall in *. intros r Hr. apply Hbin.
    apply list_elem_of_In in Hr. unfold kept_rows in Hr.
    apply filter_In in Hr as [Hr _]. now apply list_elem_of_In.
Qed.

Lemma points_for_bounds n lv :
  1 <= n -> 1 <= lv ->
  100 * n <= points_for n lv <= 250 * n * lv /\
  0 <= points_product n lv <= 1000 * n * lv.
Proof.
  intros Hn Hlv. unfold points_for, points_product.
  destruct (Z.leb_spec 1 n); [|lia].
  destruct (Z.leb_spec n 4); cbn [andb].
  - assert (E : n = 1 \/ n = 2 \/ n = 3 \/ n = 4) by lia.
    destruct E as [->|[->|[->| ->]]]; simpl; lia.
  - split; [|nia]. split.
    + apply Z.div_le_lower_bound; [lia|]. nia.
    + apply Z.div_le_upper_bound; [lia|]. nia.
Qed.

(** What [clear_lines] does when at least one row is full and no counter
    wraps around. *)
Lemma clear_lines_exact s :
  wf_board (board s) = true ->
  no_wrap s ->
  1 <= full_count (board s) ->
  exists s',
    clear_lines s = (Ok (full_count (board s)), s') /\
    board s' = replicate (Z.to_nat (full_count (board s))) empty_row
               ++ kept_rows (board s) /\
    value (lines_cleared s')
    = value (lines_cleared s) + full_count (board s) /\
    value (level s') = Z.max 1 (value (lines_cleared s') / 10 + 1) /\
    value (score s')
    = value (score s) + points_for (full_count (board s)) (value (level s')).
Proof.
  intros Hwf (Hl & Hl' & Hprod & Hsc & Hsc') Hn.
  rewrite (clear_lines_run s Hwf).
  destruct (Z.gtb_spec (full_count (board s)) 0); [|lia].
  pose proof (full_count_rows _ Hwf) as Hrange.
  destruct (update_counters_exact (full_count (board s))
              (set_board (replicate (Z.to_nat (full_count (board s)))
                            empty_row ++ kept_rows (board s)) s))
    as (s' & Hrun & Hb & Hlines & Hlevel & Hscore); [lia|easy..|].
  exists s'. easy.
Qed.

(** X7. [clear_lines] clears completely: the grid it leaves has no full
    row, so an immediate second call returns 0 and changes nothing.  The
    cells stay binary.  The counters are supposed to hold values that fit
    in 64 bits. *)
Theorem clear_lines_idempotent s :
  wf_board (board s) = true ->
  counters_fit s ->
  exists n s',
    clear_lines s = (Ok n, s') /\
    wf_board (board s') = true /\
    full_count (board s') = 0 /\
    clear_lines s' = (Ok 0, s') /\
    (binary_board (board s) = true -> binary_board (board s') = true).
Proof.
  intros Hwf [Hl Hsc]. rewrite (clear_lines_run s Hwf).
  pose proof (full_count_rows _ Hwf) as Hrange.
  destruct (Z.gtb_spec (full_count (board s)) 0) as [Hpos|Hzero].
  - destruct (update_counters_fit (full_count (board s))
                (set_board (replicate (Z.to_nat (full_count (board s)))
                              empty_row ++ kept_rows (board s)) s))
      as (s' & Hrun & Hb & _); [lia|easy|easy|].
    cbn [set_board board] in Hb.
    pose proof (wf_board_cleared _ Hwf) as Hwf'. rewrite <- Hb in Hwf'.
    assert (Hfull : full_count (board s') = 0)
      by (rewrite Hb; apply full_count_cleared).
    exists (full_count (board s)), s'. split; [exact Hrun|].
    split; [easy|]. split; [easy|]. split.
    + rewrite (clear_lines_run s' Hwf'), Hfull. reflexivity.
    + rewrite Hb. apply binary_board_cleared.
  - assert (Hn : full_count (board s) = 0) by lia.
    exists (full_count (board s)), s. split; [reflexivity|].
    split; [easy|]. split; [easy|]. split; [|easy].
    rewrite (clear_lines_run s Hwf), Hn. reflexivity.
Qed.

Lemma clear_lines_idempotent_witness :
  exists n s',
    clear_lines five_full = (Ok n, s') /\
    wf_board (board s') = true /\
    full_count (board s') = 0 /\
    clear_lines s' = (Ok 0, s') /\
    (binary_board (board five_full) = true -> binary_board (board s') = true).
Proof.
  apply (clear_lines_idempotent five_full).
  - reflexivity.
  - split; reflexivity.
Defined.

(** X8. As long as no counter wraps around, [clear_lines] never lowers
    one: it returns a number [n] between 0 and [H], adds [n] to
    [lines_cleared], and does not decrease [score]; when [n >= 1] the
    score grows by at least 100 and [level] is the value derived from the
    new [lines_cleared], at least 1; when [n = 0] the counters are
    untouched. *)
Theorem clear_lines_monotone s :
  wf_board (board s) = true ->
  no_wrap s ->
  exists n s',
    clear_lines s = (Ok n, s') /\
    0 <= n <= BOARD_HEIGHT /\
    value (lines_cleared s') = value (lines_cleared s) + n /\
    value (score s) <= value (score s') /\
    (1 <= n ->
     value (score s) + 100 <= value (score s') /\
     level_ok s' /\ 1 <= value (level s')) /\
    (n = 0 -> s' = s).
Proof.
  intros Hwf Hno.
  pose proof (full_count_rows _ Hwf) as Hrange.
  destruct (Z.leb_spec 1 (full_count (board s))) as [Hpos|Hzero].
  - destruct (clear_lines_exact s Hwf Hno Hpos)
      as (s' & Hrun & _ & Hlines & Hlevel & Hscore).
    assert (Hlv : 1 <= value (level s')) by lia.
    pose proof (points_for_bounds _ _ Hpos Hlv) as [Hpoints _].
    exists (full_count (board s)), s'. split; [exact Hrun|].
    split; [easy|]. split; [easy|]. split; [lia|]. split; [|lia].
    intros _. split; [lia|]. split; [exact Hlevel|exact Hlv].
  - assert (Hn : full_count (board s) = 0) by lia.
    exists 0, s. split.
    { rewrite (clear_lines_run s Hwf), Hn. reflexivity. }
    split; [blia|]. split; [lia|]. split; [lia|]. split; [lia|]. easy.
Qed.

Lemma clear_lines_monotone_witness :
  exists n s',
    clear_lines bottom_full = (Ok n, s') /\
    0 <= n <= BOARD_HEIGHT /\
    value (lines_cleared s') = value (lines_cleared bottom_full) + n /\
    value (score bottom_full) <= value (score s') /\
    (1 <= n ->
     value (score bottom_full) + 100 <= value (score s') /\
     level_ok s' /\ 1 <= value (level s')) /\
    (n = 0 -> s' = bottom_full).
Proof.
  apply (clear_lines_monotone bottom_full).
  - reflexivity.
  - vm_compute. tauto.
Defined.

(** ** [can_place] and [place_piece] at negative rows *)

Lemma for_return_ext {A R : Type} (l : list A) (body body' : A -> M (option R)) s :
  (forall a, read_only (body a)) ->
  (forall a, a ∈ l -> body a s = body' a s) ->
  for_return l body s = for_return l body' s.
Proof.
  intros Hro. induction l as [|a l IH]; intros Hext; simpl; [easy|].
  unfold bind. rewrite <- (Hext a) by left.
  destruct (body a s) as [[[v|]|e|] s1] eqn:E; trivial.
  pose proof (read_only_run _ _ _ _ (Hro a) E) as ->.
  apply IH. intros a' Ha'. apply Hext. now right.
Qed.

Lemma for_fold_ext {A St : Type} (P : TetrisSolver -> Prop) (l : list A)
    (body body' : St -> A -> M St) acc s :
  (forall acc a s, P s -> a ∈ l -> body acc a s = body' acc a s) ->
  (forall acc a s acc' s', P s -> a ∈ l ->
     body acc a s = (Ok acc', s') -> P s') ->
  P s ->
  for_fold l body acc s = for_fold l body' acc s.
Proof.
  revert acc s. induction l as [|a l IH]; intros acc s Hext Hpres HP; simpl;
    [easy|].
  unfold bind. rewrite <- (Hext acc a s HP) by left.
  destruct (body acc a s) as [[acc1|e|] s1] eqn:E; trivial.
  apply IH.
  - intros acc2 a' s2 HP2 Ha'. apply Hext; [easy|now right].
  - intros acc2 a' s2 acc3 s3 HP2 Ha'. apply Hpres; [easy|now right].
  - apply (Hpres acc a s acc1 s1); [easy|left|easy].
Qed.

Lemma norm_index_wrap k :
  - BOARD_HEIGHT <= k < 0 ->
  norm_index (Z.to_nat BOARD_HEIGHT) k
  = norm_index (Z.to_nat BOARD_HEIGHT) (k + BOARD_HEIGHT).
Proof.
  intros Hk. rewrite !norm_index_board_row by lia. f_equal. f_equal.
  unfold board_row.
  destruct (Z.ltb_spec k 0), (Z.ltb_spec (k + BOARD_HEIGHT) 0); lia.
Qed.

Lemma getitem_wrap b k c :
  wf_board b = true -> - BOARD_HEIGHT <= k < 0 ->
  getitem b k c = getitem b (k + BOARD_HEIGHT) c.
Proof.
  intros Hwf Hk. unfold getitem. rewrite (wf_board_nrows _ Hwf).
  now rewrite norm_index_wrap.
Qed.

Lemma setitem_wrap b k c v :
  wf_board b = true -> - BOARD_HEIGHT <= k < 0 ->
  setitem b k c v = setitem b (k + BOARD_HEIGHT) c v.
Proof.
  intros Hwf Hk. unfold setitem. rewrite (wf_board_nrows _ Hwf).
  now rewrite norm_index_wrap.
Qed.

Lemma bind_ext_l {A B : Type} (m m' : M A) (k : A -> M B) s :
  m s = m' s -> bind m k s = bind m' k s.
Proof. intros H. unfold bind. now rewrite H. Qed.

Lemma bind_ext_r {A B : Type} (m : M A) (k k' : A -> M B) s :
  read_only m -> (forall a, k a s = k' a s) -> bind m k s = bind m k' s.
Proof.
  intros Hro H. unfold bind. destruct (m s) as [[a|e|] s1] eqn:E; trivial.
  pose proof (read_only_run _ _ _ _ Hro E) as ->. apply H.
Qed.

Lemma board_get_wrap s k c :
  wf_board (board s) = true -> - BOARD_HEIGHT <= k < 0 ->
  board_get k c s = board_get (k + BOARD_HEIGHT) c s.
Proof.
  intros Hwf Hk. unfold board_get, bind, get_board.
  now rewrite getitem_wrap.
Qed.

Lemma board_set_wrap s k c v :
  wf_board (board s) = true -> - BOARD_HEIGHT <= k < 0 ->
  board_set k c v s = board_set (k + BOARD_HEIGHT) c v s.
Proof.
  intros Hwf Hk. unfold board_set, bind, get_board.
  now rewrite setitem_wrap.
Qed.

Lemma read_only_can_place_cell piece x y i j :
  read_only
    (do p <- index (getitem piece i j);
     if p =? 1 then
       do c <- board_get (x + i) (y + j);
       if c =? 1 then ret (Some false) else ret None
     else ret None).
Proof.
  apply read_only_bind; [apply read_only_index|].
  intros p. destruct (p =? 1); [|apply read_only_ret].
  apply read_only_bind; [apply read_only_board_get|].
  intros c. destruct (c =? 1); apply read_only_ret.
Qed.

Lemma can_place_wrap s piece x y :
  wf_board (board s) = true ->
  - BOARD_HEIGHT <= x -> x + Z.of_nat (nrows piece) <= 0 ->
  can_place piece x y s = can_place piece (x + BOARD_HEIGHT) y s.
Proof.
  intros Hwf Hlo Hhi. unfold can_place, shape.
  destruct ((y <? 0) || (y + Z.of_nat (ncols piece) >? BOARD_WIDTH));
    [reflexivity|].
  destruct (Z.gtb_spec (x + Z.of_nat (nrows piece)) BOARD_HEIGHT); [blia|].
  destruct (Z.gtb_spec (x + BOARD_HEIGHT + Z.of_nat (nrows piece)) BOARD_HEIGHT);
    [lia|].
  apply bind_ext_l. apply for_return_ext.
  { intros i. apply read_only_for_return. intros j.
    apply read_only_can_place_cell. }
  intros i Hi. apply elem_of_range in Hi.
  apply for_return_ext; [intros j; apply read_only_can_place_cell|].
  intros j Hj. apply bind_ext_r; [apply read_only_index|].
  intros p. destruct (p =? 1); [|reflexivity].
  apply bind_ext_l.
  replace (x + BOARD_HEIGHT + i) with (x + i + BOARD_HEIGHT) by lia.
  apply board_get_wrap; [easy|lia].
Qed.

Lemma setitem_wf b i j v b' :
  wf_board b = true -> setitem b i j v = Some b' -> wf_board b' = true.
Proof.
  intros Hwf. unfold setitem.
  destruct (norm_index (nrows b) i) as [r|]; [|easy]. simpl.
  destruct (b !! r) as [row|] eqn:Erow; [|easy]. simpl.
  destruct (norm_index (ncols b) j) as [c|]; [|easy]. simpl.
  intros [= <-]. pose proof (wf_board_row _ _ _ Hwf Erow) as Hlen.
  apply wf_board_iff. apply wf_board_iff in Hwf as [Hl Hall]. split.
  - now rewrite length_insert.
  - apply Forall_insert; [easy|]. now rewrite length_insert.
Qed.

Lemma for_fold_preserves {A St : Type} (P : TetrisSolver -> Prop) (l : list A)
    (body : St -> A -> M St) acc s acc' s' :
  (forall acc a s acc' s', P s -> a ∈ l ->
     body acc a s = (Ok acc', s') -> P s') ->
  P s -> for_fold l body acc s = (Ok acc', s') -> P s'.
Proof.
  revert acc s. induction l as [|a l IH]; intros acc s Hpres HP; simpl.
  - now intros [= _ <-].
  - intros H. apply bind_inv_ok in H as (acc1 & s1 & H1 & H2).
    apply (IH acc1 s1); [|apply (Hpres acc a s acc1 s1); [easy|left|easy]|easy].
    intros acc2 a' s2 acc3 s3 HP2 Ha'. apply Hpres; [easy|now right].
Qed.

Lemma place_cell_preserves piece x y i j acc s acc' s' :
  wf_board (board s) = true ->
  (do p <- index (getitem piece i j);
   if p =? 1 then board_set (x + i) (y + j) 1 else ret tt) s = (Ok acc', s') ->
  acc = acc' -> wf_board (board s') = true.
Proof.
  intros Hwf H _. apply bind_inv_ok in H as (p & s1 & Hp & H).
  pose proof (read_only_run _ _ _ _ (read_only_index _) Hp) as ->.
  destruct (p =? 1); [|now injection H as _ <-].
  unfold board_set, bind, get_board in H.
  destruct (setitem (board s) (x + i) (y + j) 1) as [b'|] eqn:E; [|easy].
  simpl in H. injection H as _ <-. simpl. eapply setitem_wf; eauto.
Qed.

Lemma place_piece_wrap s piece x y :
  wf_board (board s) = true ->
  - BOARD_HEIGHT <= x -> x + Z.of_nat (nrows piece) <= 0 ->
  place_piece piece x y s = place_piece piece (x + BOARD_HEIGHT) y s.
Proof.
  intros Hwf Hlo Hhi. unfold place_piece.
  etransitivity; [|apply bind_ext_l; now apply can_place_wrap].
  apply bind_ext_r; [apply read_only_can_place|].
  intros [|]; simpl; [|reflexivity]. unfold shape.
  apply bind_ext_l. unfold for_each.
  apply (for_fold_ext (fun s => wf_board (board s) = true)); [| |easy].
  - intros [] i s1 Hwf1 Hi. apply elem_of_range in Hi.
    apply (for_fold_ext (fun s => wf_board (board s) = true)); [| |easy].
    + intros [] j s2 Hwf2 Hj. apply bind_ext_r; [apply read_only_index|].
      intros p. destruct (p =? 1); [|reflexivity].
      replace (x + BOARD_HEIGHT + i) with (x + i + BOARD_HEIGHT) by lia.
      apply board_set_wrap; [easy|lia].
    + intros [] j s2 [] s3 Hwf2 _ H.
      now apply (place_cell_preserves piece x y i j tt s2 tt s3).
  - intros [] i s1 [] s2 Hwf1 _ H.
    apply (for_fold_preserves (fun s => wf_board (board s) = true)) in H;
      [easy| |easy].
    intros [] j s3 [] s4 Hwf3 _ H3.
    now apply (place_cell_preserves piece x y i j tt s3 tt s4).
Qed.

(** X9. Rows below 0 address the grid from the bottom: for a piece lying
    wholly in the rows [-H .. -1], that is [-H <= x] and
    [x + height <= 0], [can_place] and [place_piece] at row [x] do exactly
    what they do at row [x + H]. *)
Theorem negative_row_wraps s piece x y :
  wf_board (board s) = true ->
  - BOARD_HEIGHT <= x -> x + Z.of_nat (nrows piece) <= 0 ->
  can_place piece x y s = can_place piece (x + BOARD_HEIGHT) y s /\
  place_piece piece x y s = place_piece piece (x + BOARD_HEIGHT) y s.
Proof.
  intros Hwf Hlo Hhi. split; [now apply can_place_wrap|now apply place_piece_wrap].
Qed.

Lemma negative_row_wraps_witness :
  can_place [[1; 1]; [1; 1]] (-2) 4 bottom_full
  = can_place [[1; 1]; [1; 1]] (-2 + BOARD_HEIGHT) 4 bottom_full /\
  place_piece [[1; 1]; [1; 1]] (-2) 4 bottom_full
  = place_piece [[1; 1]; [1; 1]] (-2 + BOARD_HEIGHT) 4 bottom_full.
Proof.
  apply (negative_row_wraps bottom_full [[1; 1]; [1; 1]] (-2) 4).
  - reflexivity.
  - blia.
  - simpl. lia.
Defined.

Lemma for_return_raise {A R : Type} (l : list A) (body : A -> M (option R)) s e :
  (forall a, a ∈ l ->
     body a s = (Ok None, s) \/ body a s = (Raise e, s)) ->
  (exists a, a ∈ l /\ body a s = (Raise e, s)) ->
  for_return l body s = (Raise e, s).
Proof.
  induction l as [|a l IH]; intros Hall (a0 & Ha0 & Hr); [inversion Ha0|].
  simpl. unfold bind.
  destruct (Hall a ltac:(left)) as [E|E]; rewrite E; [|reflexivity].
  apply IH.
  - intros a' Ha'. apply Hall. now right.
  - inversion Ha0; subst.
    + rewrite E in Hr. discriminate.
    + now exists a0.
Qed.

(** X10. Below row [-H] there is no wrap-around: if the top row of the
    piece has an occupied cell, the column is in range and [x < -H], then
    [can_place] raises [IndexError] instead of returning [False], and so
    does [place_piece]; the solver is left unchanged. *)
Theorem index_error_below s piece x y j0 :
  wf_board (board s) = true -> rect piece = true ->
  0 <= y -> y + Z.of_nat (ncols piece) <= BOARD_WIDTH ->
  x < - BOARD_HEIGHT -> x + Z.of_nat (nrows piece) <= BOARD_HEIGHT ->
  0 <= j0 < Z.of_nat (ncols piece) -> cell piece 0 j0 = 1 ->
  can_place piece x y s = (Raise IndexError, s) /\
  place_piece piece x y s = (Raise IndexError, s).
Proof.
  intros Hwf Hrect Hy Hw Hx Hh Hj0 Hocc.
  assert (Hrows : 0 < Z.of_nat (nrows piece)).
  { destruct piece; [simpl in Hj0; lia|simpl; lia]. }
  assert (Hcp : can_place piece x y s = (Raise IndexError, s)).
  { unfold can_place, shape.
    destruct (Z.ltb_spec y 0); [lia|].
    destruct (Z.gtb_spec (y + Z.of_nat (ncols piece)) BOARD_WIDTH); [lia|].
    destruct (Z.gtb_spec (x + Z.of_nat (nrows piece)) BOARD_HEIGHT); [lia|].
    simpl. rewrite range_cons by lia. simpl for_return.
    unfold bind at 1 2.
    rewrite (for_return_raise _ _ s IndexError); [reflexivity| |].
    - intros j Hj. apply elem_of_range in Hj.
      rewrite (bind_ok _ _ s (cell piece 0 j) s).
      2:{ rewrite getitem_rect by (trivial; lia). reflexivity. }
      destruct (cell piece 0 j =? 1); [|now left]. right.
      unfold bind, board_get, bind, get_board, getitem.
      rewrite (wf_board_nrows _ Hwf). unfold norm_index.
      destruct (Z.leb_spec 0 (x + 0)); [blia|]. simpl.
      destruct (Z.leb_spec (- Z.of_nat (Z.to_nat BOARD_HEIGHT)) (x + 0));
        [blia|]. reflexivity.
    - exists j0. split; [apply elem_of_range; lia|].
      rewrite (bind_ok _ _ s (cell piece 0 j0) s).
      2:{ rewrite getitem_rect by (trivial; lia). reflexivity. }
      rewrite Hocc. simpl.
      unfold bind, board_get, bind, get_board, getitem.
      rewrite (wf_board_nrows _ Hwf). unfold norm_index.
      destruct (Z.leb_spec 0 (x + 0)); [blia|]. simpl.
      destruct (Z.leb_spec (- Z.of_nat (Z.to_nat BOARD_HEIGHT)) (x + 0));
        [blia|]. reflexivity. }
  split; [exact Hcp|]. unfold place_piece, bind. now rewrite Hcp.
Qed.

Lemma index_error_below_witness :
  can_place [[0; 1; 0]; [1; 1; 1]] (-21) 2 init = (Raise IndexError, init) /\
  place_piece [[0; 1; 0]; [1; 1; 1]] (-21) 2 init = (Raise IndexError, init).
Proof.
  apply (index_error_below init [[0; 1; 0]; [1; 1; 1]] (-21) 2 1).
  - reflexivity.
  - reflexivity.
  - lia.
  - simpl. blia.
  - blia.
  - simpl. blia.
  - simpl. lia.
  - reflexivity.
Defined.

(** ** The game loop *)

Lemma tetrominos_four_cells :
  forallb (forallb (fun piece => occupied_count piece =? 4))
    (map snd TETROMINOS) = true.
Proof. reflexivity. Qed.

Lemma tetromino_four_cells rotations piece :
  In rotations (map snd TETROMINOS) -> In piece rotations ->
  occupied_count piece = 4.
Proof.
  intros Hr Hp. pose proof tetrominos_four_cells as H.
  rewrite forallb_forall in H. specialize (H rotations Hr).
  rewrite forallb_forall in H. specialize (H piece Hp). lia.
Qed.

Lemma lookup_key_In {V : Type} (d : list (string * V)) k v :
  lookup_key d k = Some v -> In v (map snd d).
Proof.
  induction d as [|[k' v'] d IH]; simpl; [easy|].
  destruct (String.eqb k k'); [intros [= ->]; now left|].
  intros H. right. now apply IH.
Qed.

Lemma lookup_key_member {V : Type} (d : list (string * V)) k :
  In k (map fst d) -> exists v, lookup_key d k = Some v.
Proof.
  induction d as [|[k' v'] d IH]; simpl; [easy|].
  destruct (String.eqb_spec k k') as [->|Hne]; [eauto|].
  intros [E|H]; [congruence|]. now apply IH.
Qed.

Lemma occupied_count_bounds b :
  wf_board b = true -> 0 <= occupied_count b <= 200.
Proof.
  intros Hwf. apply wf_board_iff in Hwf as [Hlen Hall].
  assert (H : 0 <= occupied_count b <= Z.of_nat (length b) * 10).
  { clear Hlen. induction Hall as [|row b Hrow Hall IH]; [easy|].
    rewrite occupied_count_cons. cbn [length].
    pose proof (List.filter_length_le (fun v => v =? 1) row) as Hle.
    unfold ones. blia. }
  blia.
Qed.

(** What [clear_lines] does when the counters fit. *)
Lemma clear_lines_fit s :
  wf_board (board s) = true ->
  counters_fit s ->
  exists s',
    clear_lines s = (Ok (full_count (board s)), s') /\
    board s' = (if full_count (board s) >? 0
                then replicate (Z.to_nat (full_count (board s))) empty_row
                     ++ kept_rows (board s)
                else board s) /\
    (full_count (board s) = 0 -> s' = s) /\
    (1 <= full_count (board s) ->
     lines_cleared s'
     = Int64 (wrap64 (value (lines_cleared s) + full_count (board s))) /\
     (is_py (score s') = false /\ in_int64 (value (score s')) = true
      \/ is_py (score s') = true /\ is_py (score s) = true /\
         full_count (board s) <= 4 /\
         wrap64 (value (lines_cleared s) + full_count (board s)) < 10 /\
         value (score s')
         = value (score s) + base_points (full_count (board s)))).
Proof.
  intros Hwf [Hl Hsc]. rewrite (clear_lines_run s Hwf).
  pose proof (full_count_rows _ Hwf) as Hrange.
  destruct (Z.gtb_spec (full_count (board s)) 0) as [Hpos|Hzero].
  - destruct (update_counters_fit (full_count (board s))
                (set_board (replicate (Z.to_nat (full_count (board s)))
                              empty_row ++ kept_rows (board s)) s))
      as (s' & Hrun & Hb & Hlines & Hscore); [lia|easy|easy|].
    exists s'. split; [exact Hrun|]. split; [exact Hb|].
    split; [lia|]. intros _. split; [exact Hlines|exact Hscore].
  - exists s. split; [reflexivity|]. split; [reflexivity|].
    split; [easy|lia].
Qed.

Lemma occupied_count_cleared b :
  wf_board b = true ->
  occupied_count (if full_count b >? 0
                  then replicate (Z.to_nat (full_count b)) empty_row
                       ++ kept_rows b
                  else b)
  = occupied_count b - 10 * full_count b.
Proof.
  intros Hwf. pose proof (full_count_rows _ Hwf) as Hrange.
  destruct (Z.gtb_spec (full_count b) 0); [|lia].
  rewrite occupied_count_app, occupied_count_empty.
  apply wf_board_iff in Hwf as [_ Hall].
  rewrite (occupied_count_kept _ Hall). blia.
Qed.

Lemma cleared_board_facts b :
  wf_board b = true ->
  let b' := if full_count b >? 0
            then replicate (Z.to_nat (full_count b)) empty_row ++ kept_rows b
            else b in
  wf_board b' = true /\
  (binary_board b = true -> binary_board b' = true) /\
  (full_count b = 0 \/ 1 <= full_count b -> full_count b' = 0).
Proof.
  intros Hwf. cbv zeta.
  destruct (Z.gtb_spec (full_count b) 0) as [Hpos|Hzero].
  - split; [now apply wf_board_cleared|].
    split; [apply binary_board_cleared|].
    intros _. apply full_count_cleared.
  - pose proof (full_count_rows _ Hwf). split; [easy|]. split; [easy|]. lia.
Qed.

(** The move that [best_move] returns, placed on the board. *)
Lemma turn_place s rotations x y r sc :
  wf_board (board s) = true ->
  In rotations (map snd TETROMINOS) ->
  best_move rotations s = (Ok (Some (x, y, r), sc), s) ->
  exists piece b1,
    index (getitem1 rotations r) s = (Ok piece, s) /\
    place_piece piece x y s = (Ok true, set_board b1 s) /\
    wf_board b1 = true /\
    occupied_count b1 = occupied_count (board s) + 4 /\
    (binary_board (board s) = true -> binary_board b1 = true).
Proof.
  intros Hwf Hin Hbest.
  pose proof (tetromino_rotations_rect _ Hin) as Hrect.
  destruct (best_move_fuel_run s (S (Z.to_nat BOARD_HEIGHT)) rotations Hwf Hrect)
    as (res & Hrun & Hres); [blia|].
  unfold best_move in Hbest. rewrite Hrun in Hbest. injection Hbest as ->.
  simpl in Hres.
  destruct Hres as (piece & v & _ & Hr & _ & Hlook & Hcand & _).
  assert (Hp : In piece rotations).
  { apply list_elem_of_In. eapply list_elem_of_lookup_2. exact Hlook. }
  pose proof (tetromino_rect _ _ Hin Hp) as Hpiece.
  pose proof (tetromino_four_cells _ _ Hin Hp) as Hfour.
  destruct Hcand as (_ & Htop & (Hx & Hsteps & _) & _).
  assert (Htrue : fst (can_place piece x y s) = Ok true).
  { destruct (Z.eq_dec x 0) as [->|Hne]; [easy|].
    replace x with (x - 1 + 1) by lia. apply Hsteps. lia. }
  destruct (place_piece_adds s piece x y Hwf Hpiece Hx Htrue)
    as (b1 & Hplace & Hwf1 & Hocc1 & Hbin1).
  exists piece, b1. split.
  { rewrite (getitem1_nonneg rotations r piece Hr Hlook). reflexivity. }
  split; [exact Hplace|]. split; [exact Hwf1|]. split; [lia|exact Hbin1].
Qed.

(** The body of a turn, once its steps are known. *)
Lemma turn_body_run {B : Type} (k : M B) s rotations x y r piece b1 n s2 sc' :
  index (getitem1 rotations r) s = (Ok piece, s) ->
  place_piece piece x y s = (Ok true, set_board b1 s) ->
  clear_lines (set_board b1 s) = (Ok n, s2) ->
  py_add (score s2) (PyInt 10) = Some sc' ->
  (do chosen_piece <- index (getitem1 rotations r);
   do _ <- place_piece chosen_piece x y;
   do _ <- clear_lines;
   do sc <- get_score;
   do sc' <- arith (py_add sc (PyInt 10));
   do _ <- put_score sc';
   k) s
  = k {| board := board s2; score := sc';
         lines_cleared := lines_cleared s2; level := level s2 |}.
Proof.
  intros Hidx Hplace Hclear Hadd.
  rewrite (bind_ok _ _ _ _ _ Hidx), (bind_ok _ _ _ _ _ Hplace),
    (bind_ok _ _ _ _ _ Hclear), bind_get_score, (bind_arith _ _ _ _ Hadd),
    bind_put_score.
  reflexivity.
Qed.

(** One turn of the loop, whatever the number of turns played: no
    exception is raised, since the counters keep fitting in 64 bits. *)
Lemma turn_safe t s rotations x y r sc :
  game_safe t s ->
  In rotations (map snd TETROMINOS) ->
  best_move rotations s = (Ok (Some (x, y, r), sc), s) ->
  exists s',
    game_safe (t + 1) s' /\
    forall (B : Type) (k : M B),
      (do chosen_piece <- index (getitem1 rotations r);
       do _ <- place_piece chosen_piece x y;
       do _ <- clear_lines;
       do sc <- get_score;
       do sc' <- arith (py_add sc (PyInt 10));
       do _ <- put_score sc';
       k) s = k s'.
Proof.
  intros (Hwf & Hl & Hsc & Hpy) Hin Hbest.
  destruct (turn_place s rotations x y r sc Hwf Hin Hbest)
    as (piece & b1 & Hidx & Hplace & Hwf1 & Hocc1 & _).
  destruct (clear_lines_fit (set_board b1 s) Hwf1 (conj Hl Hsc))
    as (s2 & Hclear & Hb2 & Hzero & Hpos).
  cbn [set_board board lines_cleared score] in Hb2, Hzero, Hpos.
  pose proof (full_count_rows _ Hwf1) as Hn. unfold BOARD_HEIGHT in Hn.
  pose proof (cleared_board_facts _ Hwf1) as (Hwf2 & _).
  pose proof (occupied_count_cleared _ Hwf1) as Hocc2.
  rewrite <- Hb2 in Hwf2, Hocc2.
  pose proof (occupied_count_bounds _ Hwf2) as Hbound.
  pose proof (proj1 (in_int64_iff _) Hl) as Rl.
  pose proof (proj1 (in_int64_iff _) Hsc) as Rsc.
  (* the counters after [clear_lines] *)
  assert (Hafter :
    in_int64 (value (lines_cleared s2)) = true /\
    in_int64 (value (score s2)) = true /\
    (is_py (score s2) = true ->
     is_py (score s) = true /\
     value (lines_cleared s2)
     = value (lines_cleared s) + full_count b1 /\
     value (lines_cleared s2) <= 9 /\
     value (score s) <= value (score s2) <= value (score s) + 800)).
  { destruct (Z.leb_spec 1 (full_count b1)) as [Hge|Hlt].
    - destruct (Hpos Hge) as (Hlines & Hscore). rewrite Hlines. cbn [value].
      split; [apply in_int64_wrap64|].
      destruct Hscore as [[Hnp H64]|(Hp2 & Hp & H4 & H10 & Hval)].
      + split; [exact H64|]. rewrite Hnp. discriminate.
      + destruct (Hpy Hp) as (Hl9 & Hocc & Hs).
        pose proof (occupied_count_bounds _ Hwf) as Hbound0.
        pose proof (base_points_range (full_count b1) ltac:(lia)) as Hbase.
        assert (Hw : wrap64 (value (lines_cleared s) + full_count b1)
                     = value (lines_cleared s) + full_count b1)
          by (apply wrap64_fit; fits).
        rewrite Hw in *. split; [|intros _; split; [easy|lia]].
        rewrite Hval.
        assert (4 * t <= 290) by lia. fits.
    - rewrite (Hzero ltac:(lia)). cbn [set_board lines_cleared score].
      split; [easy|]. split; [easy|]. intros Hp.
      destruct (Hpy Hp) as (Hl9 & _). split; [easy|]. lia. }
  destruct Hafter as (Hl2 & Hsc2 & Hpy2).
  assert (Hadd : py_add (score s2) (PyInt 10)
                 = Some (if is_py (score s2)
                         then PyInt (value (score s2) + 10)
                         else Int64 (wrap64 (value (score s2) + 10)))).
  { unfold py_add. rewrite (binop_fit Z.add _ (PyInt 10) Hsc2 eq_refl).
    now rewrite andb_true_r. }
  eexists. split.
  2:{ intros B k.
      apply (turn_body_run k s rotations x y r piece b1 _ s2 _
               Hidx Hplace Hclear Hadd). }
  unfold game_safe. cbn [board lines_cleared score].
  split; [exact Hwf2|]. split; [exact Hl2|].
  destruct (is_py (score s2)) eqn:Epy; cbn [is_py value].
  - destruct (Hpy2 eq_refl) as (Hp & Hlines & Hl9 & Hs).
    destruct (Hpy Hp) as (Hl0 & Hocc & Hs0).
    assert (Hocc' : occupied_count (board s2)
                    + 10 * value (lines_cleared s2) = 4 * (t + 1)) by lia.
    split; [fits|]. intros _. split; [lia|]. split; [exact Hocc'|lia].
  - split; [apply in_int64_wrap64|]. discriminate.
Qed.

Lemma game_safe_init : game_safe 0 init.
Proof.
  unfold game_safe. simpl.
  split; [reflexivity|]. split; [reflexivity|]. split; [reflexivity|].
  intros _. split; [lia|]. split; [reflexivity|lia].
Qed.

(** What [clear_lines] does to the quantities of [game_state], as long as
    no counter wraps around. *)
Lemma clear_lines_summary s :
  wf_board (board s) = true ->
  0 <= value (lines_cleared s) <= 10 ^ 8 ->
  0 <= value (score s) <= 4 * 10 ^ 18 ->
  exists s',
    clear_lines s = (Ok (full_count (board s)), s') /\
    board s' = (if full_count (board s) >? 0
                then replicate (Z.to_nat (full_count (board s))) empty_row
                     ++ kept_rows (board s)
                else board s) /\
    value (lines_cleared s')
    = value (lines_cleared s) + full_count (board s) /\
    (level_ok s -> level_ok s') /\
    value (score s) + 100 * full_count (board s) <= value (score s') /\
    value (score s')
    <= value (score s)
       + 500 * (value (lines_cleared s') + 10).
Proof.
  intros Hwf Hl Hsc.
  pose proof (full_count_rows _ Hwf) as Hn. unfold BOARD_HEIGHT in Hn.
  destruct (Z.leb_spec 1 (full_count (board s))) as [Hpos|Hzero].
  - set (n := full_count (board s)) in *.
    set (l := value (lines_cleared s)) in *.
    set (lv := Z.max 1 ((l + n) / 10 + 1)).
    assert (Hlv : 1 <= lv <= l + n + 1)
      by (unfold lv; Z.div_mod_to_equations; lia).
    assert (Hlv10 : 10 * lv <= l + n + 10)
      by (unfold lv; Z.div_mod_to_equations; lia).
    pose proof (points_for_bounds n lv Hpos (proj1 Hlv)) as [Hpts Hprod].
    assert (Hcap : 250 * n * lv <= 5000 * lv /\ 1000 * n * lv <= 20000 * lv)
      by nia.
    assert (Hno : no_wrap s).
    { unfold no_wrap. fold n l lv. cbv zeta.
      split; [fits|]. split; [fits|]. split; [fits|]. split; fits. }
    destruct (clear_lines_exact s Hwf Hno Hpos)
      as (s' & Hrun & Hb & Hlines & Hlevel & Hscore).
    fold n l in Hrun, Hb, Hlines, Hscore.
    exists s'. split; [exact Hrun|]. split.
    { rewrite Hb. destruct (Z.gtb_spec n 0); [reflexivity|lia]. }
    split; [exact Hlines|]. split; [intros _; exact Hlevel|].
    rewrite Hlines in Hlevel. fold lv in Hlevel. rewrite Hlevel in Hscore.
    rewrite Hscore, Hlines. lia.
  - assert (Hn0 : full_count (board s) = 0) by lia.
    exists s. split.
    { rewrite (clear_lines_run s Hwf), Hn0. reflexivity. }
    rewrite Hn0. split; [reflexivity|]. split; [lia|].
    split; [easy|]. lia.
Qed.

(** One turn of the loop while no counter can have wrapped around. *)
Lemma turn_exact t s rotations x y r sc :
  0 <= t < 10 ^ 8 ->
  game_state t s ->
  In rotations (map snd TETROMINOS) ->
  best_move rotations s = (Ok (Some (x, y, r), sc), s) ->
  exists s',
    game_state (t + 1) s' /\
    forall (B : Type) (k : M B),
      (do chosen_piece <- index (getitem1 rotations r);
       do _ <- place_piece chosen_piece x y;
       do _ <- clear_lines;
       do sc <- get_score;
       do sc' <- arith (py_add sc (PyInt 10));
       do _ <- put_score sc';
       k) s = k s'.
Proof.
  intros Ht (Hwf & Hbin & Hfull & Hocc & Hlines & Hlevel & Hscore & Hcap)
    Hin Hbest.
  destruct (turn_place s rotations x y r sc Hwf Hin Hbest)
    as (piece & b1 & Hidx & Hplace & Hwf1 & Hocc1 & Hbin1).
  pose proof (occupied_count_bounds _ Hwf) as Hbound.
  assert (Hcap' : t * (200 * t + 10010) <= 4 * 10 ^ 18) by nia.
  destruct (clear_lines_summary (set_board b1 s) Hwf1)
    as (s2 & Hclear & Hb2 & Hlines2 & Hlevel2 & Hscore2 & Hcap2);
    [cbn [set_board lines_cleared]; lia|cbn [set_board score]; lia|].
  cbn [set_board board lines_cleared score] in Hb2, Hlines2, Hscore2, Hcap2.
  pose proof (full_count_rows _ Hwf1) as Hn. unfold BOARD_HEIGHT in Hn.
  pose proof (cleared_board_facts _ Hwf1) as (Hwf2 & Hbin2 & Hfull2).
  pose proof (occupied_count_cleared _ Hwf1) as Hocc2.
  cbv zeta in Hwf2, Hbin2, Hfull2. rewrite <- Hb2 in Hwf2, Hbin2, Hfull2, Hocc2.
  pose proof (occupied_count_bounds _ Hwf2) as Hbound2.
  destruct (binop_exact Z.add (score s2) (PyInt 10)) as (sc' & Hadd & Hval);
    [fits|reflexivity|cbn [value]; fits|].
  cbn [value] in Hval.
  eexists. split.
  2:{ intros B k.
      apply (turn_body_run k s rotations x y r piece b1 _ s2 _
               Hidx Hplace Hclear Hadd). }
  unfold game_state, level_ok. cbn [board lines_cleared score level].
  split; [exact Hwf2|]. split; [auto|]. split; [apply Hfull2; lia|].
  split; [lia|]. split; [lia|]. split; [now apply Hlevel2|].
  rewrite Hval. split; [lia|]. nia.
Qed.

Lemma game_state_init : game_state 0 init.
Proof.
  unfold game_state, level_ok. simpl.
  repeat split; try reflexivity; discriminate.
Qed.

Lemma game_loop_unfold fuel max_turns choice turn :
  game_loop (S fuel) max_turns choice turn
  = if turn <? max_turns then
      do over <- game_over;
      if negb over then
        do rotations <- key (lookup_key TETROMINOS (choice (Z.to_nat turn)));
        do res <- best_move rotations;
        match fst res with
        | Some (best_x, best_y, best_r_idx) =>
            do chosen_piece <- index (getitem1 rotations best_r_idx);
            do _ <- place_piece chosen_piece best_x best_y;
            do _ <- clear_lines;
            do sc <- get_score;
            do sc' <- arith (py_add sc (PyInt 10));
            do _ <- put_score sc';
            game_loop fuel max_turns choice (turn + 1)
        | None => ret turn
        end
      else ret turn
    else ret turn.
Proof. reflexivity. Qed.

Section GameLoop.

Variable Inv : Z -> TetrisSolver -> Prop.
Variable max_turns : Z.
Variable choice : nat -> string.

Hypothesis choice_ok : forall t, In (choice t) piece_types.

Hypothesis Inv_wf : forall t s, Inv t s -> wf_board (board s) = true.

Hypothesis Inv_turn :
  forall t s rotations x y r sc,
    0 <= t < max_turns ->
    Inv t s ->
    In rotations (map snd TETROMINOS) ->
    best_move rotations s = (Ok (Some (x, y, r), sc), s) ->
    exists s',
      Inv (t + 1) s' /\
      forall (B : Type) (k : M B),
        (do chosen_piece <- index (getitem1 rotations r);
         do _ <- place_piece chosen_piece x y;
         do _ <- clear_lines;
         do sc <- get_score;
         do sc' <- arith (py_add sc (PyInt 10));
         do _ <- put_score sc';
         k) s = k s'.

(** The loop, from any state of a game in progress, for an invariant
    that every turn preserves. *)
Lemma game_loop_run fuel turn s :
  0 <= turn -> Inv turn s ->
  Z.of_nat fuel > Z.max 0 (max_turns - turn) ->
  exists turns s',
    game_loop fuel max_turns choice turn s = (Ok turns, s') /\
    turn <= turns <= Z.max turn max_turns /\
    Inv turns s' /\
    (max_turns <= turns \/
     fst (game_over s') = Ok true \/
     exists rotations,
       lookup_key TETROMINOS (choice (Z.to_nat turns)) = Some rotations /\
       fst (best_move rotations s') = Ok (None, NegInf)).
Proof.
  revert turn s.
  induction fuel as [|fuel IH]; intros turn s Hturn Hstate Hfuel; [lia|].
  rewrite game_loop_unfold.
  destruct (Z.ltb_spec turn max_turns) as [Hlt|Hge].
  2:{ exists turn, s. split; [reflexivity|]. split; [lia|]. split; [easy|].
      left. lia. }
  pose proof (Inv_wf _ _ Hstate) as Hwf.
  destruct (game_over_run s Hwf) as (over & Hover & _).
  rewrite (bind_ok _ _ _ _ _ Hover).
  destruct over; cbn [negb].
  { exists turn, s. split; [reflexivity|]. split; [lia|]. split; [easy|].
    right. left. now rewrite Hover. }
  destruct (lookup_key_member TETROMINOS (choice (Z.to_nat turn)))
    as [rotations Hlook]; [apply choice_ok|].
  pose proof (lookup_key_In _ _ _ Hlook) as Hin.
  rewrite Hlook. unfold key. rewrite (bind_ok _ _ s rotations s) by reflexivity.
  destruct (best_move_fuel_run s (S (Z.to_nat BOARD_HEIGHT)) rotations Hwf
              (tetromino_rotations_rect _ Hin)) as (res & Hrun & Hres); [blia|].
  fold (best_move rotations) in Hrun.
  rewrite (bind_ok _ _ _ _ _ Hrun).
  destruct res as [[[[x y] r]|] sc]; cbn [fst].
  - destruct (Inv_turn turn s rotations x y r sc ltac:(lia) Hstate Hin Hrun)
      as (s' & Hstate' & Hbody).
    rewrite Hbody.
    destruct (IH (turn + 1) s') as (turns & s'' & Hloop & Hle & Hst & Hstop);
      [lia|easy|lia|].
    exists turns, s''. split; [exact Hloop|]. split; [lia|]. easy.
  - exists turn, s. split; [reflexivity|]. split; [lia|]. split; [easy|].
    right. right. exists rotations. split; [easy|].
    rewrite Hrun. simpl. simpl in Hres. destruct Hres as [-> _]. reflexivity.
Qed.

End GameLoop.

(** X11. [run_game] ends, without an exception, after at most
    [max_turns] turns, whatever pieces are drawn.  It stops because
    [max_turns] turns were played, or because [game_over] holds, or
    because the family drawn for the next turn has no move. *)
Theorem run_game_terminates max_turns choice :
  (forall t, In (choice t) piece_types) ->
  exists turns s,
    run_game max_turns choice = (Ok turns, s) /\
    0 <= turns <= Z.max 0 max_turns /\
    (max_turns <= turns \/
     fst (game_over s) = Ok true \/
     exists rotations,
       lookup_key TETROMINOS (choice (Z.to_nat turns)) = Some rotations /\
       fst (best_move rotations s) = Ok (None, NegInf)).
Proof.
  intros Hchoice.
  destruct (game_loop_run game_safe max_turns choice Hchoice
              (fun t s H => proj1 H)
              (fun t s rotations x y r sc _ => turn_safe t s rotations x y r sc)
              (S (Z.to_nat max_turns)) 0 init
              ltac:(lia) game_safe_init ltac:(lia))
    as (turns & s & Hrun & Hle & _ & Hstop).
  exists turns, s. split; [exact Hrun|]. split; [lia|easy].
Qed.

Lemma run_game_terminates_witness :
  exists turns s,
    run_game 12 (fun _ => "T"%string) = (Ok turns, s) /\
    0 <= turns <= Z.max 0 12 /\
    (12 <= turns \/
     fst (game_over s) = Ok true \/
     exists rotations,
       lookup_key TETROMINOS ((fun _ => "T"%string) (Z.to_nat turns))
       = Some rotations /\
       fst (best_move rotations s) = Ok (None, NegInf)).
Proof.
  apply (run_game_terminates 12 (fun _ => "T"%string)).
  intros t. vm_compute. tauto.
Defined.

(** X12. At the end of a [run_game] of at most [10^8] turns, after
    [turns] turns, no counter has wrapped around: the grid has the fixed
    shape, binary cells and no full row; the number of occupied cells is
    [4 * turns - 10 * lines_cleared]; [level] is
    [max(1, lines_cleared // 10 + 1)]; and [score] is at least
    [10 * turns + 100 * lines_cleared]. *)
Theorem run_game_invariants max_turns choice :
  (forall t, In (choice t) piece_types) ->
  max_turns <= 10 ^ 8 ->
  exists turns s,
    run_game max_turns choice = (Ok turns, s) /\
    wf_board (board s) = true /\
    binary_board (board s) = true /\
    full_count (board s) = 0 /\
    occupied_count (board s) = 4 * turns - 10 * value (lines_cleared s) /\
    0 <= value (lines_cleared s) /\
    value (level s) = Z.max 1 (value (lines_cleared s) / 10 + 1) /\
    10 * turns + 100 * value (lines_cleared s) <= value (score s).
Proof.
  intros Hchoice Hmax.
  destruct (game_loop_run game_state max_turns choice Hchoice
              (fun t s H => proj1 H)
              (fun t s rotations x y r sc Ht =>
                 turn_exact t s rotations x y r sc ltac:(lia))
              (S (Z.to_nat max_turns)) 0 init
              ltac:(lia) game_state_init ltac:(lia))
    as (turns & s & Hrun & _ & Hstate & _).
  destruct Hstate as (Hwf & Hbin & Hfull & Hocc & Hlines & Hlevel & Hscore & _).
  exists turns, s. split; [exact Hrun|].
  split; [easy|]. split; [easy|]. split; [easy|]. split; [lia|].
  split; [easy|]. split; [exact Hlevel|easy].
Qed.

Lemma run_game_invariants_witness :
  (12 <= 10 ^ 8) /\
  exists turns s,
    run_game 12 (fun _ => "T"%string) = (Ok turns, s) /\
    wf_board (board s) = true /\
    binary_board (board s) = true /\
    full_count (board s) = 0 /\
    occupied_count (board s) = 4 * turns - 10 * value (lines_cleared s) /\
    0 <= value (lines_cleared s) /\
    value (level s) = Z.max 1 (value (lines_cleared s) / 10 + 1) /\
    10 * turns + 100 * value (lines_cleared s) <= value (score s).
Proof.
  split; [lia|].
  apply (run_game_invariants 12 (fun _ => "T"%string)).
  - intros t. vm_compute. tauto.
  - lia.
Defined.

(** X18. Whatever the number of turns, the values that [run_game] leaves
    in [lines_cleared] and [score] fit in 64 bits.  The score stays a
    Python integer only as long as fewer than ten lines have been cleared,
    which lasts at most 72 turns, and is then at most [810 * turns]. *)
Theorem run_game_counters_fit max_turns choice :
  (forall t, In (choice t) piece_types) ->
  exists turns s,
    run_game max_turns choice = (Ok turns, s) /\
    counters_fit s /\
    (is_py (score s) = true ->
     value (lines_cleared s) <= 9 /\
     turns <= 72 /\
     0 <= value (score s) <= 810 * turns).
Proof.
  intros Hchoice.
  destruct (game_loop_run game_safe max_turns choice Hchoice
              (fun t s H => proj1 H)
              (fun t s rotations x y r sc _ => turn_safe t s rotations x y r sc)
              (S (Z.to_nat max_turns)) 0 init
              ltac:(lia) game_safe_init ltac:(lia))
    as (turns & s & Hrun & _ & (Hwf & Hl & Hsc & Hpy) & _).
  exists turns, s. split; [exact Hrun|]. split; [split; assumption|].
  intros Hp. destruct (Hpy Hp) as (Hl9 & Hocc & Hs).
  pose proof (occupied_count_bounds _ Hwf) as Hbound.
  split; [lia|]. split; [lia|exact Hs].
Qed.

Lemma run_game_counters_fit_witness :
  exists turns s,
    run_game 12 (fun _ => "T"%string) = (Ok turns, s) /\
    counters_fit s /\
    (is_py (score s) = true ->
     value (lines_cleared s) <= 9 /\
     turns <= 72 /\
     0 <= value (score s) <= 810 * turns).
Proof.
  apply (run_game_counters_fit 12 (fun _ => "T"%string)).
  intros t. vm_compute. tauto.
Defined.

(** ** Quarter turns *)

Lemma rect_dims a : rect a = true -> dims a (nrows a) (ncols a).
Proof.
  unfold rect, dims, nrows. intros H. split; [easy|].
  rewrite forallb_forall in H. apply Forall_forall. intros r Hr.
  apply list_elem_of_In in Hr. apply H in Hr. now apply Nat.eqb_eq.
Qed.

Lemma dims_rect a h w :
  dims a h w -> (1 <= h)%nat -> rect a = true /\ nrows a = h /\ ncols a = w.
Proof.
  intros [Hlen Hall] Hh. destruct a as [|r a]; [simpl in Hlen; lia|].
  assert (Hw : length r = w) by (now inversion Hall).
  split; [|split; [easy|easy]].
  unfold rect. apply forallb_forall. intros r' Hr'. apply Nat.eqb_eq.
  simpl. rewrite Hw. rewrite Forall_forall in Hall. apply Hall.
  now apply list_elem_of_In.
Qed.

Lemma dims_ext a b h w :
  dims a h w -> dims b h w ->
  (forall i j, (i < h)%nat -> (j < w)%nat -> entry a i j = entry b i j) ->
  a = b.
Proof.
  intros [Ha Hra] [Hb Hrb] Hent.
  apply (list_eq_same_length _ _ h); trivial.
  intros i x y Hi Hx Hy.
  pose proof (Forall_lookup_1 _ _ _ _ Hra Hx) as Hlx.
  pose proof (Forall_lookup_1 _ _ _ _ Hrb Hy) as Hly. simpl in Hlx, Hly.
  apply (list_eq_same_length _ _ w); trivial.
  intros j u v Hj Hu Hv. specialize (Hent i j Hi Hj).
  unfold entry in Hent. rewrite Hx, Hy in Hent. simpl in Hent. congruence.
Qed.

Lemma rev_lookup {A : Type} (l : list A) i :
  (i < length l)%nat -> rev l !! i = l !! (length l - S i)%nat.
Proof. intros Hi. rewrite rev_alt. now apply reverse_lookup. Qed.

Lemma dims_flip0 a h w : dims a h w -> dims (flip0 a) h w.
Proof.
  intros [Hlen Hall]. unfold flip0. split; [now rewrite length_rev|].
  rewrite rev_alt. now apply Forall_reverse.
Qed.

Lemma entry_flip0 a h w i j :
  dims a h w -> (i < h)%nat -> entry (flip0 a) i j = entry a (h - 1 - i) j.
Proof.
  intros [Hlen _] Hi. unfold entry, flip0. rewrite rev_lookup by lia.
  do 2 f_equal. lia.
Qed.

Lemma dims_flip1 a h w : dims a h w -> dims (flip1 a) h w.
Proof.
  intros [Hlen Hall]. unfold flip1. split; [now rewrite length_map|].
  apply Forall_fmap. eapply Forall_impl; [exact Hall|].
  intros r Hr. simpl. now rewrite length_rev.
Qed.

Lemma entry_flip1 a h w i j :
  dims a h w -> (i < h)%nat -> (j < w)%nat ->
  entry (flip1 a) i j = entry a i (w - 1 - j).
Proof.
  intros [Hlen Hall] Hi Hj. unfold entry, flip1.
  change (map (@rev Z) a) with (@rev Z <$> a). rewrite list_lookup_fmap.
  destruct (a !! i) as [row|] eqn:E; [|easy]. simpl.
  pose proof (Forall_lookup_1 _ _ _ _ Hall E) as Hrow. simpl in Hrow.
  rewrite rev_lookup by lia. f_equal. lia.
Qed.

Lemma transpose_cons2 r r2 a :
  transpose (r :: r2 :: a) = zip_with cons r (transpose (r2 :: a)).
Proof. reflexivity. Qed.

Lemma dims_transpose a h w :
  dims a h w -> (1 <= h)%nat -> dims (transpose a) w h.
Proof.
  revert h. induction a as [|r a IH]; intros h [Hlen Hall] Hh;
    [simpl in Hlen; lia|].
  assert (Hr : length r = w) by (now inversion Hall).
  destruct a as [|r2 a].
  - simpl in *. subst h. split; [now rewrite length_map|].
    apply Forall_fmap. apply Forall_forall. now intros v _.
  - rewrite transpose_cons2.
    assert (Hd : dims (r2 :: a) (h - 1) w).
    { split; [simpl in *; lia|now inversion Hall]. }
    destruct (IH (h - 1)%nat Hd) as [HT HTrows]; [simpl in Hlen; lia|].
    split.
    + rewrite length_zip_with_l_eq; lia.
    + apply Forall_lookup. intros j row Hrow.
      apply lookup_zip_with_Some in Hrow as (x & y & -> & _ & Hy).
      pose proof (Forall_lookup_1 _ _ _ _ HTrows Hy) as Hly.
      simpl in *. lia.
Qed.

Lemma entry_transpose a h w i j :
  dims a h w -> (i < h)%nat -> (j < w)%nat ->
  entry (transpose a) j i = entry a i j.
Proof.
  revert h i. induction a as [|r a IH]; intros h i [Hlen Hall] Hi Hj;
    [simpl in Hlen; lia|].
  assert (Hr : length r = w) by (now inversion Hall).
  destruct (r !! j) as [x|] eqn:Ex.
  2:{ apply lookup_ge_None in Ex. lia. }
  destruct a as [|r2 a].
  - simpl in Hlen. assert (i = 0)%nat by lia. subst i.
    unfold entry. simpl transpose.
    change (map (fun v => [v]) r) with ((fun v : Z => [v]) <$> r).
    rewrite list_lookup_fmap, Ex. simpl. now rewrite Ex.
  - rewrite transpose_cons2.
    assert (Hd : dims (r2 :: a) (h - 1) w).
    { split; [simpl in *; lia|now inversion Hall]. }
    destruct (dims_transpose _ _ _ Hd) as [HT _]; [simpl in Hlen; lia|].
    remember (transpose (r2 :: a)) as T eqn:HeqT. clear HeqT.
    destruct (T !! j) as [y|] eqn:Ey.
    2:{ apply lookup_ge_None in Ey. lia. }
    unfold entry at 1. rewrite lookup_zip_with, Ex. simpl. rewrite Ey. simpl.
    destruct i as [|i].
    + unfold entry. simpl. now rewrite Ex.
    + specialize (IH (h - 1)%nat i Hd ltac:(simpl in Hlen; lia) Hj).
      unfold entry in IH at 1. rewrite Ey in IH. simpl in IH.
      simpl. rewrite IH. reflexivity.
Qed.

Lemma dims_rot1 a h w :
  dims a h w -> (1 <= h)%nat -> dims (rot90 a 1) w h.
Proof.
  intros Hd Hh. change (rot90 a 1) with (transpose (flip1 a)).
  apply dims_transpose; [now apply dims_flip1|easy].
Qed.

Lemma entry_rot1 a h w i j :
  dims a h w -> (i < w)%nat -> (j < h)%nat ->
  entry (rot90 a 1) i j = entry a j (w - 1 - i).
Proof.
  intros Hd Hi Hj. change (rot90 a 1) with (transpose (flip1 a)).
  rewrite (entry_transpose _ h w) by (trivial; now apply dims_flip1).
  now apply (entry_flip1 a h w).
Qed.

Lemma dims_rot2 a h w : dims a h w -> dims (rot90 a 2) h w.
Proof.
  intros Hd. change (rot90 a 2) with (flip1 (flip0 a)).
  now apply dims_flip1, dims_flip0.
Qed.

Lemma entry_rot2 a h w i j :
  dims a h w -> (i < h)%nat -> (j < w)%nat ->
  entry (rot90 a 2) i j = entry a (h - 1 - i) (w - 1 - j).
Proof.
  intros Hd Hi Hj. change (rot90 a 2) with (flip1 (flip0 a)).
  rewrite (entry_flip1 _ h w) by (trivial; now apply dims_flip0).
  now apply (entry_flip0 a h w).
Qed.

Lemma dims_rot3 a h w :
  dims a h w -> (1 <= h)%nat -> dims (rot90 a 3) w h.
Proof.
  intros Hd Hh. change (rot90 a 3) with (flip1 (transpose a)).
  now apply dims_flip1, dims_transpose.
Qed.

Lemma entry_rot3 a h w i j :
  dims a h w -> (1 <= h)%nat -> (i < w)%nat -> (j < h)%nat ->
  entry (rot90 a 3) i j = entry a (h - 1 - j) i.
Proof.
  intros Hd Hh Hi Hj. change (rot90 a 3) with (flip1 (transpose a)).
  rewrite (entry_flip1 _ w h) by (trivial; now apply dims_transpose).
  apply (entry_transpose a h w); trivial; lia.
Qed.

Lemma rot1_rot1 a h w :
  dims a h w -> (1 <= h)%nat -> (1 <= w)%nat ->
  rot90 (rot90 a 1) 1 = rot90 a 2.
Proof.
  intros Hd Hh Hw. pose proof (dims_rot1 _ _ _ Hd Hh) as Hd1.
  apply (dims_ext _ _ h w); [now apply dims_rot1|now apply dims_rot2|].
  intros i j Hi Hj.
  rewrite (entry_rot1 _ w h) by easy.
  rewrite (entry_rot1 a h w) by (trivial; lia).
  rewrite (entry_rot2 a h w) by easy. reflexivity.
Qed.

Lemma rot1_rot2 a h w :
  dims a h w -> (1 <= h)%nat -> (1 <= w)%nat ->
  rot90 (rot90 a 2) 1 = rot90 a 3.
Proof.
  intros Hd Hh Hw. pose proof (dims_rot2 _ _ _ Hd) as Hd2.
  apply (dims_ext _ _ w h); [now apply dims_rot1|now apply dims_rot3|].
  intros i j Hi Hj.
  rewrite (entry_rot1 _ h w) by easy.
  rewrite (entry_rot2 a h w) by (trivial; lia).
  rewrite (entry_rot3 a h w) by easy. f_equal. lia.
Qed.

Lemma rot1_rot3 a h w :
  dims a h w -> (1 <= h)%nat -> (1 <= w)%nat ->
  rot90 (rot90 a 3) 1 = a.
Proof.
  intros Hd Hh Hw. pose proof (dims_rot3 _ _ _ Hd Hh) as Hd3.
  apply (dims_ext _ _ h w); [now apply dims_rot1|easy|].
  intros i j Hi Hj.
  rewrite (entry_rot1 _ w h) by easy.
  rewrite (entry_rot3 a h w) by (trivial; lia). f_equal. lia.
Qed.

Lemma ones_rev r : ones (rev r) = ones r.
Proof.
  induction r as [|v r IH]; [easy|]. simpl rev. rewrite ones_app, IH.
  change (v :: r) with ([v] ++ r). rewrite ones_app. lia.
Qed.

Lemma occupied_count_flip0 a : occupied_count (flip0 a) = occupied_count a.
Proof.
  unfold flip0. induction a as [|r a IH]; [easy|]. simpl rev.
  rewrite occupied_count_app, IH, !occupied_count_cons.
  change (occupied_count []) with 0. lia.
Qed.

Lemma occupied_count_flip1 a : occupied_count (flip1 a) = occupied_count a.
Proof.
  unfold flip1. induction a as [|r a IH]; [easy|]. simpl map.
  now rewrite !occupied_count_cons, IH, ones_rev.
Qed.

Lemma occupied_count_singletons r :
  occupied_count (map (fun v => [v]) r) = ones r.
Proof.
  induction r as [|v r IH]; [easy|]. simpl map.
  rewrite occupied_count_cons, IH.
  change (v :: r) with ([v] ++ r). now rewrite ones_app.
Qed.

Lemma occupied_count_zip_cons r (t : ndarray) :
  length r = length t ->
  occupied_count (zip_with cons r t) = ones r + occupied_count t.
Proof.
  revert t. induction r as [|v r IH]; intros [|row t]; simpl; try easy.
  intros [= Hlen]. rewrite !occupied_count_cons, (IH t Hlen).
  change (v :: row) with ([v] ++ row). change (v :: r) with ([v] ++ r).
  rewrite !ones_app. lia.
Qed.

Lemma occupied_count_transpose a h w :
  dims a h w -> (1 <= h)%nat -> occupied_count (transpose a) = occupied_count a.
Proof.
  revert h. induction a as [|r a IH]; intros h [Hlen Hall] Hh;
    [simpl in Hlen; lia|].
  assert (Hr : length r = w) by (now inversion Hall).
  destruct a as [|r2 a].
  - simpl transpose. rewrite occupied_count_singletons, occupied_count_cons.
    change (occupied_count []) with 0. lia.
  - rewrite transpose_cons2.
    assert (Hd : dims (r2 :: a) (h - 1) w).
    { split; [simpl in *; lia|now inversion Hall]. }
    destruct (dims_transpose _ _ _ Hd) as [HT _]; [simpl in Hlen; lia|].
    rewrite occupied_count_zip_cons by lia.
    rewrite (IH (h - 1)%nat Hd) by (simpl in Hlen; lia).
    now rewrite (occupied_count_cons r).
Qed.

(** X13. Quarter turns compose: for a rectangular piece with at least one
    row and one column, turning the 90-degree rotation once more gives the
    180-degree one, turning that gives the 270-degree one, and a fourth
    turn gives back the piece. *)
Theorem rot90_composes piece :
  rect piece = true -> (1 <= nrows piece)%nat -> (1 <= ncols piece)%nat ->
  rot90 (rot90 piece 1) 1 = rot90 piece 2 /\
  rot90 (rot90 piece 2) 1 = rot90 piece 3 /\
  rot90 (rot90 piece 3) 1 = piece /\
  rot90 (rot90 (rot90 (rot90 piece 1) 1) 1) 1 = piece.
Proof.
  intros Hrect Hh Hw. pose proof (rect_dims _ Hrect) as Hd.
  pose proof (rot1_rot1 _ _ _ Hd Hh Hw) as H12.
  pose proof (rot1_rot2 _ _ _ Hd Hh Hw) as H23.
  pose proof (rot1_rot3 _ _ _ Hd Hh Hw) as H30.
  split; [easy|]. split; [easy|]. split; [easy|].
  now rewrite H12, H23.
Qed.

Lemma rot90_composes_witness :
  rot90 (rot90 [[0; 0; 1]; [1; 1; 1]] 1) 1 = rot90 [[0; 0; 1]; [1; 1; 1]] 2 /\
  rot90 (rot90 [[0; 0; 1]; [1; 1; 1]] 2) 1 = rot90 [[0; 0; 1]; [1; 1; 1]] 3 /\
  rot90 (rot90 [[0; 0; 1]; [1; 1; 1]] 3) 1 = [[0; 0; 1]; [1; 1; 1]] /\
  rot90 (rot90 (rot90 (rot90 [[0; 0; 1]; [1; 1; 1]] 1) 1) 1) 1
  = [[0; 0; 1]; [1; 1; 1]].
Proof.
  apply (rot90_composes [[0; 0; 1]; [1; 1; 1]]).
  - reflexivity.
  - simpl. lia.
  - simpl. lia.
Defined.

Lemma quarter_turn_facts piece q :
  rect piece = true -> (1 <= nrows piece)%nat -> (1 <= ncols piece)%nat ->
  In q (quarter_turns piece) ->
  rect q = true /\
  occupied_count q = occupied_count piece /\
  ((nrows q = nrows piece /\ ncols q = ncols piece) \/
   (nrows q = ncols piece /\ ncols q = nrows piece)) /\
  In (rot90 q 1) (quarter_turns piece).
Proof.
  intros Hrect Hh Hw Hq. pose proof (rect_dims _ Hrect) as Hd.
  pose proof (rot1_rot1 _ _ _ Hd Hh Hw) as H12.
  pose proof (rot1_rot2 _ _ _ Hd Hh Hw) as H23.
  pose proof (rot1_rot3 _ _ _ Hd Hh Hw) as H30.
  unfold quarter_turns in *. change (rot90 piece 0) with piece in *.
  destruct Hq as [<-|[<-|[<-|[<-|[]]]]].
  - split; [easy|]. split; [easy|]. split; [now left|]. right. now left.
  - destruct (dims_rect _ _ _ (dims_rot1 _ _ _ Hd Hh) Hw) as (Hr & Hn & Hc).
    split; [easy|]. split.
    { change (rot90 piece 1) with (transpose (flip1 piece)).
      rewrite (occupied_count_transpose _ _ _ (dims_flip1 _ _ _ Hd) Hh).
      apply occupied_count_flip1. }
    split; [now right|]. rewrite H12. right. right. now left.
  - destruct (dims_rect _ _ _ (dims_rot2 _ _ _ Hd) Hh) as (Hr & Hn & Hc).
    split; [easy|]. split.
    { change (rot90 piece 2) with (flip1 (flip0 piece)).
      now rewrite occupied_count_flip1, occupied_count_flip0. }
    split; [now left|]. rewrite H23. right. right. right. now left.
  - destruct (dims_rect _ _ _ (dims_rot3 _ _ _ Hd Hh) Hw) as (Hr & Hn & Hc).
    split; [easy|]. split.
    { change (rot90 piece 3) with (flip1 (transpose piece)).
      rewrite occupied_count_flip1.
      apply (occupied_count_transpose _ _ _ Hd Hh). }
    split; [now right|]. rewrite H30. now left.
Qed.

(** X14. Every element of [get_rotations(piece)], for a rectangular piece
    with at least one row and one column, is rectangular, has as many
    occupied cells as the piece, and has the shape of the piece or the
    transposed shape; and the list is closed under a further quarter
    turn. *)
Theorem get_rotations_elements piece q :
  rect piece = true -> (1 <= nrows piece)%nat -> (1 <= ncols piece)%nat ->
  In q (get_rotations piece) ->
  rect q = true /\
  occupied_count q = occupied_count piece /\
  ((nrows q = nrows piece /\ ncols q = ncols piece) \/
   (nrows q = ncols piece /\ ncols q = nrows piece)) /\
  In (rot90 q 1) (get_rotations piece).
Proof.
  intros Hrect Hh Hw Hq. rewrite get_rotations_keep_first in *.
  apply keep_first_In in Hq.
  destruct (quarter_turn_facts piece q Hrect Hh Hw Hq) as (H1 & H2 & H3 & H4).
  split; [easy|]. split; [easy|]. split; [easy|].
  now apply keep_first_complete.
Qed.

Lemma get_rotations_elements_witness :
  rect [[1]; [1]; [1]; [1]] = true /\
  occupied_count [[1]; [1]; [1]; [1]] = occupied_count [[1; 1; 1; 1]] /\
  ((nrows [[1]; [1]; [1]; [1]] = nrows [[1; 1; 1; 1]] /\
    ncols [[1]; [1]; [1]; [1]] = ncols [[1; 1; 1; 1]]) \/
   (nrows [[1]; [1]; [1]; [1]] = ncols [[1; 1; 1; 1]] /\
    ncols [[1]; [1]; [1]; [1]] = nrows [[1; 1; 1; 1]])) /\
  In (rot90 [[1]; [1]; [1]; [1]] 1) (get_rotations [[1; 1; 1; 1]]).
Proof.
  apply (get_rotations_elements [[1; 1; 1; 1]] [[1]; [1]; [1]; [1]]).
  - reflexivity.
  - simpl. lia.
  - simpl. lia.
  - vm_compute. tauto.
Defined.

Lemma array_equal_refl a : array_equal a a = true.
Proof. now apply array_equal_eq. Qed.

Lemma array_equal_false a b : a <> b -> array_equal a b = false.
Proof.
  intros Hne. destruct (array_equal a b) eqn:E; [|easy].
  apply array_equal_eq in E. contradiction.
Qed.

(** Settles the equality tests of [keep_first] from the equalities and
    disequalities at hand. *)
Ltac settle_array_equal :=
  repeat (simpl;
          first [ rewrite array_equal_refl
                | match goal with
                  | H : ?a <> ?b |- context [array_equal ?a ?b] =>
                      rewrite (array_equal_false a b H)
                  | H : ?a <> ?b |- context [array_equal ?b ?a] =>
                      rewrite (array_equal_false b a (not_eq_sym H))
                  end ]).

(** X15. The number of distinct rotations is 1, 2 or 4, never 3, for
    every rectangular piece with at least one row and one column. *)
Theorem get_rotations_length piece :
  rect piece = true -> (1 <= nrows piece)%nat -> (1 <= ncols piece)%nat ->
  length (get_rotations piece) = 1%nat \/
  length (get_rotations piece) = 2%nat \/
  length (get_rotations piece) = 4%nat.
Proof.
  intros Hrect Hh Hw. pose proof (rect_dims _ Hrect) as Hd.
  pose proof (rot1_rot1 _ _ _ Hd Hh Hw) as H12.
  pose proof (rot1_rot2 _ _ _ Hd Hh Hw) as H23.
  pose proof (rot1_rot3 _ _ _ Hd Hh Hw) as H30.
  rewrite get_rotations_keep_first. unfold quarter_turns.
  change (rot90 piece 0) with piece.
  remember (rot90 piece 1) as r1 eqn:E1.
  remember (rot90 piece 2) as r2 eqn:E2.
  remember (rot90 piece 3) as r3 eqn:E3.
  destruct (decide (r1 = piece)) as [Q1|N1].
  - assert (Q2 : r2 = piece) by congruence.
    assert (Q3 : r3 = piece) by congruence.
    rewrite Q1, Q2, Q3. left. settle_array_equal. reflexivity.
  - destruct (decide (r2 = piece)) as [Q2|N2].
    + assert (Q3 : r3 = r1) by congruence.
      rewrite Q2, Q3. right. left. settle_array_equal. reflexivity.
    + assert (N3 : r3 <> piece) by (intros Q; apply N1; congruence).
      assert (N21 : r2 <> r1) by (intros Q; apply N3; congruence).
      assert (N31 : r3 <> r1) by (intros Q; apply N2; congruence).
      assert (N32 : r3 <> r2) by (intros Q; apply N3; congruence).
      right. right. settle_array_equal. reflexivity.
Qed.

Lemma get_rotations_length_witness :
  length (get_rotations [[0; 1; 1]; [1; 1; 0]]) = 1%nat \/
  length (get_rotations [[0; 1; 1]; [1; 1; 0]]) = 2%nat \/
  length (get_rotations [[0; 1; 1]; [1; 1; 0]]) = 4%nat.
Proof.
  apply (get_rotations_length [[0; 1; 1]; [1; 1; 0]]).
  - reflexivity.
  - simpl. lia.
  - simpl. lia.
Defined.

(** ** Full rows after a placement *)

Lemma full_count_zero_iff b :
  full_count b = 0 <-> Forall (fun r => row_full r = false) b.
Proof.
  unfold full_count. induction b as [|r b IH]; simpl.
  - split; [constructor|easy].
  - destruct (row_full r) eqn:E; simpl.
    + split; [lia|]. intros H. inversion H; subst. congruence.
    + rewrite IH. split; [now constructor|]. intros H. now inversion H.
Qed.

Lemma filter_none {A : Type} (f : A -> bool) l :
  Forall (fun a => f a = false) l -> List.filter f l = [].
Proof.
  induction 1 as [|a l Ha _ IH]; [easy|]. simpl. now rewrite Ha.
Qed.

Lemma row_of_cells b b' r :
  wf_board b = true -> wf_board b' = true ->
  (r < Z.to_nat BOARD_HEIGHT)%nat ->
  (forall c, cell b' (Z.of_nat r) c = cell b (Z.of_nat r) c) ->
  b' !! r = b !! r.
Proof.
  intros Hwf Hwf' Hr Hcells.
  destruct (b !! r) as [row|] eqn:E.
  2:{ apply lookup_ge_None in E. apply wf_board_iff in Hwf as [Hl _]. lia. }
  destruct (b' !! r) as [row'|] eqn:E'.
  2:{ apply lookup_ge_None in E'. apply wf_board_iff in Hwf' as [Hl _]. lia. }
  pose proof (wf_board_row _ _ _ Hwf E) as Hlen.
  pose proof (wf_board_row _ _ _ Hwf' E') as Hlen'.
  f_equal. apply (list_eq_same_length _ _ (Z.to_nat BOARD_WIDTH)); trivial.
  intros j u v Hj Hu Hv. specialize (Hcells (Z.of_nat j)).
  unfold cell in Hcells.
  destruct (Z.leb_spec 0 (Z.of_nat r)); [|lia].
  destruct (Z.leb_spec 0 (Z.of_nat j)); [|lia]. simpl in Hcells.
  rewrite !Nat2Z.id, E, E' in Hcells. simpl in Hcells.
  rewrite Hu, Hv in Hcells. exact Hcells.
Qed.

(** Rows outside the span of the piece are left as they were. *)
Lemma painted_outside piece x y b b' r :
  wf_board b = true -> wf_board b' = true ->
  painted (covered piece x y) b b' -> 0 <= x ->
  (r < Z.to_nat BOARD_HEIGHT)%nat ->
  Z.of_nat r < x \/ x + Z.of_nat (nrows piece) <= Z.of_nat r ->
  b' !! r = b !! r.
Proof.
  intros Hwf Hwf' Hp Hx Hr Hout. apply row_of_cells; trivial.
  intros c. apply (Hp (Z.of_nat r) c).
  intros (i & j & Hi & _ & _ & Hri & _).
  rewrite board_row_nonneg in Hri by lia. lia.
Qed.

Lemma full_rows_after_placement piece x y b b' :
  wf_board b = true -> wf_board b' = true ->
  painted (covered piece x y) b b' -> 0 <= x ->
  full_count b = 0 ->
  full_count b' <= Z.of_nat (nrows piece).
Proof.
  intros Hwf Hwf' Hp Hx Hzero.
  apply full_count_zero_iff in Hzero. rewrite Forall_lookup in Hzero.
  pose proof (wf_board_iff b') as [Hiff _]. destruct (Hiff Hwf') as [Hlen' _].
  set (X := Z.to_nat x). set (h := nrows piece).
  assert (Hsplit : b' = take X b' ++ take h (drop X b') ++ drop (X + h) b').
  { transitivity (take X b' ++ drop X b'); [symmetry; apply take_drop|].
    f_equal.
    transitivity (take h (drop X b') ++ drop h (drop X b'));
      [symmetry; apply take_drop|].
    f_equal. apply drop_drop. }
  unfold full_count. rewrite Hsplit, !List.filter_app, !length_app.
  rewrite (filter_none row_full (take X b')).
  2:{ apply Forall_lookup. intros i row Hi.
      pose proof (lookup_lt_Some _ _ _ Hi) as Hlt. rewrite length_take in Hlt.
      rewrite lookup_take_lt in Hi by lia.
      rewrite (painted_outside piece x y b b' i Hwf Hwf' Hp Hx) in Hi;
        [now apply (Hzero i)|lia|left; lia]. }
  rewrite (filter_none row_full (drop (X + h) b')).
  2:{ apply Forall_lookup. intros i row Hi.
      pose proof (lookup_lt_Some _ _ _ Hi) as Hlt. rewrite length_drop in Hlt.
      rewrite lookup_drop in Hi.
      rewrite (painted_outside piece x y b b' _ Hwf Hwf' Hp Hx) in Hi;
        [now apply (Hzero (X + h + i)%nat)|lia|right; unfold h; lia]. }
  simpl.
  pose proof (List.filter_length_le row_full (take h (drop X b'))) as Hle.
  rewrite length_take in Hle. lia.
Qed.

(** X16. On a grid without full rows, a successful [place_piece] at a row
    [x >= 0] completes at most as many rows as the piece is high, so the
    following [clear_lines] returns at most [piece.height]: with
    tetrominoes, never more than 4.  The counters are supposed to hold
    values that fit in 64 bits. *)
Theorem clear_after_place s piece x y :
  wf_board (board s) = true -> counters_fit s ->
  rect piece = true -> 0 <= x ->
  full_count (board s) = 0 ->
  fst (can_place piece x y s) = Ok true ->
  exists s1 n s2,
    place_piece piece x y s = (Ok true, s1) /\
    clear_lines s1 = (Ok n, s2) /\
    0 <= n <= Z.of_nat (nrows piece).
Proof.
  intros Hwf Hfit Hrect Hx Hzero Htrue.
  destruct (place_piece_true s piece x y Hwf Hrect Htrue)
    as (b' & Hplace & Hwf' & Hp).
  pose proof (full_rows_after_placement piece x y _ _ Hwf Hwf' Hp Hx Hzero)
    as Hle.
  pose proof (full_count_range b') as Hrange.
  destruct (clear_lines_fit (set_board b' s) Hwf' Hfit) as (s2 & Hclear & _).
  exists (set_board b' s), (full_count b'), s2. split; [exact Hplace|].
  split; [exact Hclear|]. lia.
Qed.

Lemma clear_after_place_witness :
  exists s1 n s2,
    place_piece [[1; 1; 1; 1]] 19 0 init = (Ok true, s1) /\
    clear_lines s1 = (Ok n, s2) /\
    0 <= n <= Z.of_nat (nrows [[1; 1; 1; 1]]).
Proof.
  apply (clear_after_place init [[1; 1; 1; 1]] 19 0).
  - reflexivity.
  - split; reflexivity.
  - reflexivity.
  - lia.
  - reflexivity.
  - reflexivity.
Defined.

(** ** Dropping on the empty grid *)

Lemma cell_init r c : cell (board init) r c = 0.
Proof.
  unfold cell. destruct ((0 <=? r) && (0 <=? c)); [|easy].
  change (board init)
    with (replicate (Z.to_nat BOARD_HEIGHT) (replicate (Z.to_nat BOARD_WIDTH) 0)).
  generalize (Z.to_nat BOARD_HEIGHT) (Z.to_nat BOARD_WIDTH) (Z.to_nat r)
    (Z.to_nat c).
  intros h w i j.
  destruct (replicate h (replicate w 0) !! i) as [row|] eqn:E; [|easy].
  apply lookup_replicate in E as [-> _].
  change (default 0 (replicate w 0 !! j) = 0).
  destruct (replicate w 0 !! j) as [v|] eqn:E'; [|easy].
  now apply lookup_replicate in E' as [-> _].
Qed.

(** X17. On the empty grid every rectangular piece that fits -- at most
    [H] rows, column between 0 and [W - width] -- falls to the floor:
    [drop_piece] returns [True] and writes the piece with its top row at
    [H - height]. *)
Theorem drop_piece_empty_board s piece y :
  board s = board init -> rect piece = true ->
  Z.of_nat (nrows piece) <= BOARD_HEIGHT ->
  0 <= y -> y + Z.of_nat (ncols piece) <= BOARD_WIDTH ->
  resting_row s piece y (BOARD_HEIGHT - Z.of_nat (nrows piece)) /\
  exists b',
    drop_piece piece y s = (Ok true, set_board b' s) /\
    wf_board b' = true /\
    forall r c,
      (covered piece (BOARD_HEIGHT - Z.of_nat (nrows piece)) y r c ->
       cell b' r c = 1) /\
      (~ covered piece (BOARD_HEIGHT - Z.of_nat (nrows piece)) y r c ->
       cell b' r c = 0).
Proof.
  intros Hb Hrect Hh Hy Hw.
  assert (Hwf : wf_board (board s) = true) by (now rewrite Hb).
  assert (Hfree : forall x, 0 <= x ->
            x + Z.of_nat (nrows piece) <= BOARD_HEIGHT ->
            fst (can_place piece x y s) = Ok true).
  { intros x Hx Hxh.
    destruct (can_place_value s piece x y Hwf Hrect Hx)
      as [[E _]|[_ [Hbox|Hov]]].
    - now rewrite E.
    - exfalso. apply Hbox. unfold box_in_bounds. lia.
    - exfalso. destruct Hov as (i & j & _ & _ & _ & Hc).
      rewrite Hb, cell_init in Hc. discriminate. }
  assert (Hrest : resting_row s piece y (BOARD_HEIGHT - Z.of_nat (nrows piece))).
  { split; [lia|]. split.
    - intros k Hk. apply Hfree; lia.
    - destruct (can_place_value s piece
                  (BOARD_HEIGHT - Z.of_nat (nrows piece) + 1) y Hwf Hrect)
        as [[_ [Hbox _]]|[E _]]; [lia| |now rewrite E].
      unfold box_in_bounds in Hbox. lia. }
  split; [exact Hrest|].
  destruct (drop_piece_run s piece y Hwf Hrect) as (x & Hrest' & Hdrop).
  rewrite (resting_row_unique _ _ _ _ _ Hrest' Hrest) in Hdrop.
  destruct (place_piece_true s piece (BOARD_HEIGHT - Z.of_nat (nrows piece)) y
              Hwf Hrect) as (b' & Hplace & Hwf' & Hp).
  { apply Hfree; lia. }
  exists b'. split; [now rewrite Hdrop|]. split; [easy|].
  intros r c. destruct (Hp r c) as [H1 H2]. split; [easy|].
  intros Hn. rewrite (H2 Hn), Hb. apply cell_init.
Qed.

Lemma drop_piece_empty_board_witness :
  resting_row init [[1; 0]; [1; 0]; [1; 1]] 8
    (BOARD_HEIGHT - Z.of_nat (nrows [[1; 0]; [1; 0]; [1; 1]])) /\
  exists b',
    drop_piece [[1; 0]; [1; 0]; [1; 1]] 8 init = (Ok true, set_board b' init) /\
    wf_board b' = true /\
    forall r c,
      (covered [[1; 0]; [1; 0]; [1; 1]]
         (BOARD_HEIGHT - Z.of_nat (nrows [[1; 0]; [1; 0]; [1; 1]])) 8 r c ->
       cell b' r c = 1) /\
      (~ covered [[1; 0]; [1; 0]; [1; 1]]
           (BOARD_HEIGHT - Z.of_nat (nrows [[1; 0]; [1; 0]; [1; 1]])) 8 r c ->
       cell b' r c = 0).
Proof.
  apply (drop_piece_empty_board init [[1; 0]; [1; 0]; [1; 1]] 8).
  - reflexivity.
  - reflexivity.
  - simpl. blia.
  - lia.
  - simpl. blia.
Defined.
